(** * aws-cloudwatch-chart: a shallow embedding of [aws-cloudwatch-chart.js]

    The development follows the source file top to bottom: the chart
    constructor and [addMetric], the value encoder [extendedEncode], the
    resampler inside [getURL], and [getTitle] of a metric series.

    Conventions of the embedding.
    - A JavaScript number is a [number]: a rational, one of the two
      infinities, or NaN.  Finite doubles are idealised as exact rationals
      (no rounding) and the two zeros are not told apart; a division by zero
      is a division by +0, which is the only zero the render path produces
      for [maxVal].  The arithmetic of the code is the arithmetic here
      wherever its operands and results are integers below 2^53 or it only
      compares; a statement that would otherwise turn on a rounding is made
      about such inputs, or by the scaled integer the encoder computes, or
      with the slack the rounding leaves.
    - A [Date] is its time value in milliseconds; [Date.prototype.setTime]
      clips what it is given to an integer (towards zero).
    - Plain objects that the constructor can write to live in a [store];
      everything else is passed by value.
    - A loop that need not terminate takes a fuel argument and answers
      [OutOfFuel] when the fuel is spent before the loop exits. *)

From Stdlib Require Import ZArith QArith Qround Qabs Qminmax Lia Lqa Ascii.
From stdpp Require Import gmap strings list pretty.

Local Open Scope Z_scope.

(** ** JavaScript numbers *)

Module Num.

Inductive number : Type :=
| Fin (q : Q)
| PInf
| NInf
| NaN.

Definition of_Z (z : Z) : number := Fin (inject_Z z).

(** Sign of a finite value, as [Lt], [Eq] or [Gt] against zero. *)
Definition sgn (q : Q) : comparison := Qcompare q 0.

Definition neg (a : number) : number :=
  match a with
  | Fin q => Fin (Qopp q)
  | PInf => NInf
  | NInf => PInf
  | NaN => NaN
  end.

(** An infinity taken with the sign [c]; zero times infinity is NaN. *)
Definition signed_inf (c : comparison) : number :=
  match c with Gt => PInf | Lt => NInf | Eq => NaN end.

Definition mul (a b : number) : number :=
  match a, b with
  | NaN, _ | _, NaN => NaN
  | Fin x, Fin y => Fin (Qmult x y)
  | Fin x, PInf | PInf, Fin x => signed_inf (sgn x)
  | Fin x, NInf | NInf, Fin x => neg (signed_inf (sgn x))
  | PInf, PInf | NInf, NInf => PInf
  | PInf, NInf | NInf, PInf => NInf
  end.

Definition div (a b : number) : number :=
  match a, b with
  | NaN, _ | _, NaN => NaN
  | Fin x, Fin y =>
      if Qeq_bool y 0 then signed_inf (sgn x) else Fin (Qdiv x y)
  | Fin _, (PInf | NInf) => Fin 0
  | PInf, Fin y => match sgn y with Lt => NInf | _ => PInf end
  | NInf, Fin y => match sgn y with Lt => PInf | _ => NInf end
  | (PInf | NInf), (PInf | NInf) => NaN
  end.

Definition add (a b : number) : number :=
  match a, b with
  | NaN, _ | _, NaN => NaN
  | Fin x, Fin y => Fin (Qplus x y)
  | PInf, NInf | NInf, PInf => NaN
  | PInf, _ | _, PInf => PInf
  | NInf, _ | _, NInf => NInf
  end.

Definition sub (a b : number) : number := add a (neg b).

(** Truncation towards zero of a rational. *)
Definition Qtrunc (q : Q) : Z :=
  if Qle_bool 0 q then Qfloor q else Qceiling q.

(** The remainder operator [%]: the result takes the sign of the
    dividend. *)
Definition rem (a b : number) : number :=
  match a, b with
  | NaN, _ | _, NaN => NaN
  | (PInf | NInf), _ => NaN
  | Fin x, (PInf | NInf) => Fin x
  | Fin x, Fin y =>
      if Qeq_bool y 0 then NaN
      else Fin (x - y * inject_Z (Qtrunc (x / y)))
  end.

(** Strict inequality [!==] of two numbers: NaN differs from everything. *)
Definition strict_ne (a b : number) : bool :=
  match a, b with
  | Fin x, Fin y => negb (Qeq_bool x y)
  | PInf, PInf | NInf, NInf => false
  | _, _ => true
  end.

(** [a < b]; every comparison with NaN is false. *)
Definition lt (a b : number) : bool :=
  match a, b with
  | NaN, _ | _, NaN => false
  | Fin x, Fin y => negb (Qle_bool y x)
  | NInf, (Fin _ | PInf) => true
  | Fin _, PInf => true
  | _, _ => false
  end.

Definition gt (a b : number) : bool := lt b a.

Definition le (a b : number) : bool :=
  match a, b with
  | NaN, _ | _, NaN => false
  | Fin x, Fin y => Qle_bool x y
  | NInf, _ | _, PInf => true
  | _, _ => false
  end.

(** [Math.floor] and [Math.ceil]. *)
Definition floor (a : number) : number :=
  match a with Fin q => of_Z (Qfloor q) | _ => a end.

Definition ceil (a : number) : number :=
  match a with Fin q => of_Z (Qceiling q) | _ => a end.

(** [ToIntegerOrInfinity]: NaN becomes 0, a finite value is truncated,
    an infinity stays one ([None]). *)
Definition to_integer (a : number) : option Z :=
  match a with
  | NaN => Some 0
  | Fin q => Some (Qtrunc q)
  | PInf | NInf => None
  end.

End Num.

Import Num.

Declare Scope number_scope.
Delimit Scope number_scope with num.
Bind Scope number_scope with number.
Infix "*" := Num.mul : number_scope.
Infix "/" := Num.div : number_scope.
Infix "+" := Num.add : number_scope.
Infix "-" := Num.sub : number_scope.
Infix "<?" := Num.lt : number_scope.
Infix ">?" := Num.gt : number_scope.
Infix "<=?" := Num.le : number_scope.
Infix "mod" := Num.rem : number_scope.

(** ** The value encoder: [EXTENDED_MAP] and [extendedEncode] *)

Definition EXTENDED_MAP : string :=
  "ABCDEFGHIJKLMNOPQRSTUVWXYZabcdefghijklmnopqrstuvwxyz0123456789-.".

Definition EXTENDED_MAP_LENGTH : number :=
  of_Z (Z.of_nat (String.length EXTENDED_MAP)).

(** [String.prototype.charAt]: the one-character string at the position,
    or the empty string when the position is outside the string. *)
Definition charAt (s : string) (pos : number) : string :=
  match to_integer pos with
  | Some z =>
      if (z <? 0) || (Z.of_nat (String.length s) <=? z) then ""
      else match String.get (Z.to_nat z) s with
           | Some c => String c ""
           | None => ""
           end
  | None => ""
  end.

(** The locals of one iteration of the loop of [extendedEncode]. *)
Definition scaledVal (numericVal maxVal : number) : number :=
  Num.floor (EXTENDED_MAP_LENGTH * EXTENDED_MAP_LENGTH * numericVal / maxVal)%num.

Definition quotient (scaled : number) : number :=
  Num.floor (scaled / EXTENDED_MAP_LENGTH)%num.

Definition remainder (scaled : number) : number :=
  (scaled - EXTENDED_MAP_LENGTH * quotient scaled)%num.

(** What one value appends to [chartData]. *)
Definition encodeValue (maxVal numericVal : number) : string :=
  let scaled := scaledVal numericVal maxVal in
  if (scaled >? EXTENDED_MAP_LENGTH * EXTENDED_MAP_LENGTH - of_Z 1)%num then ".."
  else if (scaled <? of_Z 0)%num then "__"
  else charAt EXTENDED_MAP (quotient scaled) +:+ charAt EXTENDED_MAP (remainder scaled).

Definition extendedEncode (arrVals : list number) (maxVal : number) : string :=
  foldl (fun chartData v => chartData +:+ encodeValue maxVal v) "" arrVals.

(** The loop of [extendedEncode] appends the code of each value in turn. *)
Fixpoint codes (maxVal : number) (arrVals : list number) : string :=
  match arrVals with
  | [] => ""
  | v :: rest => encodeValue maxVal v +:+ codes maxVal rest
  end.

(** *** The alphabet, as the specification words it: A–Z, a–z, 0–9, -, . *)

Definition alphabet (i : Z) : ascii :=
  if i <? 26 then ascii_of_nat (Z.to_nat (65 + i))
  else if i <? 52 then ascii_of_nat (Z.to_nat (97 + (i - 26)))
  else if i <? 62 then ascii_of_nat (Z.to_nat (48 + (i - 52)))
  else if i =? 62 then "-"%char
  else "."%char.

(** The digit pair the specification gives for a scaled integer, and the
    scaled integer itself, [floor(4096 * value / maxVal)]. *)
Definition digit_pair (z : Z) : string :=
  String (alphabet (z / 64)) (String (alphabet (z mod 64)) "").

Definition scaled_integer (v maxVal : number) : number :=
  Num.floor (of_Z 4096 * v / maxVal)%num.

(** The value a digit pair decodes to: [(quotient*64 + remainder)/4096 * M]. *)
Definition decoded (q r M : Q) : Q := ((q * 64 + r) / 4096 * M)%Q.


(** ** Values, exceptions and outcomes *)

(** The values a configuration can hold, and the two values that only
    arise at run time ([undefined] and NaN).  A number of the configuration
    is an integer (one that a double holds exactly, below 2^53 in
    magnitude, wherever its decimal text matters); every array is an array
    of plain objects, an object being the list of its own properties in the
    order [for ... in] visits them (property names are ASCII and
    distinct). *)
#[warnings="-register-all"] Inductive value : Type :=
| VUndef
| VNull
| VBool (b : bool)
| VNum (n : Z)
| VNaN
| VStr (s : string)
| VArr (elems : list (list (string * value))).

Definition object : Type := list (string * value).

Inductive exn : Type :=
| Error (message : string)
| TypeError (message : string).

Inductive outcome (A : Type) : Type :=
| Returned (a : A)
| Threw (e : exn)
| OutOfFuel.
Arguments Returned {A} a.
Arguments Threw {A} e.
Arguments OutOfFuel {A}.

(** A [throw] and an exhausted fuel both cut the rest of the computation
    short: [x ← m; k] is the sequencing of statements. *)
#[global] Instance outcome_ret : MRet outcome := fun A a => Returned a.
#[global] Instance outcome_bind : MBind outcome := fun A B k m =>
  match m with
  | Returned a => k a
  | Threw e => Threw e
  | OutOfFuel => OutOfFuel
  end.

(** [obj[k]]: the first property of that name, [undefined] when absent. *)
Fixpoint get (o : object) (k : string) : value :=
  match o with
  | [] => VUndef
  | (k', v) :: rest => if String.eqb k' k then v else get rest k
  end.

(** [Array.prototype.join] and the [ToString] conversion it rests on. *)
Definition join (sep : string) (parts : list string) : string :=
  String.concat sep parts.

Definition ToString (v : value) : string :=
  match v with
  | VUndef => "undefined"
  | VNull => "null"
  | VBool true => "true"
  | VBool false => "false"
  | VNum n => pretty n
  | VNaN => "NaN"
  | VStr s => s
  | VArr elems => join "," (map (fun _ => "[object Object]") elems)
  end.

Definition join_values (sep : string) (vs : list value) : string :=
  join sep (map (fun v => match v with
                          | VUndef | VNull => ""
                          | _ => ToString v
                          end) vs).

(** [ToBoolean]. *)
Definition truthy (v : value) : bool :=
  match v with
  | VUndef | VNull | VNaN => false
  | VBool b => b
  | VNum n => negb (n =? 0)
  | VStr s => negb (String.eqb s "")
  | VArr _ => true
  end.

(** [a || b]. *)
Definition or_else (a b : value) : value := if truthy a then a else b.

(** [v == 'Maximum']-style loose equality of a value with a string that is
    not a numeric literal: a string compares as a string, an array through
    its [ToString], and a number, a boolean, [null] or [undefined] never
    equals it. *)
Definition loose_eq_word (v : value) (word : string) : bool :=
  match v with
  | VStr s => String.eqb s word
  | VArr _ => String.eqb (ToString v) word
  | _ => false
  end.

(** [String.prototype.toLowerCase] on ASCII. *)
Definition lower_char (c : ascii) : ascii :=
  let n := nat_of_ascii c in
  if ((65 <=? n) && (n <=? 90))%nat then ascii_of_nat (n + 32) else c.

Fixpoint toLowerCase (s : string) : string :=
  match s with
  | EmptyString => EmptyString
  | String c rest => String (lower_char c) (toLowerCase rest)
  end.

(** [parseInt(v, 10)]: leading white space, an optional sign, then the
    longest run of decimal digits; NaN when there is no digit. *)
Fixpoint skip_space (s : string) : string :=
  match s with
  | String c rest => if Ascii.is_space c then skip_space rest else s
  | EmptyString => EmptyString
  end.

Fixpoint leading_digits (s : string) (acc : option Z) : option Z :=
  match s with
  | String c rest =>
      match Ascii.is_nat c with
      | Some d => leading_digits rest (Some (10 * default 0 acc + Z.of_nat d))
      | None => acc
      end
  | EmptyString => acc
  end.

Definition parseInt (v : value) : value :=
  let s := skip_space (ToString v) in
  let '(sign, digits) :=
    match s with
    | String "-"%char rest => (-1, rest)
    | String "+"%char rest => (1, rest)
    | _ => (1, s)
    end in
  match leading_digits digits None with
  | Some n => VNum (sign * n)
  | None => VNaN
  end.

(** ** Metric series: [AwsCloudWatchChartMetric] *)

(** A data point of the CloudWatch response: its time stamp (milliseconds)
    and the statistics that were asked for. *)
Record Datapoint : Type := {
  Timestamp : Z;
  Maximum : option Q;
  Average : option Q
}.

(** The fields of a metric object; [None] stands for a field that was never
    assigned. *)
Record Metric : Type := {
  title : option string;
  statistic : value;
  Namespace : option string;
  MetricName : option string;
  color : value;
  Unit : value;
  thickness : value;
  dashed : bool;
  Dimensions : value;
  datapoints : list Datapoint
}.

(** The state the constructor [AwsCloudWatchChartMetric] leaves. *)
Definition AwsCloudWatchChartMetric : Metric := {|
  title := None;
  statistic := VStr "Average";
  Namespace := None;
  MetricName := None;
  color := VStr "FF0000";
  Unit := VUndef;
  thickness := VStr "1";
  dashed := false;
  Dimensions := VArr [];
  datapoints := []
|}.

(** The assignment the [switch] of [addMetric] makes for the property [k]
    of value [v]; an unknown name throws. *)
Definition assign_param (m : Metric) (k : string) (v : value) : outcome Metric :=
  let k' := toLowerCase k in
  if String.eqb k' "title" then
    Returned {| title := Some ("" +:+ ToString v); statistic := statistic m;
                Namespace := Namespace m; MetricName := MetricName m;
                color := color m; Unit := Unit m; thickness := thickness m;
                dashed := dashed m; Dimensions := Dimensions m;
                datapoints := datapoints m |}
  else if String.eqb k' "statistic" then
    Returned {| title := title m; statistic := v;
                Namespace := Namespace m; MetricName := MetricName m;
                color := color m; Unit := Unit m; thickness := thickness m;
                dashed := dashed m; Dimensions := Dimensions m;
                datapoints := datapoints m |}
  else if String.eqb k' "namespace" then
    Returned {| title := title m; statistic := statistic m;
                Namespace := Some ("" +:+ ToString v); MetricName := MetricName m;
                color := color m; Unit := Unit m; thickness := thickness m;
                dashed := dashed m; Dimensions := Dimensions m;
                datapoints := datapoints m |}
  else if String.eqb k' "metricname" then
    Returned {| title := title m; statistic := statistic m;
                Namespace := Namespace m; MetricName := Some ("" +:+ ToString v);
                color := color m; Unit := Unit m; thickness := thickness m;
                dashed := dashed m; Dimensions := Dimensions m;
                datapoints := datapoints m |}
  else if String.eqb k' "color" then
    Returned {| title := title m; statistic := statistic m;
                Namespace := Namespace m; MetricName := MetricName m;
                color := v; Unit := Unit m; thickness := thickness m;
                dashed := dashed m; Dimensions := Dimensions m;
                datapoints := datapoints m |}
  else if String.eqb k' "unit" then
    Returned {| title := title m; statistic := statistic m;
                Namespace := Namespace m; MetricName := MetricName m;
                color := color m; Unit := v; thickness := thickness m;
                dashed := dashed m; Dimensions := Dimensions m;
                datapoints := datapoints m |}
  else if String.eqb k' "thickness" then
    Returned {| title := title m; statistic := statistic m;
                Namespace := Namespace m; MetricName := MetricName m;
                color := color m; Unit := Unit m; thickness := parseInt v;
                dashed := dashed m; Dimensions := Dimensions m;
                datapoints := datapoints m |}
  else if String.eqb k' "dashed" then
    Returned {| title := title m; statistic := statistic m;
                Namespace := Namespace m; MetricName := MetricName m;
                color := color m; Unit := Unit m; thickness := thickness m;
                dashed := if truthy v then true else false;
                Dimensions := Dimensions m; datapoints := datapoints m |}
  else if String.eqb k' "dimensions" then
    Returned {| title := title m; statistic := statistic m;
                Namespace := Namespace m; MetricName := MetricName m;
                color := color m; Unit := Unit m; thickness := thickness m;
                dashed := dashed m; Dimensions := v;
                datapoints := datapoints m |}
  else Threw (Error ("Unknown parameter: " +:+ k)).

(** [addMetric]: a fresh metric, one assignment per property of [params]
    in turn, then the metric is pushed on [this.metrics]. *)
Definition configure (params : object) : outcome Metric :=
  foldl (fun acc k => m ← acc; assign_param m k (get params k))
        (Returned AwsCloudWatchChartMetric) (map fst params).

Definition addMetric (this_metrics : list Metric) (params : object)
  : outcome (list Metric) :=
  m ← configure params; Returned (this_metrics ++ [m]).

(** [getStatistics], once the response has arrived: every data point of
    the response is pushed on [this.datapoints]. *)
Definition receive (m : Metric) (response : list Datapoint) : Metric :=
  {| title := title m; statistic := statistic m;
     Namespace := Namespace m; MetricName := MetricName m;
     color := color m; Unit := Unit m; thickness := thickness m;
     dashed := dashed m; Dimensions := Dimensions m;
     datapoints := datapoints m ++ response |}.

(** [getTitle]. *)
Definition has_elements (v : value) : outcome bool :=
  match v with
  | VUndef | VNull => Threw (TypeError "Cannot read properties of undefined (reading 'length')")
  | VArr elems => Returned (0 <? Z.of_nat (length elems))
  | VStr s => Returned (0 <? Z.of_nat (String.length s))
  | VBool _ | VNum _ | VNaN => Returned false
  end.

(** [v[0].Value]: the first element of an array is an object; the first
    element of a string is a one-character string, which has no [Value]. *)
Definition first_Value (v : value) : value :=
  match v with
  | VArr (d :: _) => get d "Value"
  | _ => VUndef
  end.

Definition getTitle (this : Metric) : outcome value :=
  match title this with
  | Some s => Returned (VStr s)
  | None =>
      nonempty ← has_elements (Dimensions this);
      if nonempty : bool
      then Returned (or_else (first_Value (Dimensions this)) (VStr ""))
      else Returned (VStr "")
  end.

(** ** The chart: configuration objects, the store, the constructor *)

Definition loc : Type := positive.

(** A configuration object: the [metrics] property, when the object has
    one, and its integer-valued properties by name. *)
Record ConfigObject : Type := {
  metrics_field : option value;
  number_fields : gmap string Z
}.

Definition empty_object : ConfigObject :=
  {| metrics_field := None; number_fields := ∅ |}.

Definition defaultConfig : ConfigObject := {|
  metrics_field := None;
  number_fields :=
    <["timeOffset" := 1440]> (<["timePeriod" := 60]> (<["chartSamples" := 24]>
      (<["width" := 1000]> (<["height" := 250]> ∅))))
|}.

(** The objects the program can reach, by reference. *)
Abbreviation store := (gmap loc ConfigObject).

(** What the caller passes as [config]: a reference to an object, [null],
    or something whose [typeof] is not ['object']. *)
Inductive argument : Type :=
| Ref (l : loc)
| Null
| Primitive.

(** A source of [Object.assign]: the module-level constant or a reference
    that is read when its turn comes; [null] sources are skipped. *)
Inductive source : Type :=
| Const (o : ConfigObject)
| FromRef (l : loc).

Definition read_source (σ : store) (s : source) : option ConfigObject :=
  match s with
  | Const o => Some o
  | FromRef l => σ !! l
  end.

(** Every own property of [src] is written to [tgt]. *)
Definition copy_properties (src tgt : ConfigObject) : ConfigObject := {|
  metrics_field :=
    match metrics_field src with
    | Some v => Some v
    | None => metrics_field tgt
    end;
  number_fields := number_fields src ∪ number_fields tgt
|}.

Definition Object_assign (target : loc) (sources : list source) (σ : store) : store :=
  foldl (fun σ s =>
           match read_source σ s with
           | Some src => alter (copy_properties src) target σ
           | None => σ
           end) σ sources.

(** [o.k] for a numeric property: the number, or [undefined], which every
    numeric operator reads as NaN. *)
Definition read_number (o : ConfigObject) (k : string) : number :=
  match number_fields o !! k with
  | Some n => of_Z n
  | None => NaN
  end.

Definition Array_isArray (v : option value) : bool :=
  match v with
  | Some (VArr _) => true
  | _ => false
  end.

Record Chart : Type := {
  metrics : list Metric;
  config : loc
}.

(** The loop over [this.config.metrics] at the end of the constructor. *)
Definition addMetrics (elems : list object) : outcome (list Metric) :=
  foldl (fun acc params => ms ← acc; addMetric ms params) (Returned []) elems.

Definition AwsCloudWatchChart (cfg : argument) (σ : store) : store * outcome Chart :=
  match cfg with
  | Primitive => (σ, Threw (Error "Must provide config object"))
  | _ =>
      let target := fresh (dom σ) in
      let sources :=
        Const defaultConfig :: match cfg with Ref l => [FromRef l] | _ => [] end in
      let σ' := Object_assign target sources (<[target := empty_object]> σ) in
      let this_config := default empty_object (σ' !! target) in
      let width := read_number this_config "width" in
      let height := read_number this_config "height" in
      let timePeriod := read_number this_config "timePeriod" in
      (σ',
       if negb (Array_isArray (metrics_field this_config)) then
         Threw (Error "config.metrics array required")
       else if (width >? of_Z 1000)%num || (height >? of_Z 1000)%num
               || (height * width >? of_Z 300000)%num then
         Threw (Error "Maximum value for width or height is 1,000. Width x height cannot exceed 300,000.")
       else if (width <? of_Z 1)%num || (height <? of_Z 1)%num then
         Threw (Error "Invalid width and height parameters")
       else if Num.strict_ne (timePeriod mod of_Z 60)%num (of_Z 0) then
         Threw (Error "config.timePeriod should be based on 60")
       else
         match metrics_field this_config with
         | Some (VArr elems) =>
             ms ← addMetrics elems;
             Returned {| metrics := ms; config := target |}
         | _ => Threw (Error "config.metrics array required")
         end)
  end.

(** ** The resampler and the request builder: [getURL] *)

(** *** Date objects *)

(** The [Date] objects of one run, in the order they are created; each
    holds its time value, [None] for an invalid date (NaN).  A reference to
    a date is its index. *)
Abbreviation dates := (list (option Z)).

(** [TimeClip]: what [setTime] stores. *)
Definition TimeClip (t : number) : option Z :=
  match t with
  | Fin q =>
      if Qle_bool (Qabs q) (inject_Z 8640000000000000) then Some (Qtrunc q)
      else None
  | _ => None
  end.

(** The number a date reference stands for in arithmetic and comparisons;
    the initial [false] of [startTime] and [endTime] ([None]) reads as 0. *)
Definition date_number (σ : dates) (i : nat) : number :=
  match σ !! i with
  | Some (Some t) => of_Z t
  | _ => NaN
  end.

Definition ref_number (σ : dates) (r : option nat) : number :=
  match r with
  | Some i => date_number σ i
  | None => of_Z 0
  end.

Definition getUTCHours (t : Z) : Z := (t / 3600000) mod 24.
Definition getUTCMinutes (t : Z) : Z := (t / 60000) mod 60.

(** [("0" + n).slice(-2)]. *)
Definition last_two (s : string) : string :=
  String.substring (String.length s - 2) 2 s.

Definition two_digits (n : Z) : string := last_two ("0" +:+ pretty n).

(** *** The time range of the data *)

(** The first pair of loops: one [Date] per data point, metric by metric;
    [startTime] and [endTime] end as references to the dates created for
    the earliest and the latest point. *)
Definition all_datapoints (ms : list Metric) : list Datapoint :=
  concat (map datapoints ms).

Definition range_step (σ : dates) (se : option nat * option nat) (d : nat)
  : option nat * option nat :=
  let '(startTime, endTime) := se in
  let endTime := match endTime with None => Some d | _ => endTime end in
  let startTime := match startTime with None => Some d | _ => startTime end in
  let endTime :=
    if (date_number σ d >? ref_number σ endTime)%num then Some d else endTime in
  let startTime :=
    if (date_number σ d <? ref_number σ startTime)%num then Some d else startTime in
  (startTime, endTime).

Definition time_range (σ : dates) : option nat * option nat :=
  foldl (range_step σ) (None, None) (seq 0 (length σ)).

(** *** The boundary walk *)

Record TimeLabel : Type := {
  text : string;
  start : Z;
  finish : Z
}.

(** The object pushed on [timeLabels] when the walk stands at time [t] and
    the previous boundary was [p]. *)
Definition label (p t : Z) : TimeLabel := {|
  text := two_digits (getUTCHours t) +:+ ":" +:+ two_digits (getUTCMinutes t);
  start := p;
  finish := t
|}.

(** The [for] loop over [i]: [i] is the very object [startTime] refers to,
    so [setTime] writes to the date store; the loop test reads both [i] and
    [endTime] from it. *)
Fixpoint walk (fuel : nat) (σ : dates) (i : nat) (endTime : option nat)
    (diff : number) (prevTime : option Z) (timeLabels : list TimeLabel)
  : outcome (list TimeLabel) :=
  match fuel with
  | O => OutOfFuel
  | S fuel =>
      if (date_number σ i <=? ref_number σ endTime)%num then
        match σ !! i with
        | Some (Some t) =>
            let timeLabels :=
              match prevTime with
              | Some p => timeLabels ++ [label p t]
              | None => timeLabels
              end in
            walk fuel (<[i := TimeClip (of_Z t + diff)]> σ) i endTime diff
                 (Some t) timeLabels
        | _ => Returned timeLabels
        end
      else Returned timeLabels
  end.

(** *** The reduction of one bucket *)

Record Period : Type := {
  maxInPeriod : Q;
  totalInPeriod : Q;
  totalInPeriodCount : Z
}.

Definition Qlt_bool (x y : Q) : bool := negb (Qle_bool y x).

Definition in_label (tl : TimeLabel) (p : Datapoint) : bool :=
  (start tl <? Timestamp p) && (Timestamp p <=? finish tl).

Definition period_step (tl : TimeLabel) (a : Period) (p : Datapoint) : Period :=
  if in_label tl p then
    let a :=
      match Maximum p with
      | Some x =>
          if Qlt_bool (maxInPeriod a) x
          then {| maxInPeriod := x; totalInPeriod := totalInPeriod a;
                  totalInPeriodCount := totalInPeriodCount a |}
          else a
      | None => a
      end in
    match Average p with
    | Some x =>
        {| maxInPeriod := maxInPeriod a;
           totalInPeriod := (totalInPeriod a + x)%Q;
           totalInPeriodCount := totalInPeriodCount a + 1 |}
    | None => a
    end
  else a.

Definition period (tl : TimeLabel) (points : list Datapoint) : Period :=
  foldl (period_step tl)
        {| maxInPeriod := 0; totalInPeriod := 0; totalInPeriodCount := 0 |}
        points.

Definition averageInPeriod (a : Period) : Q :=
  if 0 <? totalInPeriodCount a
  then (totalInPeriod a / inject_Z (totalInPeriodCount a))%Q
  else totalInPeriod a.

(** The scalar pushed on the data set of metric [m] for the bucket [tl]. *)
Definition toPush (m : Metric) (tl : TimeLabel) : Q :=
  let a := period tl (datapoints m) in
  if loose_eq_word (statistic m) "Maximum" then maxInPeriod a
  else averageInPeriod a.

(** The nested loops over metrics and buckets, threading [absMaxValue]. *)
Definition dataset_step (m : Metric) (st : Q * list Q) (tl : TimeLabel)
  : Q * list Q :=
  let '(absMaxValue, dataset) := st in
  let v := toPush m tl in
  (if Qlt_bool absMaxValue v then v else absMaxValue, dataset ++ [v]).

Definition datasets_step (timeLabels : list TimeLabel)
    (st : Q * list (list Q)) (m : Metric) : Q * list (list Q) :=
  let '(absMaxValue, datasets) := st in
  let '(absMaxValue, dataset) :=
    foldl (dataset_step m) (absMaxValue, []) timeLabels in
  (absMaxValue, datasets ++ [dataset]).

Definition resample (ms : list Metric) (timeLabels : list TimeLabel)
  : Q * list (list Q) :=
  foldl (datasets_step timeLabels) (0%Q, []) ms.

(** *** The whole of [getURL] *)

(** The locals of [getURL] that the URL is assembled from. *)
Record Locals : Type := {
  timeLabels : list TimeLabel;
  labels : list string;
  datasets : list (list Q);
  absMaxValue : Q;
  topEdge : Z;
  datasetsAsStrings : list string;
  titles : list value;
  colors : list value;
  styles : list value
}.

Definition style (m : Metric) : value :=
  if dashed m then VStr (ToString (thickness m) +:+ ",5,5") else thickness m.

Fixpoint getTitles (ms : list Metric) : outcome (list value) :=
  match ms with
  | [] => Returned []
  | m :: rest => t ← getTitle m; ts ← getTitles rest; Returned (t :: ts)
  end.

Definition getURL_locals (fuel : nat) (this_config : ConfigObject)
    (this_metrics : list Metric) : outcome Locals :=
  let σ : dates := map (fun p => Some (Timestamp p)) (all_datapoints this_metrics) in
  let '(startTime, endTime) := time_range σ in
  let diff := (ref_number σ endTime - ref_number σ startTime)%num in
  let diff := (diff / read_number this_config "chartSamples")%num in
  tls ← match startTime with
        | Some i => walk fuel σ i endTime diff None []
        | None =>
            if (of_Z 0 <=? ref_number σ endTime)%num
            then Threw (TypeError "i.getTime is not a function")
            else Returned []
        end;
  let '(absMax, dsets) := resample this_metrics tls in
  let top := Qceiling (absMax * 1.2)%Q in
  ts ← getTitles this_metrics;
  Returned {|
    timeLabels := tls;
    labels := map text tls;
    datasets := dsets;
    absMaxValue := absMax;
    topEdge := top;
    datasetsAsStrings :=
      map (fun dataset => extendedEncode (map Fin dataset) (of_Z top)) dsets;
    titles := ts;
    colors := map color this_metrics;
    styles := map style this_metrics
  |}.

Definition property_text (o : ConfigObject) (k : string) : string :=
  match number_fields o !! k with
  | Some n => pretty n
  | None => "undefined"
  end.

Definition assemble (this_config : ConfigObject) (l : Locals) : string :=
  "http://chart.googleapis.com/chart?" +:+
  "cht=lc&" +:+
  "chxl=0:|" +:+ join "|" (labels l) +:+ "&" +:+
  "chxt=x,y&" +:+
  "chco=" +:+ join_values "," (colors l) +:+ "&" +:+
  "chls=" +:+ join_values "|" (styles l) +:+ "&" +:+
  "chs=" +:+ property_text this_config "width" +:+ "x" +:+
             property_text this_config "height" +:+ "&" +:+
  "chxr=1,0," +:+ pretty (topEdge l) +:+ ",10&" +:+
  "chg=20,10,1,5&" +:+
  "chdl=" +:+ join_values "|" (titles l) +:+ "&" +:+
  "chd=e:" +:+ join "," (datasetsAsStrings l).

(** [getURL] of a chart whose configuration object is in the store. *)
Definition getURL (fuel : nat) (σ : store) (this : Chart) : outcome string :=
  let this_config := default empty_object (σ !! config this) in
  l ← getURL_locals fuel this_config (metrics this);
  Returned (assemble this_config l).

(** ** The specification's vocabulary *)

(** The data points of a bucket: [bucketStart < t <= bucketEnd]. *)
Definition selected (tl : TimeLabel) (points : list Datapoint) : list Datapoint :=
  filter (fun p => start tl < Timestamp p <= finish tl) points.

(** The largest of [d] and the elements of a list; the largest element of
    a list, [d] when the list is empty; the sum and the mean of a list. *)
Definition largest_with (d : Q) (l : list Q) : Q := foldr Qmax d l.

Definition largest_or (d : Q) (l : list Q) : Q :=
  match l with
  | [] => d
  | x :: rest => foldr Qmax x rest
  end.

Definition Qsum (l : list Q) : Q := foldr Qplus 0%Q l.


(** The bucket scalars of a run, metric by metric and bucket by bucket. *)
Definition bucket_scalars (ms : list Metric) (tls : list TimeLabel) : list (list Q) :=
  map (fun m => map (toPush m) tls) ms.



(** [getChart], once every response has arrived: each metric receives the
    data points of its own response. *)
Definition getChart (this : Chart) (responses : list (list Datapoint)) : Chart :=
  {| metrics := zip_with receive (metrics this) responses;
     config := config this |}.

(** ** Sample runs *)

Definition point (t : Z) (maximum average : option Q) : Datapoint :=
  {| Timestamp := t; Maximum := maximum; Average := average |}.

(** A configuration with one CPU metric and [n] samples, at location 1 of
    an otherwise empty store, and the chart constructed from it. *)
Definition sample_config (n : Z) : ConfigObject := {|
  metrics_field :=
    Some (VArr [[("namespace", VStr "AWS/EC2");
                 ("metricName", VStr "CPUUtilization");
                 ("statistic", VStr "Average")]]);
  number_fields := <["chartSamples" := n]> ∅
|}.

Definition sample_store (n : Z) : store := <[1%positive := sample_config n]> ∅.

Definition sample_chart (n : Z) (response : list Datapoint) : store * outcome Chart :=
  let '(σ, r) := AwsCloudWatchChart (Ref 1%positive) (sample_store n) in
  (σ, this ← r; Returned (getChart this [response])).

(** [getURL] of the sample chart. *)
Definition sample_run (fuel : nat) (n : Z) (response : list Datapoint) : outcome string :=
  let '(σ, r) := sample_chart n response in
  this ← r; getURL fuel σ this.

Definition sample_locals (fuel : nat) (n : Z) (response : list Datapoint)
  : outcome Locals :=
  let '(σ, r) := sample_chart n response in
  this ← r;
  getURL_locals fuel (default empty_object (σ !! config this)) (metrics this).



(** The code of a bucket scalar when the ceiling is zero. *)
Definition zero_ceiling_code (v : Q) : string :=
  if Qlt_bool v 0 then "__" else "AA".

Fixpoint zero_ceiling_codes (dataset : list Q) : string :=
  match dataset with
  | [] => ""
  | v :: rest => zero_ceiling_code v +:+ zero_ceiling_codes rest
  end.

Definition is_TypeError (e : exn) : Prop :=
  match e with
  | TypeError _ => True
  | Error _ => False
  end.

(** ** The specification's vocabulary for configurations *)

(** The field names [addMetric] knows, in lower case. *)
Definition recognized : list string :=
  ["title"; "statistic"; "namespace"; "metricname"; "color"; "unit";
   "thickness"; "dashed"; "dimensions"].

Definition unrecognized_field (params : object) : Prop :=
  exists k : string, k ∈ map fst params /\ toLowerCase k ∉ recognized.

(** The value of a numeric setting: the caller's, or else the default. *)
Definition setting (c : ConfigObject) (k : string) : Z :=
  match number_fields c !! k with
  | Some n => n
  | None => default 0 (number_fields defaultConfig !! k)
  end.

(** What makes a configuration invalid, apart from the time period. *)
Definition invalid_shape (c : ConfigObject) : Prop :=
  Array_isArray (metrics_field c) = false
  \/ 1000 < setting c "width" \/ 1000 < setting c "height"
  \/ 300000 < setting c "height" * setting c "width"
  \/ setting c "width" < 1 \/ setting c "height" < 1
  \/ exists elems : list object,
       metrics_field c = Some (VArr elems)
       /\ exists params : object, params ∈ elems /\ unrecognized_field params.

(** Invalid as the claim words it: the period is not a positive multiple of
    60; and invalid as the constructor checks it: the remainder of the
    period by 60 is not zero. *)
Definition invalid_as_claimed (c : ConfigObject) : Prop :=
  invalid_shape c
  \/ ~ (0 < setting c "timePeriod" /\ (setting c "timePeriod") mod 60 = 0).

Definition invalid (c : ConfigObject) : Prop :=
  invalid_shape c \/ Z.rem (setting c "timePeriod") 60 <> 0.

(** The chart's effective configuration for the caller's object [c]. *)
Definition effective (c : ConfigObject) : ConfigObject :=
  copy_properties c (copy_properties defaultConfig empty_object).

(** A configuration whose period is zero. *)
Definition zero_period_config : ConfigObject := {|
  metrics_field := Some (VArr [[("metricName", VStr "CPUUtilization")]]);
  number_fields := <["timePeriod" := 0]> ∅
|}.

(** The buckets of a walk that starts at [t], has just left the boundary
    [p], steps by [s] and pushes [n] labels. *)
Fixpoint chain (p t s : Z) (n : nat) : list TimeLabel :=
  match n with
  | O => []
  | S n => label p t :: chain t (t + s) s n
  end.

(** The largest time value a [Date] can hold, and half of it. *)
Definition maxTime : Z := 8640000000000000.
Definition halfMaxTime : Z := 4320000000000000.

(** ** Vocabulary for the remaining properties *)

(** A data point is counted in some bucket of a run. *)
Definition counted (tls : list TimeLabel) (p : Datapoint) : Prop :=
  exists tl : TimeLabel, tl ∈ tls /\ in_label tl p = true.

(** The position of a character in [EXTENDED_MAP], and the integer a pair of
    characters of the map stands for. *)
Definition position (c : ascii) : option Z :=
  Z.of_nat <$> String.index 0 (String c "") EXTENDED_MAP.

Definition decode_pair (pair : string) : option Z :=
  match pair with
  | String a (String b EmptyString) =>
      match position a, position b with
      | Some x, Some y => Some (x * 64 + y)
      | _, _ => None
      end
  | _ => None
  end.

(** A metric with the three half-hourly points used in the sample runs. *)
Definition sample_metric : Metric :=
  receive AwsCloudWatchChartMetric
    [point 0 (Some 4%Q) (Some 1%Q); point 1800000 (Some 5%Q) (Some 2%Q);
     point 3600000 (Some 6%Q) (Some 3%Q)].

(** The first field name of a metric configuration that [addMetric] does
    not know, and the first such name over the metrics of a chart. *)
Definition is_recognized (k : string) : bool :=
  bool_decide (toLowerCase k ∈ recognized).

Definition first_unknown (params : object) : option string :=
  find (fun k => negb (is_recognized k)) (map fst params).

Fixpoint first_unknown_parameter (elems : list object) : option string :=
  match elems with
  | [] => None
  | params :: rest =>
      match first_unknown params with
      | Some k => Some k
      | None => first_unknown_parameter rest
      end
  end.

(** The message of the error the constructor raises for the caller's
    configuration object [c], if any, by order of precedence. *)
Definition rejection (c : ConfigObject) : option string :=
  let w := setting c "width" in
  let h := setting c "height" in
  if negb (Array_isArray (metrics_field c)) then
    Some "config.metrics array required"
  else if (1000 <? w) || (1000 <? h) || (300000 <? h * w) then
    Some "Maximum value for width or height is 1,000. Width x height cannot exceed 300,000."
  else if (w <? 1) || (h <? 1) then
    Some "Invalid width and height parameters"
  else if negb (Z.rem (setting c "timePeriod") 60 =? 0) then
    Some "config.timePeriod should be based on 60"
  else
    match metrics_field c with
    | Some (VArr elems) =>
        match first_unknown_parameter elems with
        | Some k => Some ("Unknown parameter: " +:+ k)
        | None => None
        end
    | _ => None
    end.

(** ** The text of a label *)

(** The character of a decimal digit, and the five characters [HH:MM] of
    an hour and a minute, each padded with a zero to two digits. *)
Definition digit (d : Z) : ascii := pretty_N_char (Z.to_N d).

Definition clock (h m : Z) : string :=
  String (digit (h / 10)) (String (digit (h mod 10))
    (String ":" (String (digit (m / 10)) (String (digit (m mod 10)) "")))).

Definition day : Z := 86400000.

(** ** The order of the data points *)

(** The metric [m] holding the data points [pts] instead of its own, and
    two metrics that differ only in the order of their data points. *)
Definition with_datapoints (m : Metric) (pts : list Datapoint) : Metric :=
  {| title := title m; statistic := statistic m;
     Namespace := Namespace m; MetricName := MetricName m;
     color := color m; Unit := Unit m; thickness := thickness m;
     dashed := dashed m; Dimensions := Dimensions m;
     datapoints := pts |}.

Definition reordered (m m' : Metric) : Prop :=
  datapoints m ≡ₚ datapoints m' /\ m' = with_datapoints m (datapoints m').

(** ** The same response twice *)

(** A metric whose data points are those of [m], each of them twice. *)
Definition doubled (m m' : Metric) : Prop :=
  m' = with_datapoints m (datapoints m ++ datapoints m).

(** ** The fields [addMetric] fills *)

(** The field of a metric that the parameter of lower-case name [f] is
    assigned to, read as a value, and what the [switch] does to the
    parameter's value before the assignment. *)
Definition stored (f : string) (m : Metric) : value :=
  if String.eqb f "title" then from_option VStr VUndef (title m)
  else if String.eqb f "statistic" then statistic m
  else if String.eqb f "namespace" then from_option VStr VUndef (Namespace m)
  else if String.eqb f "metricname" then from_option VStr VUndef (MetricName m)
  else if String.eqb f "color" then color m
  else if String.eqb f "unit" then Unit m
  else if String.eqb f "thickness" then thickness m
  else if String.eqb f "dashed" then VBool (dashed m)
  else if String.eqb f "dimensions" then Dimensions m
  else VUndef.

Definition conversion (f : string) (v : value) : value :=
  if String.eqb f "title" || String.eqb f "namespace" || String.eqb f "metricname"
  then VStr ("" +:+ ToString v)
  else if String.eqb f "thickness" then parseInt v
  else if String.eqb f "dashed" then VBool (truthy v)
  else v.

(** A metric of statistic [Maximum] as [addMetric] leaves it, a chart with
    that metric and no data yet, and one response for it. *)
Definition maximum_metric : Metric :=
  {| title := None; statistic := VStr "Maximum";
     Namespace := None; MetricName := None;
     color := VStr "FF0000"; Unit := VUndef; thickness := VStr "1";
     dashed := false; Dimensions := VArr []; datapoints := [] |}.

Definition sample_fresh_chart : Chart :=
  {| metrics := [maximum_metric]; config := 1%positive |}.

Definition sample_responses : list (list Datapoint) :=
  [[point 0 (Some 4%Q) (Some 1%Q); point 3600000 (Some 6%Q) (Some 3%Q)]].
(** *** Facts about the number model *)

Lemma lt_of_Z (a b : Z) : (of_Z a <? of_Z b)%num = (a <? b).
Proof.
  unfold Num.lt, of_Z, Qle_bool; simpl.
  rewrite !Z.mul_1_r, Z.ltb_antisym. reflexivity.
Qed.

Lemma gt_of_Z (a b : Z) : (of_Z a >? of_Z b)%num = (b <? a).
Proof. unfold Num.gt. apply lt_of_Z. Qed.

Lemma Qtrunc_comp (x y : Q) : x == y -> Qtrunc x = Qtrunc y.
Proof.
  intros E. unfold Qtrunc.
  rewrite (Qleb_comp 0%Q 0%Q (Qeq_refl 0%Q) x y E).
  destruct (Qle_bool 0 y); [apply Qfloor_comp | apply Qceiling_comp]; exact E.
Qed.

Lemma Qtrunc_Z (z : Z) : Qtrunc (inject_Z z) = z.
Proof.
  unfold Qtrunc. destruct (Qle_bool 0 (inject_Z z));
    [apply Qfloor_Z | apply Qceiling_Z].
Qed.

Lemma EXTENDED_MAP_LENGTH_64 : EXTENDED_MAP_LENGTH = of_Z 64.
Proof. reflexivity. Qed.

Lemma quotient_of_Z (z : Z) : quotient (of_Z z) = of_Z (z / 64).
Proof.
  unfold quotient. rewrite EXTENDED_MAP_LENGTH_64.
  unfold of_Z at 1 2, Num.div.
  change (Qeq_bool (inject_Z 64) 0) with false. cbv iota.
  unfold Num.floor. rewrite <- Zdiv_Qdiv. reflexivity.
Qed.

Lemma remainder_of_Z (z : Z) :
  exists r : Q, remainder (of_Z z) = Fin r /\ r == inject_Z (z mod 64).
Proof.
  unfold remainder. rewrite quotient_of_Z, EXTENDED_MAP_LENGTH_64.
  eexists; split; [reflexivity|].
  rewrite (Z.mod_eq z 64) by lia.
  unfold Zminus. rewrite inject_Z_plus, inject_Z_opp, inject_Z_mult.
  reflexivity.
Qed.

(** [Math.floor] of the scaling expression is an integer, an infinity or
    NaN, whatever the operands are. *)
Lemma floor_shape (a : number) :
  (exists z, Num.floor a = of_Z z) \/ Num.floor a = PInf
  \/ Num.floor a = NInf \/ Num.floor a = NaN.
Proof. destruct a; simpl; eauto. Qed.

Lemma charAt_EXTENDED_MAP (pos : number) (k : Z) :
  to_integer pos = Some k -> 0 <= k < 64 ->
  charAt EXTENDED_MAP pos = String (alphabet k) "".
Proof.
  intros Hpos Hk. unfold charAt. rewrite Hpos.
  assert (exists n : nat, k = Z.of_nat n /\ (n < 64)%nat) as (n & -> & Hn).
  { exists (Z.to_nat k). lia. }
  do 64 (destruct n as [|n]; [reflexivity|]). lia.
Qed.

Lemma encodeValue_of_scaled (maxVal v : number) :
  match scaledVal v maxVal with
  | Fin q => exists z, q = inject_Z z /\
      encodeValue maxVal v =
        if 4095 <? z then ".." else if z <? 0 then "__" else digit_pair z
  | PInf => encodeValue maxVal v = ".."
  | NInf => encodeValue maxVal v = "__"
  | NaN => encodeValue maxVal v = "AA"
  end.
Proof.
  unfold encodeValue.
  change (EXTENDED_MAP_LENGTH * EXTENDED_MAP_LENGTH - of_Z 1)%num with (of_Z 4095).
  unfold scaledVal.
  destruct (floor_shape (EXTENDED_MAP_LENGTH * EXTENDED_MAP_LENGTH * v / maxVal)%num)
    as [[z ->] | [-> | [-> | ->]]]; try reflexivity.
  unfold of_Z at 1. exists z; split; [reflexivity|].
  fold (of_Z z). rewrite gt_of_Z, lt_of_Z.
  destruct (4095 <? z) eqn:Hhi; [reflexivity|].
  destruct (z <? 0) eqn:Hlo; [reflexivity|].
  apply Z.ltb_ge in Hhi, Hlo.
  destruct (remainder_of_Z z) as (r & Hr & Er).
  rewrite (charAt_EXTENDED_MAP (quotient (of_Z z)) (z / 64)),
          (charAt_EXTENDED_MAP (remainder (of_Z z)) (z mod 64)).
  - reflexivity.
  - rewrite Hr; simpl. rewrite (Qtrunc_comp _ _ Er), Qtrunc_Z. reflexivity.
  - pose proof (Z.mod_pos_bound z 64); lia.
  - rewrite quotient_of_Z. simpl. rewrite Qtrunc_Z. reflexivity.
  - split; [apply Z.div_pos; lia | apply Z.div_lt_upper_bound; lia].
Qed.

(** *** Strings *)

Lemma append_cons (a : ascii) (s t : string) :
  String a s +:+ t = String a (s +:+ t).
Proof. reflexivity. Qed.

Lemma append_assoc (s t u : string) : (s +:+ t) +:+ u = s +:+ (t +:+ u).
Proof.
  induction s as [|a s IH]; [reflexivity|].
  rewrite !append_cons, IH. reflexivity.
Qed.

Lemma append_empty_r (s : string) : s +:+ "" = s.
Proof.
  induction s as [|a s IH]; [reflexivity|].
  rewrite append_cons, IH. reflexivity.
Qed.

Lemma length_append (s t : string) :
  String.length (s +:+ t) = (String.length s + String.length t)%nat.
Proof.
  induction s as [|a s IH]; [reflexivity|].
  rewrite append_cons. simpl. rewrite IH. reflexivity.
Qed.

(** *** The encoder, value by value *)

Lemma extendedEncode_from (maxVal : number) (arrVals : list number) (s : string) :
  foldl (fun chartData v => chartData +:+ encodeValue maxVal v) s arrVals
  = s +:+ codes maxVal arrVals.
Proof.
  revert s. induction arrVals as [|v rest IH]; intros s; simpl.
  - symmetry. apply append_empty_r.
  - rewrite IH. apply append_assoc.
Qed.

Lemma extendedEncode_codes (arrVals : list number) (maxVal : number) :
  extendedEncode arrVals maxVal = codes maxVal arrVals.
Proof. unfold extendedEncode. rewrite extendedEncode_from. reflexivity. Qed.

Lemma encodeValue_two (maxVal v : number) :
  exists a b : ascii, encodeValue maxVal v = String a (String b "").
Proof.
  pose proof (encodeValue_of_scaled maxVal v) as H.
  destruct (scaledVal v maxVal); [destruct H as (z & _ & ->)| | |]; try (rewrite H);
    try (eexists _, _; reflexivity).
  destruct (4095 <? z); [eexists _, _; reflexivity|].
  destruct (z <? 0); eexists _, _; reflexivity.
Qed.

Lemma length_codes (maxVal : number) (arrVals : list number) :
  String.length (codes maxVal arrVals) = (2 * length arrVals)%nat.
Proof.
  induction arrVals as [|v rest IH]; [reflexivity|].
  destruct (encodeValue_two maxVal v) as (a & b & E).
  simpl codes. rewrite length_append, E, IH. simpl. lia.
Qed.

Lemma substring_codes (maxVal : number) (arrVals : list number) (i : nat) (v : number) :
  arrVals !! i = Some v ->
  String.substring (2 * i) 2 (codes maxVal arrVals) = encodeValue maxVal v.
Proof.
  revert i. induction arrVals as [|w rest IH]; intros i Hi; [discriminate|].
  destruct (encodeValue_two maxVal w) as (a & b & E).
  simpl codes. rewrite E, !append_cons.
  change ("" +:+ codes maxVal rest) with (codes maxVal rest).
  destruct i as [|i]; simpl in Hi.
  - injection Hi as ->. rewrite E. clear IH. simpl.
    destruct (codes maxVal rest); reflexivity.
  - replace (2 * S i)%nat with (S (S (2 * i))) by lia.
    simpl String.substring. apply IH, Hi.
Qed.

Lemma scaledVal_scaled_integer (v maxVal : number) :
  scaledVal v maxVal = scaled_integer v maxVal.
Proof. reflexivity. Qed.

(** C2. For every input sequence and every [maxVal], [extendedEncode] turns
    each input value into exactly two characters, so the output is twice as
    long as the input.  The two characters of the value at index [i] are
    [".."] when its scaled integer [floor(4096 * value / maxVal)] exceeds
    4095, ["__"] when the scaled integer is negative, and otherwise
    [alphabet[scaled div 64]] followed by [alphabet[scaled mod 64]] over the
    alphabet A–Z, a–z, 0–9, [-], [.]. *)
Theorem extendedEncode_two_characters_per_value
    (arrVals : list number) (maxVal : number) :
  String.length (extendedEncode arrVals maxVal) = (2 * length arrVals)%nat
  /\ forall (i : nat) (v : number),
       arrVals !! i = Some v ->
       let pair := String.substring (2 * i) 2 (extendedEncode arrVals maxVal) in
       String.length pair = 2%nat
       /\ ((scaled_integer v maxVal >? of_Z 4095)%num = true -> pair = "..")
       /\ ((scaled_integer v maxVal <? of_Z 0)%num = true -> pair = "__")
       /\ (forall z : Z, scaled_integer v maxVal = of_Z z ->
             0 <= z <= 4095 -> pair = digit_pair z).
Proof.
  rewrite extendedEncode_codes. split; [apply length_codes|].
  intros i v Hi pair. subst pair. rewrite (substring_codes _ _ _ _ Hi).
  pose proof (encodeValue_of_scaled maxVal v) as H.
  rewrite scaledVal_scaled_integer in H.
  split; [|split; [|split]].
  - destruct (encodeValue_two maxVal v) as (a & b & ->). reflexivity.
  - intros Hgt. destruct (scaled_integer v maxVal) as [q| | |];
      try discriminate; [|exact H].
    destruct H as (z & -> & ->). fold (of_Z z) in Hgt.
    rewrite gt_of_Z in Hgt. rewrite Hgt. reflexivity.
  - intros Hlt. destruct (scaled_integer v maxVal) as [q| | |];
      try discriminate; [|exact H].
    destruct H as (z & -> & ->). fold (of_Z z) in Hlt.
    rewrite lt_of_Z in Hlt. rewrite Hlt.
    destruct (4095 <? z) eqn:E; [apply Z.ltb_lt in E, Hlt; lia | reflexivity].
  - intros z Hz Hr. rewrite Hz in H. destruct H as (z' & Hz' & ->).
    apply (f_equal Qfloor) in Hz'. rewrite !Qfloor_Z in Hz'. subst z'.
    destruct (4095 <? z) eqn:E1; [apply Z.ltb_lt in E1; lia|].
    destruct (z <? 0) eqn:E2; [apply Z.ltb_lt in E2; lia|]. reflexivity.
Qed.

(** *** Precision of the encoding *)

Lemma Qeq_bool_pos (M : Q) : (0 < M)%Q -> Qeq_bool M 0 = false.
Proof.
  intros HM. destruct (Qeq_bool M 0) eqn:E; [|reflexivity].
  apply Qeq_bool_eq in E. rewrite E in HM. exfalso. revert HM. apply Qlt_irrefl.
Qed.

Lemma scaledVal_finite (v M : Q) :
  (0 < M)%Q -> scaledVal (Fin v) (Fin M) = of_Z (Qfloor (4096 * v / M)).
Proof.
  intros HM. unfold scaledVal.
  change (EXTENDED_MAP_LENGTH * EXTENDED_MAP_LENGTH)%num with (of_Z 4096).
  unfold of_Z at 1. unfold Num.mul, Num.div.
  rewrite (Qeq_bool_pos M HM). reflexivity.
Qed.

Lemma floor_bracket (v M : Q) (z : Z) :
  (0 < M)%Q -> z = Qfloor (4096 * v / M) ->
  (inject_Z z * M <= 4096 * v)%Q /\ (4096 * v < (inject_Z z + 1) * M)%Q.
Proof.
  intros HM ->.
  assert (HM0 : ~ M == 0) by (intros E; rewrite E in HM; revert HM; apply Qlt_irrefl).
  pose proof (Qfloor_le (4096 * v / M)) as Hlo.
  pose proof (Qlt_floor (4096 * v / M)) as Hhi.
  rewrite inject_Z_plus in Hhi.
  set (x := (4096 * v / M)%Q) in *.
  assert (Ex : (x * M == 4096 * v)%Q) by (unfold x; field; exact HM0).
  rewrite <- Ex. split.
  - apply Qmult_le_compat_r; [exact Hlo | apply Qlt_le_weak, HM].
  - apply Qmult_lt_compat_r; [exact HM | exact Hhi].
Qed.

(** C3. Round-trip accuracy of the encoder: for [maxVal = M > 0] and a
    value [v] with [0 <= v <= M], what [extendedEncode] writes for [v] is
    two characters of the alphabet, [alphabet[q]] and [alphabet[r]] with
    [q] and [r] between 0 and 63; when the scaled integer is at most 4095
    they are its quotient and its remainder by 64; and the decoded value
    [(q*64 + r)/4096 * M] differs from [v] by at most [M/4096].  (For
    [v = M] the marker [..] is written, which reads as the digits 63, 63,
    and the bound still holds.) *)
Theorem extendedEncode_round_trip (M v : Q) :
  (0 < M)%Q -> (0 <= v)%Q -> (v <= M)%Q ->
  exists q r : Z,
    0 <= q <= 63 /\ 0 <= r <= 63
    /\ extendedEncode [Fin v] (Fin M) = String (alphabet q) (String (alphabet r) "")
    /\ (forall z : Z, scaledVal (Fin v) (Fin M) = of_Z z -> z <= 4095 ->
          q = z / 64 /\ r = z mod 64)
    /\ (Qabs (decoded (inject_Z q) (inject_Z r) M - v) <= M / 4096)%Q.
Proof.
  intros HM Hv0 HvM.
  pose proof (scaledVal_finite v M HM) as Es.
  set (z := Qfloor (4096 * v / M)) in *.
  destruct (floor_bracket v M z HM eq_refl) as [Hlo Hhi].
  assert (Hz0 : 0 <= z).
  { apply Z.nlt_ge. intros Hneg.
    assert (inject_Z z + 1 <= 0)%Q as Hz1.
    { change 0%Q with (inject_Z 0). change 1%Q with (inject_Z 1).
      rewrite <- inject_Z_plus, <- Zle_Qle. lia. }
    pose proof (Qmult_le_compat_r _ _ M Hz1 (Qlt_le_weak _ _ HM)) as Hle.
    rewrite Qmult_0_l in Hle. lra. }
  assert (Hz1 : z <= 4096).
  { apply Z.nlt_ge. intros Hbig.
    assert (4097 <= inject_Z z)%Q as Hz.
    { change 4097%Q with (inject_Z 4097). rewrite <- Zle_Qle. lia. }
    assert (4097 * M <= inject_Z z * M)%Q as Hle; [|lra].
    apply Qmult_le_compat_r; [exact Hz | apply Qlt_le_weak, HM]. }
  set (zc := Z.min z 4095).
  assert (Hzc : 0 <= zc <= 4095) by (unfold zc; lia).
  exists (zc / 64), (zc mod 64).
  split.
  { assert (zc / 64 < 64) by (apply Z.div_lt_upper_bound; lia).
    assert (0 <= zc / 64) by (apply Z.div_pos; lia). lia. }
  split; [pose proof (Z.mod_pos_bound zc 64 ltac:(lia)); lia|].
  split; [|split].
  - unfold extendedEncode. simpl foldl.
    change ("" +:+ encodeValue (Fin M) (Fin v)) with (encodeValue (Fin M) (Fin v)).
    pose proof (encodeValue_of_scaled (Fin M) (Fin v)) as H.
    rewrite Es in H. unfold of_Z in H. destruct H as (z' & Ez & ->).
    apply (f_equal Qnum) in Ez. simpl in Ez. subst z'.
    replace (z <? 0) with false by (symmetry; apply Z.ltb_ge; lia).
    destruct (4095 <? z) eqn:E; [apply Z.ltb_lt in E | apply Z.ltb_ge in E].
    + assert (zc = 4095) as -> by (unfold zc; lia). reflexivity.
    + assert (zc = z) as -> by (unfold zc; lia). reflexivity.
  - intros z' Ez' Hz'. rewrite Es in Ez'. unfold of_Z in Ez'.
    assert (z = z') as <-.
    { assert (Fin (inject_Z z) = Fin (inject_Z z')) as E by exact Ez'.
      assert (inject_Z z = inject_Z z') as E' by congruence.
      apply (f_equal Qnum) in E'. exact E'. }
    assert (zc = z) as -> by (unfold zc; lia). split; reflexivity.
  - assert (Ed : (decoded (inject_Z (zc / 64)) (inject_Z (zc mod 64)) M
                  == inject_Z zc * M / 4096)%Q).
    { unfold decoded.
      assert (Ez : (inject_Z (zc / 64) * 64 + inject_Z (zc mod 64) == inject_Z zc)%Q).
      { rewrite (Z.div_mod zc 64) at 3 by lia.
        rewrite inject_Z_plus, inject_Z_mult. ring. }
      rewrite Ez. field. }
    rewrite Ed. apply Qabs_Qle_condition.
    destruct (Z.le_gt_cases z 4095) as [Hsmall | Hbig].
    + assert (zc = z) as -> by (unfold zc; lia).
      set (p := (inject_Z z * M)%Q) in *.
      assert (Ep : ((inject_Z z + 1) * M == p + M)%Q) by (unfold p; ring).
      rewrite Ep in Hhi. unfold Qdiv. change (/ 4096)%Q with (1 # 4096)%Q.
      split; lra.
    + assert (z = 4096) as Ez by lia. assert (zc = 4095) as -> by (unfold zc; lia).
      rewrite Ez in Hlo. change (inject_Z 4096) with 4096%Q in Hlo.
      change (inject_Z 4095) with 4095%Q.
      unfold Qdiv. change (/ 4096)%Q with (1 # 4096)%Q.
      split; lra.
Qed.

Lemma extendedEncode_round_trip_witness :
  exists q r : Z,
    0 <= q <= 63 /\ 0 <= r <= 63
    /\ extendedEncode [Fin 3] (Fin 4) = String (alphabet q) (String (alphabet r) "")
    /\ (forall z : Z, scaledVal (Fin 3) (Fin 4) = of_Z z -> z <= 4095 ->
          q = z / 64 /\ r = z mod 64)
    /\ (Qabs (decoded (inject_Z q) (inject_Z r) 4 - 3) <= 4 / 4096)%Q.
Proof.
  apply (extendedEncode_round_trip 4 3); [reflexivity | discriminate | discriminate].
Defined.

(** ** The reduction of a bucket *)

Lemma in_label_iff (tl : TimeLabel) (p : Datapoint) :
  in_label tl p = true <-> start tl < Timestamp p <= finish tl.
Proof.
  unfold in_label. rewrite andb_true_iff, Z.ltb_lt, Z.leb_le. reflexivity.
Qed.

Lemma Qlt_bool_iff (x y : Q) : Qlt_bool x y = true <-> (x < y)%Q.
Proof.
  unfold Qlt_bool. rewrite negb_true_iff. split.
  - intros H. apply Qnot_le_lt. intros Hle.
    apply Qle_bool_iff in Hle. congruence.
  - intros H. destruct (Qle_bool y x) eqn:E; [|reflexivity].
    apply Qle_bool_iff in E. exfalso. exact (Qlt_not_le _ _ H E).
Qed.

Lemma Qlt_bool_max (x y : Q) : ((if Qlt_bool x y then y else x) == Qmax x y)%Q.
Proof.
  destruct (Qlt_bool x y) eqn:E.
  - apply Qlt_bool_iff in E. symmetry. apply Q.max_r, Qlt_le_weak, E.
  - symmetry. apply Q.max_l. apply Qnot_lt_le. intros H.
    apply Qlt_bool_iff in H. congruence.
Qed.

Lemma largest_with_comp (d d' : Q) (l : list Q) :
  (d == d')%Q -> (largest_with d l == largest_with d' l)%Q.
Proof.
  intros E. induction l as [|x l IH]; simpl; [exact E|].
  apply Q.max_compat; [reflexivity | exact IH].
Qed.

Lemma largest_with_shift (d x : Q) (l : list Q) :
  (largest_with (Qmax d x) l == Qmax x (largest_with d l))%Q.
Proof.
  induction l as [|y l IH]; simpl.
  - apply Q.max_comm.
  - rewrite IH, !Q.max_assoc, (Q.max_comm y x). reflexivity.
Qed.

Lemma largest_with_ge (d : Q) (l : list Q) : (d <= largest_with d l)%Q.
Proof.
  induction l as [|y l IH]; simpl; [apply Qle_refl|].
  apply Q.max_le_iff. right. exact IH.
Qed.

Lemma largest_with_upper (d : Q) (l : list Q) (x : Q) :
  x ∈ l -> (x <= largest_with d l)%Q.
Proof.
  induction l as [|y l IH]; intros Hx; [inversion Hx|].
  apply elem_of_cons in Hx as [-> | Hx]; simpl; apply Q.max_le_iff.
  - left. apply Qle_refl.
  - right. apply IH, Hx.
Qed.

Lemma largest_with_absorb (d : Q) (l : list Q) :
  (forall x, x ∈ l -> (x <= d)%Q) -> (largest_with d l == d)%Q.
Proof.
  induction l as [|x l IH]; intros H; simpl; [reflexivity|].
  rewrite IH by (intros y Hy; apply H; right; exact Hy).
  apply Q.max_r. apply H. left.
Qed.

Lemma period_step_out (tl : TimeLabel) (a : Period) (p : Datapoint) :
  in_label tl p = false -> period_step tl a p = a.
Proof. intros H. unfold period_step. rewrite H. reflexivity. Qed.

Lemma period_step_in (tl : TimeLabel) (a : Period) (p : Datapoint) :
  in_label tl p = true ->
  (maxInPeriod (period_step tl a p)
   == match Maximum p with
      | Some x => Qmax (maxInPeriod a) x
      | None => maxInPeriod a
      end)%Q
  /\ totalInPeriod (period_step tl a p)
     = match Average p with
       | Some y => (totalInPeriod a + y)%Q
       | None => totalInPeriod a
       end
  /\ totalInPeriodCount (period_step tl a p)
     = match Average p with
       | Some _ => totalInPeriodCount a + 1
       | None => totalInPeriodCount a
       end.
Proof.
  intros H. unfold period_step. rewrite H.
  destruct (Maximum p) as [x|], (Average p) as [y|]; simpl;
    try (pose proof (Qlt_bool_max (maxInPeriod a) x) as HM;
         destruct (Qlt_bool (maxInPeriod a) x); simpl);
    repeat split; try reflexivity; try exact HM.
Qed.

(** The state of the inner loop after any prefix of the data points. *)
Lemma period_from (tl : TimeLabel) (points : list Datapoint) (a0 : Period) :
  let a := foldl (period_step tl) a0 points in
  let sel := selected tl points in
  (maxInPeriod a == largest_with (maxInPeriod a0) (omap Maximum sel))%Q
  /\ (totalInPeriod a == totalInPeriod a0 + Qsum (omap Average sel))%Q
  /\ totalInPeriodCount a
     = totalInPeriodCount a0 + Z.of_nat (length (omap Average sel)).
Proof.
  revert a0. induction points as [|p points IH]; intros a0.
  - simpl. split; [reflexivity|]. split; [ring | lia].
  - cbv zeta. unfold selected. simpl foldl.
    specialize (IH (period_step tl a0 p)). cbv zeta in IH.
    destruct IH as (IHm & IHt & IHc).
    destruct (in_label tl p) eqn:Hin.
    + destruct (period_step_in tl a0 p Hin) as (Sm & St & Sc).
      apply in_label_iff in Hin.
      rewrite (filter_cons_True (fun q => start tl < Timestamp q <= finish tl) _ _ Hin).
      fold (selected tl points). rewrite IHm, IHt, IHc, St, Sc.
      rewrite (largest_with_comp _ _ _ Sm). clear.
      unfold omap. simpl list_omap.
      destruct (Maximum p) as [x|], (Average p) as [y|]; simpl;
        repeat split; try reflexivity; try ring; try lia;
        apply largest_with_shift.
    + rewrite (period_step_out tl a0 p Hin) in IHm, IHt, IHc.
      assert (Hout : ~ start tl < Timestamp p <= finish tl).
      { intros H. apply in_label_iff in H. congruence. }
      rewrite (filter_cons_False (fun q => start tl < Timestamp q <= finish tl) _ _ Hout).
      fold (selected tl points). rewrite (period_step_out tl a0 p Hin).
      repeat split; assumption.
Qed.


Lemma period_maximum (tl : TimeLabel) (points : list Datapoint) :
  (maxInPeriod (period tl points)
   == largest_with 0 (omap Maximum (selected tl points)))%Q.
Proof.
  destruct (period_from tl points
              {| maxInPeriod := 0; totalInPeriod := 0; totalInPeriodCount := 0 |})
    as (Hm & _). exact Hm.
Qed.



(** C4. The running maximum of a bucket starts at 0 (line 329) and is only
    replaced by a larger [Maximum] field: the maximum statistic is the
    largest of 0 and the [Maximum] fields of the selected points, so a
    bucket none of whose [Maximum] fields is positive has the maximum
    statistic 0.  At the
    failing input, a bucket whose only point has [Maximum] -5 and
    [Average] -5, the maximum statistic is 0 where the claim says -5, the
    maximum of the [Maximum] fields of the selected points; the average
    statistic of the same bucket, which starts from no bound, is -5. *)
Theorem period_maximum_starts_at_zero :
  (forall (tl : TimeLabel) (points : list Datapoint),
     (maxInPeriod (period tl points)
      == largest_with 0 (omap Maximum (selected tl points)))%Q
     /\ ((forall x, x ∈ omap Maximum (selected tl points) -> (x <= 0)%Q) ->
         (maxInPeriod (period tl points) == 0)%Q))
  /\ (let tl := {| text := "00:01"; start := 0; finish := 60000 |} in
      let points := [{| Timestamp := 60000; Maximum := Some (-5)%Q;
                        Average := Some (-5)%Q |}] in
      selected tl points = points
      /\ maxInPeriod (period tl points) = 0%Q
      /\ largest_or 0 (omap Maximum (selected tl points)) = (-5)%Q
      /\ (averageInPeriod (period tl points) == -5)%Q).
Proof.
  split.
  - intros tl points. split; [apply period_maximum|].
    intros Hneg. rewrite period_maximum.
    apply largest_with_absorb, Hneg.
  - repeat split.
Qed.

(** ** The bucket scalars and their maximum *)

Lemma largest_with_app (d : Q) (l1 l2 : list Q) :
  (largest_with (largest_with d l1) l2 == largest_with d (l1 ++ l2))%Q.
Proof.
  induction l1 as [|x l1 IH]; [reflexivity|]. simpl.
  etransitivity; [|apply Q.max_compat; [reflexivity | apply IH]].
  etransitivity; [|apply largest_with_shift].
  apply largest_with_comp, Q.max_comm.
Qed.

Lemma dataset_from (m : Metric) (tls : list TimeLabel) (a0 : Q) (ds0 : list Q) :
  let r := foldl (dataset_step m) (a0, ds0) tls in
  (fst r == largest_with a0 (map (toPush m) tls))%Q
  /\ snd r = ds0 ++ map (toPush m) tls.
Proof.
  revert a0 ds0. induction tls as [|tl tls IH]; intros a0 ds0; cbv zeta.
  - simpl. split; [reflexivity | symmetry; apply app_nil_r].
  - simpl foldl.
    destruct (IH (if Qlt_bool a0 (toPush m tl) then toPush m tl else a0)
                 (ds0 ++ [toPush m tl])) as [Hm Hd].
    split.
    + rewrite Hm. simpl map. simpl largest_with.
      etransitivity; [|apply largest_with_shift].
      apply largest_with_comp, Qlt_bool_max.
    + rewrite Hd, <- app_assoc. reflexivity.
Qed.

Lemma resample_from (tls : list TimeLabel) (ms : list Metric)
    (a0 : Q) (dss0 : list (list Q)) :
  let r := foldl (datasets_step tls) (a0, dss0) ms in
  (fst r == largest_with a0 (concat (bucket_scalars ms tls)))%Q
  /\ snd r = dss0 ++ bucket_scalars ms tls.
Proof.
  revert a0 dss0. induction ms as [|m ms IH]; intros a0 dss0; cbv zeta.
  - simpl. split; [reflexivity | symmetry; apply app_nil_r].
  - change (foldl (datasets_step tls) (a0, dss0) (m :: ms))
      with (foldl (datasets_step tls) (datasets_step tls (a0, dss0) m) ms).
    destruct (dataset_from m tls a0 []) as [Hm Hd]. cbv zeta in Hm, Hd.
    set (a1 := fst (foldl (dataset_step m) (a0, []) tls)) in *.
    assert (Es : datasets_step tls (a0, dss0) m
                 = (a1, dss0 ++ [map (toPush m) tls])).
    { unfold datasets_step, a1.
      destruct (foldl (dataset_step m) (a0, []) tls) as [a ds].
      simpl in Hd. subst ds. reflexivity. }
    rewrite Es.
    destruct (IH a1 (dss0 ++ [map (toPush m) tls])) as [IHm IHd].
    split.
    + rewrite IHm. simpl bucket_scalars. simpl concat.
      etransitivity; [|apply largest_with_app].
      apply largest_with_comp, Hm.
    + rewrite IHd, <- app_assoc. reflexivity.
Qed.

Lemma resample_spec (ms : list Metric) (tls : list TimeLabel) :
  (fst (resample ms tls) == largest_with 0 (concat (bucket_scalars ms tls)))%Q
  /\ snd (resample ms tls) = bucket_scalars ms tls.
Proof. apply (resample_from tls ms 0%Q []). Qed.

(** What a run of [getURL] that returns has computed. *)
Lemma getURL_locals_Returned (fuel : nat) (cfg : ConfigObject)
    (ms : list Metric) (l : Locals) :
  getURL_locals fuel cfg ms = Returned l ->
  labels l = map text (timeLabels l)
  /\ datasets l = snd (resample ms (timeLabels l))
  /\ absMaxValue l = fst (resample ms (timeLabels l))
  /\ topEdge l = Qceiling (absMaxValue l * 1.2)
  /\ datasetsAsStrings l
     = map (fun dataset => extendedEncode (map Fin dataset) (of_Z (topEdge l)))
           (datasets l)
  /\ getTitles ms = Returned (titles l)
  /\ colors l = map color ms
  /\ styles l = map style ms.
Proof.
  unfold getURL_locals.
  destruct (time_range _) as [startTime endTime].
  match goal with |- (?w ≫= _) = _ -> _ => destruct w as [tls| |] end;
    simpl; try discriminate.
  destruct (resample ms tls) as [absMax dsets] eqn:E.
  destruct (getTitles ms) as [ts| |]; simpl; try discriminate.
  intros [= <-]. simpl. rewrite E. repeat split; reflexivity.
Qed.

(** ** The y-axis ceiling *)

(** The bucket scalars, the ceiling and the encoder's [maxVal] of a run
    that returns. *)
Lemma getURL_locals_scalars (fuel : nat) (cfg : ConfigObject) (ms : list Metric) (l : Locals) :
  getURL_locals fuel cfg ms = Returned l ->
  datasets l = bucket_scalars ms (timeLabels l)
  /\ topEdge l
     = Qceiling (largest_with 0 (concat (bucket_scalars ms (timeLabels l))) * 1.2)
  /\ datasetsAsStrings l
     = map (fun dataset => extendedEncode (map Fin dataset) (of_Z (topEdge l)))
           (datasets l).
Proof.
  intros H. apply getURL_locals_Returned in H.
  destruct H as (_ & Hd & Ha & Ht & Hs & _).
  destruct (resample_spec ms (timeLabels l)) as [Hmax Hsc].
  split; [congruence|]. split; [|exact Hs].
  rewrite Ht, Ha. apply Qceiling_comp. rewrite Hmax. reflexivity.
Qed.

(** C5. The ceiling of a run is the [maxVal] handed to [extendedEncode]
    for every data set.  [absMaxValue] starts at 0 (line 282) and is only
    replaced by a larger bucket scalar, as the running maximum of C4 does:
    when no bucket scalar is positive the ceiling is 0.  At the failing
    input,
    a series of statistic Average whose only bucket scalar is -5, the
    ceiling is 0 where the claim says [ceil(-5 * 1.2) = -6]. *)
Theorem getURL_ceiling_starts_at_zero :
  (forall (fuel : nat) (cfg : ConfigObject) (ms : list Metric) (l : Locals),
     getURL_locals fuel cfg ms = Returned l ->
     datasetsAsStrings l
     = map (fun dataset => extendedEncode (map Fin dataset) (of_Z (topEdge l)))
           (datasets l)
     /\ ((forall dataset v, dataset ∈ datasets l -> v ∈ dataset -> (v <= 0)%Q) ->
         topEdge l = 0))
  /\ (exists l : Locals,
        sample_locals 5 1 [point 0 None (Some (-5)%Q); point 60000 None (Some (-5)%Q)]
        = Returned l
        /\ datasets l = [[(-5)%Q]]
        /\ topEdge l = 0
        /\ datasetsAsStrings l = ["__"]
        /\ Qceiling (largest_or 0 (concat (datasets l)) * 1.2) = -6).
Proof.
  split.
  - intros fuel cfg ms l H.
    destruct (getURL_locals_scalars fuel cfg ms l H) as (Hd & Ht & Hs).
    split; [exact Hs|]. intros Hneg.
    rewrite Ht, <- Hd.
    rewrite (Qceiling_comp _ 0%Q); [reflexivity|].
    rewrite largest_with_absorb; [reflexivity|].
    intros v Hv. apply list_elem_of_In, in_concat in Hv as (ds & Hds & Hv).
    apply (Hneg ds v); apply list_elem_of_In; assumption.
  - eexists. split; [vm_compute; reflexivity|]. repeat split.
Qed.

(** ** Statistic selection *)







(** ** Degenerate data *)

Lemma walk_never_throws (fuel : nat) (σ : dates) (i : nat) (endTime : option nat)
    (diff : number) (prevTime : option Z) (tls : list TimeLabel) (e : exn) :
  walk fuel σ i endTime diff prevTime tls <> Threw e.
Proof.
  revert σ prevTime tls. induction fuel as [|fuel IH]; intros σ prevTime tls;
    simpl; [discriminate|].
  destruct (date_number σ i <=? ref_number σ endTime)%num; [|discriminate].
  destruct (σ !! i) as [[t|]|]; try discriminate. apply IH.
Qed.

Lemma getTitle_throws (m : Metric) (e : exn) :
  getTitle m = Threw e -> is_TypeError e.
Proof.
  unfold getTitle. destruct (title m); [discriminate|].
  destruct (Dimensions m) as [| | | | |s|elems]; simpl;
    try discriminate; try (intros [= <-]; exact I).
  - destruct (0 <? Z.of_nat (String.length s)); discriminate.
  - destruct (0 <? Z.of_nat (length elems)); discriminate.
Qed.

Lemma getTitles_throws (ms : list Metric) (e : exn) :
  getTitles ms = Threw e -> is_TypeError e.
Proof.
  induction ms as [|m ms IH]; simpl; [discriminate|].
  destruct (getTitle m) as [t| e'|] eqn:E; simpl; try discriminate.
  - destruct (getTitles ms) as [ts|e'|]; simpl; try discriminate.
    intros [= <-]. apply IH. reflexivity.
  - intros [= <-]. apply (getTitle_throws m), E.
Qed.

Lemma getURL_locals_throws (fuel : nat) (cfg : ConfigObject) (ms : list Metric)
    (e : exn) :
  getURL_locals fuel cfg ms = Threw e -> is_TypeError e.
Proof.
  unfold getURL_locals.
  destruct (time_range _) as [startTime endTime].
  match goal with |- (?w ≫= _) = _ -> _ => destruct w as [tls|e'|] eqn:W end;
    simpl; try discriminate.
  - destruct (resample ms tls) as [absMax dsets].
    destruct (getTitles ms) as [ts|e'|] eqn:T; simpl; try discriminate.
    intros [= <-]. apply (getTitles_throws ms), T.
  - intros [= <-]. destruct startTime as [i|].
    + exfalso. exact (walk_never_throws _ _ _ _ _ _ _ _ W).
    + destruct (of_Z 0 <=? ref_number _ endTime)%num; [|discriminate].
      injection W as <-. exact I.
Qed.

Lemma encodeValue_zero_ceiling (v : Q) :
  (v <= 0)%Q -> encodeValue (of_Z 0) (Fin v) = zero_ceiling_code v.
Proof.
  intros Hv. pose proof (encodeValue_of_scaled (of_Z 0) (Fin v)) as H.
  unfold scaledVal in H.
  change (EXTENDED_MAP_LENGTH * EXTENDED_MAP_LENGTH)%num with (of_Z 4096) in H.
  unfold of_Z in H at 1 2. unfold Num.mul, Num.div in H.
  change (Qeq_bool (inject_Z 0) 0) with true in H. cbv iota in H.
  unfold zero_ceiling_code, sgn in *.
  destruct (Qlt_bool v 0) eqn:E.
  - apply Qlt_bool_iff in E.
    assert (Hc : (inject_Z 4096 * v ?= 0)%Q = Lt).
    { apply (proj1 (Qlt_alt _ _)). change (inject_Z 4096) with 4096%Q. lra. }
    rewrite Hc in H. exact H.
  - assert (Hz : (v == 0)%Q).
    { apply Qle_antisym; [exact Hv|]. apply Qnot_lt_le. intros Hlt.
      apply Qlt_bool_iff in Hlt. congruence. }
    assert (Hc : (inject_Z 4096 * v ?= 0)%Q = Eq).
    { apply (proj1 (Qeq_alt _ _)). rewrite Hz. reflexivity. }
    rewrite Hc in H. exact H.
Qed.

Lemma extendedEncode_zero_ceiling (dataset : list Q) :
  (forall v, v ∈ dataset -> (v <= 0)%Q) ->
  extendedEncode (map Fin dataset) (of_Z 0) = zero_ceiling_codes dataset.
Proof.
  intros Hall. rewrite extendedEncode_codes.
  induction dataset as [|v rest IH]; [reflexivity|]. simpl.
  rewrite encodeValue_zero_ceiling by (apply Hall; left).
  rewrite IH; [reflexivity|]. intros w Hw. apply Hall. right. exact Hw.
Qed.

(** C6 (as amended). The render path has no guard for degenerate data and
    never reports a dedicated error: the only exceptions [getURL] can raise
    are [TypeError]s.  When the computed y-axis ceiling is zero, [getURL]
    returns as usual: no bucket scalar is positive, 0 is the [maxVal] of the
    encoder, and every scalar is encoded as ["AA"] when it is zero and as
    ["__"] when it is negative. *)
Theorem getURL_degenerate (fuel : nat) (cfg : ConfigObject) (ms : list Metric) :
  (forall e : exn, getURL_locals fuel cfg ms = Threw e -> is_TypeError e)
  /\ (forall l : Locals,
        getURL_locals fuel cfg ms = Returned l ->
        topEdge l = 0 ->
        (forall dataset v, dataset ∈ datasets l -> v ∈ dataset -> (v <= 0)%Q)
        /\ datasetsAsStrings l = map zero_ceiling_codes (datasets l)).
Proof.
  split; [apply getURL_locals_throws|].
  intros l H Htop.
  pose proof (getURL_locals_scalars fuel cfg ms l H) as G.
  destruct G as (Hd & Hc & Hs).
  set (A := largest_with 0 (concat (bucket_scalars ms (timeLabels l)))) in *.
  assert (HA : (A <= 0)%Q).
  { pose proof (Qle_ceiling (A * 1.2)) as Hle.
    rewrite <- Hc, Htop in Hle. change (inject_Z 0) with 0%Q in Hle.
    change 1.2%Q with (12 # 10)%Q in Hle. lra. }
  assert (Hall : forall dataset v,
             dataset ∈ datasets l -> v ∈ dataset -> (v <= 0)%Q).
  { intros dataset v Hds Hv. apply Qle_trans with A; [|exact HA].
    apply largest_with_upper. rewrite <- Hd.
    apply list_elem_of_In, in_concat. exists dataset.
    split; apply list_elem_of_In; assumption. }
  split; [exact Hall|].
  rewrite Hs, Htop. apply map_ext_in. intros dataset Hin.
  apply extendedEncode_zero_ceiling. intros v Hv.
  apply (Hall dataset v); [apply list_elem_of_In, Hin | exact Hv].
Qed.

(** C6, the counterexample: a run on data that is flat at zero.  The
    ceiling is zero, and [getURL] raises nothing: it returns a URL whose
    data block is made of the codes of 0 divided by 0. *)
Lemma getURL_flat_zero_returns :
  let response := [point 1500000000000 None (Some 0%Q);
                   point 1500000060000 None (Some 0%Q)] in
  (exists l : Locals, sample_locals 10 3 response = Returned l /\ topEdge l = 0)
  /\ sample_run 10 3 response
     = Returned ("http://chart.googleapis.com/chart?cht=lc&chxl=0:|02:40|02:40|02:41&"
                 +:+ "chxt=x,y&chco=FF0000&chls=1&chs=1000x250&chxr=1,0,0,10&"
                 +:+ "chg=20,10,1,5&chdl=&chd=e:AAAAAA").
Proof.
  split; [eexists; split; vm_compute; reflexivity | vm_compute; reflexivity].
Qed.

(** ** The boundary walk *)

Lemma walk_stuck (fuel : nat) (σ : dates) (i : nat) (endTime : option nat)
    (diff : number) (t : Z) (prevTime : option Z) (tls : list TimeLabel) :
  σ !! i = Some (Some t) ->
  (date_number σ i <=? ref_number σ endTime)%num = true ->
  TimeClip (of_Z t + diff) = Some t ->
  walk fuel σ i endTime diff prevTime tls = OutOfFuel.
Proof.
  intros Hi Hle Hclip. revert prevTime tls.
  induction fuel as [|fuel IH]; intros prevTime tls; [reflexivity|].
  cbn [walk]. rewrite Hle, Hi, Hclip, (list_insert_id _ _ _ Hi). apply IH.
Qed.

Lemma le_of_Z (a b : Z) : (of_Z a <=? of_Z b)%num = (a <=? b).
Proof.
  unfold Num.le, of_Z, Qle_bool; simpl. rewrite !Z.mul_1_r. reflexivity.
Qed.

Lemma TimeClip_same (t : Z) (q : Q) :
  - 8640000000000000 <= t <= 8640000000000000 ->
  (q == inject_Z t)%Q -> TimeClip (Fin q) = Some t.
Proof.
  intros Ht E. unfold TimeClip.
  assert (Ha : Qle_bool (Qabs q) (inject_Z 8640000000000000) = true).
  { apply Qle_bool_iff. rewrite E. apply Qabs_Qle_condition.
    rewrite <- inject_Z_opp, <- !Zle_Qle. lia. }
  rewrite Ha, (Qtrunc_comp _ _ E), Qtrunc_Z. reflexivity.
Qed.

Lemma time_range_single (t : Z) : time_range [Some t] = (Some 0%nat, Some 0%nat).
Proof.
  unfold time_range. cbn [length seq foldl]. unfold range_step.
  cbn [ref_number]. change (date_number [Some t] 0) with (of_Z t).
  rewrite gt_of_Z, lt_of_Z, Z.ltb_irrefl. reflexivity.
Qed.

(** A series with a single data point: the step of the walk is zero, the
    walk never leaves its first boundary, and [getURL] does not return
    whatever fuel it is given. *)
Lemma getURL_single_point_diverges (fuel : nat) (cfg : ConfigObject)
    (m : Metric) (p : Datapoint) (N : Z) :
  datapoints m = [p] ->
  - 8640000000000000 <= Timestamp p <= 8640000000000000 ->
  number_fields cfg !! "chartSamples" = Some N -> N <> 0 ->
  getURL_locals fuel cfg [m] = OutOfFuel.
Proof.
  intros Hm Ht HN HN0. unfold getURL_locals, all_datapoints.
  cbn [map concat]. rewrite Hm. cbn [app map].
  rewrite time_range_single. cbn [ref_number].
  change (date_number [Some (Timestamp p)] 0) with (of_Z (Timestamp p)).
  unfold read_number. rewrite HN.
  rewrite (walk_stuck fuel _ 0 (Some 0%nat) _ (Timestamp p) None []);
    [reflexivity | reflexivity | | ].
  - cbn [ref_number].
    change (date_number [Some (Timestamp p)] 0) with (of_Z (Timestamp p)).
    rewrite le_of_Z. apply Z.leb_refl.
  - unfold of_Z, Num.sub, Num.neg, Num.add, Num.div.
    assert (HNq : Qeq_bool (inject_Z N) 0 = false).
    { destruct (Qeq_bool (inject_Z N) 0) eqn:E; [|reflexivity].
      apply Qeq_bool_eq in E. change 0%Q with (inject_Z 0) in E.
      apply (proj1 (inject_Z_injective _ _)) in E. contradiction. }
    rewrite HNq. apply TimeClip_same; [exact Ht|].
    field. intros E. change 0%Q with (inject_Z 0) in E.
    apply (proj1 (inject_Z_injective _ _)) in E. contradiction.
Qed.

(** C1, at the failing inputs.  With a single data point the boundary walk
    never ends, so [getURL] produces no labels at all; with two data points
    one minute apart and [chartSamples = 399] the walk steps by 150 ms (the
    150.37... it is given, clipped by [setTime]) and produces 400 labels and
    400 encoded entries instead of 399. *)
Theorem getURL_bucket_count_failures :
  (forall fuel : nat,
     sample_run fuel 24 [point 1500000000000 None (Some 1%Q)] = OutOfFuel)
  /\ (exists l : Locals,
        sample_locals 500 399 [point 1500000000000 None (Some 1%Q);
                               point 1500000060000 None (Some 2%Q)] = Returned l
        /\ length (labels l) = 400%nat
        /\ map String.length (datasetsAsStrings l) = [800%nat]).
Proof.
  split.
  - intros fuel. unfold sample_run.
    destruct (sample_chart 24 [point 1500000000000 None (Some 1%Q)])
      as [σ r] eqn:E.
    vm_compute in E. injection E as <- <-. simpl.
    unfold getURL. simpl.
    erewrite getURL_single_point_diverges; [reflexivity | reflexivity | | | ].
    + simpl. lia.
    + vm_compute. reflexivity.
    + discriminate.
  - eexists. split; [vm_compute; reflexivity|]. split; vm_compute; reflexivity.
Qed.

(** ** Titles *)

(** A title that was configured is a string, whatever value the
    configuration gave it. *)
Lemma assign_param_title (m m' : Metric) (k : string) (v : value) :
  assign_param m k v = Returned m' ->
  (toLowerCase k = "title" -> title m' = Some (ToString v))
  /\ (toLowerCase k <> "title" -> title m' = title m).
Proof.
  unfold assign_param.
  repeat match goal with
         | |- context [String.eqb (toLowerCase k) ?w] =>
             destruct (String.eqb_spec (toLowerCase k) w) as [->|]
         end;
    try discriminate; intros [= <-]; split; intros H;
    try reflexivity; try discriminate; try contradiction.
Qed.

(** C9 (as amended). Title resolution: [getTitle] returns the configured
    title when one was configured.  Otherwise, when the dimensions are a
    non-empty array, it returns the [Value] of the first dimension if that
    is truthy and the empty string if it is missing or falsy; when they
    are an empty array, or a string, a number or a boolean, it returns the
    empty string; and when they are [null] or [undefined] it throws a
    [TypeError]. *)
Theorem getTitle_resolution (m : Metric) :
  (forall s : string, title m = Some s -> getTitle m = Returned (VStr s))
  /\ (title m = None ->
      forall (d : object) (rest : list object),
        Dimensions m = VArr (d :: rest) ->
        (truthy (get d "Value") = true ->
         getTitle m = Returned (get d "Value"))
        /\ (truthy (get d "Value") = false ->
            getTitle m = Returned (VStr "")))
  /\ (title m = None -> Dimensions m = VArr [] -> getTitle m = Returned (VStr ""))
  /\ (title m = None ->
      Dimensions m = VNull \/ Dimensions m = VUndef ->
      exists message : string, getTitle m = Threw (TypeError message))
  /\ (title m = None ->
      (exists s, Dimensions m = VStr s) \/ (exists b, Dimensions m = VBool b)
      \/ (exists n, Dimensions m = VNum n) \/ Dimensions m = VNaN ->
      getTitle m = Returned (VStr "")).
Proof.
  unfold getTitle. split; [intros s ->; reflexivity|].
  split; [|split; [|split]]; intros ->.
  - intros d rest ->. cbn. unfold or_else. split; intros ->; reflexivity.
  - intros ->. reflexivity.
  - intros [-> | ->]; eexists; reflexivity.
  - intros [[s ->] | [[b ->] | [[n ->] | ->]]]; try reflexivity.
    cbn. destruct (0 <? Z.of_nat (String.length s)); reflexivity.
Qed.

(** C9, the counterexample: a series without title whose first dimension
    has the [Value] 0 gets the title [""], not that [Value]; one whose
    first dimension has no [Value] gets [""] as well; and for one whose
    dimensions were configured as [null], [getTitle] throws instead of
    returning the empty string. *)
Lemma getTitle_falsy_value_or_null :
  (exists m : Metric,
     configure [("dimensions", VArr [[("Name", VStr "InstanceId");
                                      ("Value", VNum 0)]])] = Returned m
     /\ title m = None
     /\ first_Value (Dimensions m) = VNum 0
     /\ getTitle m = Returned (VStr "")
     /\ getTitle m <> Returned (first_Value (Dimensions m)))
  /\ (exists m : Metric,
        configure [("dimensions", VArr [[("Name", VStr "InstanceId")]])] = Returned m
        /\ title m = None
        /\ first_Value (Dimensions m) = VUndef
        /\ getTitle m = Returned (VStr "")
        /\ getTitle m <> Returned (first_Value (Dimensions m)))
  /\ (exists m : Metric,
        configure [("dimensions", VNull)] = Returned m
        /\ title m = None
        /\ getTitle m
           = Threw (TypeError "Cannot read properties of undefined (reading 'length')")
        /\ getTitle m <> Returned (VStr "")).
Proof.
  split; [|split]; eexists; (split; [reflexivity|]); repeat split; discriminate.
Qed.

(** ** The constructor *)

Lemma foldl_Threw {A B : Type} (f : A -> B -> outcome A) (e : exn) (l : list B) :
  foldl (fun acc x => a ← acc; f a x) (Threw e) l = Threw e.
Proof. induction l as [|x l IH]; [reflexivity | exact IH]. Qed.

Lemma assign_param_outcome (m : Metric) (k : string) (v : value) :
  (toLowerCase k ∈ recognized /\ exists m', assign_param m k v = Returned m')
  \/ ((toLowerCase k ∉ recognized) /\ exists e, assign_param m k v = Threw e).
Proof.
  unfold assign_param, recognized.
  repeat match goal with
         | |- context [String.eqb (toLowerCase k) ?w] =>
             destruct (String.eqb_spec (toLowerCase k) w) as [->|]
         end;
    try (left; split; [apply list_elem_of_In; simpl; tauto | eexists; reflexivity]).
  right. split; [|eexists; reflexivity].
  intros H. apply list_elem_of_In in H. simpl in H. intuition congruence.
Qed.

(** The assignments of [addMetric], started from any metric. *)
Lemma configure_from (all : object) (keys : list string) (m0 : Metric) :
  let r := foldl (fun acc k => m ← acc; assign_param m k (get all k))
                 (Returned m0) keys in
  ((exists k, k ∈ keys /\ toLowerCase k ∉ recognized) /\ exists e, r = Threw e)
  \/ ((forall k, k ∈ keys -> toLowerCase k ∈ recognized) /\ exists m, r = Returned m).
Proof.
  revert m0. induction keys as [|k keys IH]; intros m0; cbv zeta.
  - right. split; [intros k Hk; inversion Hk | eexists; reflexivity].
  - simpl foldl.
    destruct (assign_param_outcome m0 k (get all k))
      as [[Hk [m' E]] | [Hk [e E]]]; simpl; rewrite E.
    + destruct (IH m') as [[(k' & Hin & Hbad) Ht] | [Hall Hr]].
      * left. split; [exists k'; split; [right; exact Hin | exact Hbad] | exact Ht].
      * right. split; [|exact Hr].
        intros k' Hk'. apply elem_of_cons in Hk' as [-> | Hk']; auto.
    + left. split; [exists k; split; [left | exact Hk]|].
      exists e. apply foldl_Threw.
Qed.

Lemma configure_outcome (params : object) :
  (unrecognized_field params /\ exists e, configure params = Threw e)
  \/ (~ unrecognized_field params /\ exists m, configure params = Returned m).
Proof.
  destruct (configure_from params (map fst params) AwsCloudWatchChartMetric)
    as [[Hbad Ht] | [Hall Hr]]; [left; split; assumption|].
  right. split; [|exact Hr]. intros (k & Hk & Hbad). exact (Hbad (Hall k Hk)).
Qed.

Lemma addMetrics_from (elems : list object) (ms0 : list Metric) :
  let r := foldl (fun acc params => ms ← acc; addMetric ms params)
                 (Returned ms0) elems in
  ((exists params, params ∈ elems /\ unrecognized_field params)
   /\ exists e, r = Threw e)
  \/ ((forall params, params ∈ elems -> ~ unrecognized_field params)
      /\ exists ms, r = Returned ms).
Proof.
  revert ms0. induction elems as [|params elems IH]; intros ms0; cbv zeta.
  - right. split; [intros p Hp; inversion Hp | eexists; reflexivity].
  - change (foldl (fun acc params => ms ← acc; addMetric ms params)
                   (Returned ms0) (params :: elems))
      with (foldl (fun acc params => ms ← acc; addMetric ms params)
                  (addMetric ms0 params) elems).
    destruct (configure_outcome params) as [[Hbad [e E]] | [Hok [m E]]].
    + assert (Ea : addMetric ms0 params = Threw e)
        by (unfold addMetric; rewrite E; reflexivity).
      rewrite Ea. left. split; [exists params; split; [left | exact Hbad]|].
      exists e. apply foldl_Threw.
    + assert (Ea : addMetric ms0 params = Returned (ms0 ++ [m]))
        by (unfold addMetric; rewrite E; reflexivity).
      rewrite Ea.
      destruct (IH (ms0 ++ [m])) as [[(p & Hin & Hbad) Ht] | [Hall Hr]].
      * left. split; [exists p; split; [right; exact Hin | exact Hbad] | exact Ht].
      * right. split; [|exact Hr].
        intros p Hp. apply elem_of_cons in Hp as [-> | Hp]; auto.
Qed.

Lemma mul_of_Z_gt (a b c : Z) : (of_Z a * of_Z b >? of_Z c)%num = (c <? a * b).
Proof.
  rewrite <- gt_of_Z. reflexivity.
Qed.

Lemma Qtrunc_quot (a : Z) : Qtrunc (inject_Z a / inject_Z 60) = Z.quot a 60.
Proof.
  unfold Qtrunc. destruct (Qle_bool 0 (inject_Z a / inject_Z 60)) eqn:E.
  - apply Qle_bool_iff in E. rewrite <- Zdiv_Qdiv.
    assert (0 <= a).
    { destruct (Z.le_gt_cases 0 a) as [H|H]; [exact H|]. exfalso.
      assert (Hq : (inject_Z a / inject_Z 60 < 0)%Q).
      { apply Qlt_shift_div_r; [reflexivity|]. rewrite Qmult_0_l.
        change 0%Q with (inject_Z 0). rewrite <- Zlt_Qlt. exact H. }
      exact (Qlt_not_le _ _ Hq E). }
    symmetry. apply Z.quot_div_nonneg; lia.
  - assert (Ha : a <= 0).
    { destruct (Z.le_gt_cases a 0) as [H|H]; [exact H|]. exfalso.
      assert (Hq : (0 <= inject_Z a / inject_Z 60)%Q).
      { apply Qle_shift_div_l; [reflexivity|]. rewrite Qmult_0_l.
        change 0%Q with (inject_Z 0). rewrite <- Zle_Qle. lia. }
      apply Qle_bool_iff in Hq. congruence. }
    unfold Qceiling.
    assert (Eo : (- (inject_Z a / inject_Z 60) == inject_Z (- a) / inject_Z 60)%Q).
    { rewrite inject_Z_opp. field. }
    rewrite (Qfloor_comp _ _ Eo), <- Zdiv_Qdiv.
    rewrite <- (Z.opp_involutive a) at 2. rewrite Z.quot_opp_l by lia.
    f_equal. symmetry. apply Z.quot_div_nonneg; lia.
Qed.

Lemma rem_of_Z_ne (a : Z) :
  Num.strict_ne (of_Z a mod of_Z 60)%num (of_Z 0) = negb (Z.rem a 60 =? 0).
Proof.
  unfold Num.rem, of_Z, Num.strict_ne.
  change (Qeq_bool (inject_Z 60) 0) with false. cbv iota. f_equal.
  rewrite Qtrunc_quot.
  assert (E : (inject_Z a - inject_Z 60 * inject_Z (Z.quot a 60)
               == inject_Z (Z.rem a 60))%Q).
  { rewrite (Z.rem_eq a 60) by lia.
    unfold Zminus. rewrite inject_Z_plus, inject_Z_opp, inject_Z_mult. ring. }
  rewrite (Qeqb_comp _ _ E (inject_Z 0) (inject_Z 0) (Qeq_refl (inject_Z 0))).
  unfold Qeq_bool; simpl. rewrite Z.mul_1_r.
  destruct (Z.rem a 60); reflexivity.
Qed.

Lemma read_number_effective (c : ConfigObject) (k : string) (d : Z) :
  number_fields defaultConfig !! k = Some d ->
  read_number (effective c) k = of_Z (setting c k).
Proof.
  intros Hd. unfold read_number, effective, setting, copy_properties, empty_object.
  cbn [number_fields]. rewrite !lookup_union, Hd, lookup_empty.
  destruct (number_fields c !! k) as [n|]; reflexivity.
Qed.

(** The store the constructor leaves: one object more, the effective
    configuration, at a location that was free. *)
Lemma Object_assign_fresh (σ : store) (l : loc) (c : ConfigObject) :
  σ !! l = Some c ->
  Object_assign (fresh (dom σ)) [Const defaultConfig; FromRef l]
                (<[fresh (dom σ) := empty_object]> σ)
  = <[fresh (dom σ) := effective c]> σ.
Proof.
  intros Hl. unfold Object_assign. simpl.
  rewrite alter_insert_eq.
  assert (Hne : fresh (dom σ) <> l).
  { intros E. apply (is_fresh (dom σ)). rewrite E.
    apply elem_of_dom. eexists. exact Hl. }
  rewrite (lookup_insert_ne _ _ _ _ Hne), Hl, alter_insert_eq. reflexivity.
Qed.

Lemma constructor_store (σ : store) (l : loc) (c : ConfigObject) :
  σ !! l = Some c ->
  fst (AwsCloudWatchChart (Ref l) σ) = <[fresh (dom σ) := effective c]> σ.
Proof. intros Hl. simpl. apply Object_assign_fresh, Hl. Qed.

Lemma metrics_field_effective (c : ConfigObject) :
  metrics_field (effective c) = metrics_field c.
Proof. unfold effective. simpl. destruct (metrics_field c); reflexivity. Qed.

Lemma constructor_outcome (σ : store) (l : loc) (c : ConfigObject) :
  σ !! l = Some c ->
  let r := snd (AwsCloudWatchChart (Ref l) σ) in
  (invalid c /\ exists e, r = Threw e)
  \/ (~ invalid c /\ exists this, r = Returned this).
Proof.
  intros Hl. cbv zeta. unfold AwsCloudWatchChart. cbn [snd].
  rewrite (Object_assign_fresh σ l c Hl), lookup_insert_eq.
  cbn [from_option id]. cbv zeta.
  rewrite metrics_field_effective.
  rewrite (read_number_effective c "width" 1000 eq_refl),
          (read_number_effective c "height" 250 eq_refl),
          (read_number_effective c "timePeriod" 60 eq_refl).
  rewrite !gt_of_Z, !lt_of_Z, mul_of_Z_gt, rem_of_Z_ne.
  unfold invalid, invalid_shape.
  destruct (Array_isArray (metrics_field c)) eqn:Harr; cbn [negb];
    [|left; split; [tauto | eexists; reflexivity]].
  destruct (1000 <? setting c "width") eqn:H1;
    [apply Z.ltb_lt in H1; left; split; [tauto | eexists; reflexivity]|].
  destruct (1000 <? setting c "height") eqn:H2;
    [apply Z.ltb_lt in H2; left; split; [tauto | eexists; reflexivity]|].
  destruct (300000 <? setting c "height" * setting c "width") eqn:H3;
    [apply Z.ltb_lt in H3; left; split; [tauto | eexists; reflexivity]|].
  destruct (setting c "width" <? 1) eqn:H4;
    [apply Z.ltb_lt in H4; left; split; [tauto | eexists; reflexivity]|].
  destruct (setting c "height" <? 1) eqn:H5;
    [apply Z.ltb_lt in H5; left; split; [tauto | eexists; reflexivity]|].
  destruct (Z.rem (setting c "timePeriod") 60 =? 0) eqn:H6; cbn [negb orb];
    [|apply Z.eqb_neq in H6; left; split; [tauto | eexists; reflexivity]].
  apply Z.ltb_ge in H1, H2, H3, H4, H5. apply Z.eqb_eq in H6.
  destruct (metrics_field c) as [[| | | | | |elems]|]; try discriminate.
  unfold addMetrics.
  destruct (addMetrics_from elems []) as [[Hbad [e E]] | [Hok [ms E]]];
    cbv zeta in E; rewrite E; simpl.
  - left. split; [|eexists; reflexivity].
    left. do 6 right. exists elems. split; [reflexivity | exact Hbad].
  - right. split; [|eexists; reflexivity].
    intros [[H|[H|[H|[H|[H|[H|H]]]]]]|H]; try lia; try discriminate.
    destruct H as (elems' & [= <-] & params & Hin & Hbad).
    exact (Hok params Hin Hbad).
Qed.

(** C7 (as amended). Construction from a configuration object raises a
    synchronous error exactly when the configuration is invalid: [metrics]
    is not an array, the width or the height exceeds 1000 or their product
    exceeds 300000 or either is below 1, the remainder of [timePeriod] by 60
    is not zero, or the configuration object of some metric has a field
    whose lower-cased name is not one of the recognized ones; every other
    configuration constructs successfully. *)
Theorem constructor_throws_iff_invalid (σ : store) (l : loc) (c : ConfigObject) :
  σ !! l = Some c ->
  let r := snd (AwsCloudWatchChart (Ref l) σ) in
  ((exists e : exn, r = Threw e) <-> invalid c)
  /\ ((exists this : Chart, r = Returned this) <-> ~ invalid c).
Proof.
  intros Hl. cbv zeta.
  destruct (constructor_outcome σ l c Hl) as [[Hi [e E]] | [Hv [this E]]];
    cbv zeta in E; rewrite E; split; split; try tauto.
  - intros _. exists e. reflexivity.
  - intros [this [=]].
  - intros [e [=]].
  - intros _. exists this. reflexivity.
Qed.

Lemma constructor_throws_iff_invalid_witness :
  sample_store 24 !! 1%positive = Some (sample_config 24)
  /\ ((exists e : exn,
         snd (AwsCloudWatchChart (Ref 1%positive) (sample_store 24)) = Threw e)
      <-> invalid (sample_config 24))
  /\ ((exists this : Chart,
         snd (AwsCloudWatchChart (Ref 1%positive) (sample_store 24)) = Returned this)
      <-> ~ invalid (sample_config 24)).
Proof.
  split; [reflexivity|].
  apply (constructor_throws_iff_invalid (sample_store 24) 1%positive (sample_config 24)).
  reflexivity.
Defined.

(** C7, the counterexample: a configuration whose [timePeriod] is 0, which
    is not a positive multiple of 60, constructs successfully. *)
Lemma constructor_accepts_zero_period :
  let σ : store := <[1%positive := zero_period_config]> ∅ in
  invalid_as_claimed zero_period_config
  /\ exists this : Chart,
       snd (AwsCloudWatchChart (Ref 1%positive) σ) = Returned this.
Proof.
  split.
  - right. intros [H _]. vm_compute in H. discriminate.
  - eexists. vm_compute. reflexivity.
Qed.

(** ** The caller's configuration object *)

Lemma constructor_config (cfg : argument) (σ : store) (this : Chart) :
  snd (AwsCloudWatchChart cfg σ) = Returned this -> config this = fresh (dom σ).
Proof.
  unfold AwsCloudWatchChart.
  destruct cfg as [l| |]; cbn [snd]; try discriminate;
    repeat match goal with
           | |- context [if ?b then _ else _] => destruct b
           end; try discriminate;
    match goal with
    | |- context [metrics_field ?o] =>
        destruct (metrics_field o) as [[| | | | | |elems]|]
    end; try discriminate;
    destruct (addMetrics elems) as [ms| |]; simpl; try discriminate;
    intros [= <-]; reflexivity.
Qed.

Lemma constructor_allocates (cfg : argument) (σ : store) :
  fst (AwsCloudWatchChart cfg σ) = σ
  \/ exists e : ConfigObject,
       fst (AwsCloudWatchChart cfg σ) = <[fresh (dom σ) := e]> σ.
Proof.
  destruct cfg as [l| |]; [| |left; reflexivity]; right; simpl;
    unfold Object_assign; simpl; rewrite alter_insert_eq.
  - assert (Hne : fresh (dom σ) <> l \/ σ !! l = None).
    { destruct (σ !! l) as [c|] eqn:Hl; [left|right; reflexivity].
      intros E. apply (is_fresh (dom σ)). rewrite E.
      apply elem_of_dom. eexists. exact Hl. }
    destruct (decide (fresh (dom σ) = l)) as [E|Hn].
    + destruct Hne as [Hne|Hl]; [contradiction|].
      subst l. rewrite lookup_insert_eq, alter_insert_eq.
      eexists. reflexivity.
    + rewrite (lookup_insert_ne _ _ _ _ Hn).
      destruct (σ !! l) as [c|]; [rewrite alter_insert_eq|]; eexists; reflexivity.
  - eexists. reflexivity.
Qed.

(** C10. The constructor never writes to the caller's configuration object
    (nor to any object that existed before the call): it builds the
    effective configuration as a fresh object that merges the defaults with
    the caller's fields.  After a successful construction every field of the
    caller's object has the caller's value in the effective configuration,
    and every key absent from the caller's object has exactly its default
    value: [timeOffset] 1440, [timePeriod] 60, [chartSamples] 24, [width]
    1000, [height] 250. *)
Theorem constructor_leaves_caller_config (σ : store) (cfg : argument) :
  (forall (l : loc) (o : ConfigObject),
     σ !! l = Some o -> fst (AwsCloudWatchChart cfg σ) !! l = Some o)
  /\ (forall (l : loc) (c : ConfigObject) (this : Chart),
        cfg = Ref l -> σ !! l = Some c ->
        snd (AwsCloudWatchChart cfg σ) = Returned this ->
        σ !! config this = None
        /\ exists e : ConfigObject,
             fst (AwsCloudWatchChart cfg σ) !! config this = Some e
             /\ metrics_field e = metrics_field c
             /\ (forall k n, number_fields c !! k = Some n ->
                             number_fields e !! k = Some n)
             /\ (forall k, number_fields c !! k = None ->
                           number_fields e !! k = number_fields defaultConfig !! k)
             /\ (forall k d,
                   (k, d) ∈ [("timeOffset", 1440); ("timePeriod", 60);
                             ("chartSamples", 24); ("width", 1000);
                             ("height", 250)] ->
                   number_fields c !! k = None ->
                   number_fields e !! k = Some d)).
Proof.
  split.
  - intros l o Hl.
    destruct (constructor_allocates cfg σ) as [-> | [e ->]]; [exact Hl|].
    rewrite lookup_insert_ne; [exact Hl|].
    intros E. apply (is_fresh (dom σ)). rewrite E.
    apply elem_of_dom. eexists. exact Hl.
  - intros l c this -> Hl Hr.
    rewrite (constructor_config _ _ _ Hr), (constructor_store σ l c Hl).
    split; [apply not_elem_of_dom, is_fresh|].
    exists (effective c). rewrite lookup_insert_eq.
    split; [reflexivity|]. split; [apply metrics_field_effective|].
    assert (Hnone : forall k, number_fields c !! k = None ->
              number_fields (effective c) !! k = number_fields defaultConfig !! k).
    { intros k Hk. unfold effective, copy_properties, empty_object.
      cbn [number_fields]. rewrite !lookup_union, Hk, lookup_empty.
      destruct (number_fields defaultConfig !! k); reflexivity. }
    split; [|split; [exact Hnone|]].
    + intros k n Hk. unfold effective, copy_properties, empty_object.
      cbn [number_fields]. rewrite lookup_union, Hk. apply union_Some_l.
    + intros k d Hkd Hk. rewrite (Hnone k Hk).
      repeat (apply elem_of_cons in Hkd as [[= -> ->] | Hkd]; [reflexivity|]).
      inversion Hkd.
Qed.

Lemma constructor_leaves_caller_config_witness :
  let σ := sample_store 24 in
  let r := AwsCloudWatchChart (Ref 1%positive) σ in
  σ !! 1%positive = Some (sample_config 24)
  /\ fst r !! 1%positive = Some (sample_config 24)
  /\ exists this : Chart,
       snd r = Returned this
       /\ σ !! config this = None
       /\ exists e : ConfigObject,
            fst r !! config this = Some e
            /\ metrics_field e = metrics_field (sample_config 24)
            /\ number_fields e !! "chartSamples" = Some 24
            /\ number_fields e !! "width" = Some 1000.
Proof.
  intros σ r.
  destruct (constructor_leaves_caller_config σ (Ref 1%positive)) as [Hframe Hnew].
  split; [reflexivity|]. split; [apply Hframe; reflexivity|].
  eexists. split; [vm_compute; reflexivity|].
  edestruct (Hnew 1%positive (sample_config 24)) as (Hfresh & e & He & Hm & Hsome & _ & Hdef);
    [reflexivity | reflexivity | vm_compute; reflexivity |].
  split; [exact Hfresh|]. exists e. split; [exact He|]. split; [exact Hm|].
  split; [apply Hsome; reflexivity|].
  apply (Hdef "width" 1000); [|reflexivity].
  apply list_elem_of_In. simpl. tauto.
Defined.

(** ** The boundary walk when the clipped step is positive *)

Lemma Qfloor_unique (q : Q) (z : Z) :
  (inject_Z z <= q)%Q -> (q < inject_Z (z + 1))%Q -> Qfloor q = z.
Proof.
  intros Hlo Hhi. apply Z.le_antisymm.
  - apply Z.lt_succ_r. apply Z.nle_gt. intros Hge.
    apply (Qlt_not_le _ _ Hhi). apply Qle_trans with (inject_Z (Qfloor q)).
    + rewrite <- Zle_Qle. exact Hge.
    + apply Qfloor_le.
  - rewrite <- (Qfloor_Z z). apply Qfloor_resp_le, Hlo.
Qed.

Lemma TimeClip_step (t : Z) (d : Q) :
  0 <= t -> 1 <= Qfloor d -> t + Qfloor d < maxTime ->
  TimeClip (of_Z t + Fin d) = Some (t + Qfloor d).
Proof.
  intros Ht Hs Hmax. unfold of_Z, Num.add, TimeClip.
  pose proof (Qfloor_le d) as Hlo. pose proof (Qlt_floor d) as Hhi.
  assert (H1 : (1 <= inject_Z (Qfloor d))%Q).
  { change 1%Q with (inject_Z 1). rewrite <- Zle_Qle. exact Hs. }
  assert (H0 : (0 <= inject_Z t)%Q).
  { change 0%Q with (inject_Z 0). rewrite <- Zle_Qle. exact Ht. }
  assert (Hq0 : (0 <= inject_Z t + d)%Q) by lra.
  assert (Hfl : Qfloor (inject_Z t + d) = t + Qfloor d).
  { apply Qfloor_unique.
    - rewrite inject_Z_plus. lra.
    - rewrite !inject_Z_plus in *. lra. }
  assert (Ha : Qle_bool (Qabs (inject_Z t + d)) (inject_Z 8640000000000000) = true).
  { apply Qle_bool_iff. rewrite (Qabs_pos _ Hq0).
    apply Qle_trans with (inject_Z (t + Qfloor d + 1)).
    - rewrite !inject_Z_plus in *. lra.
    - rewrite <- Zle_Qle. unfold maxTime in Hmax. lia. }
  rewrite Ha. unfold Qtrunc.
  apply Qle_bool_iff in Hq0. rewrite Hq0, Hfl. reflexivity.
Qed.

Lemma length_chain (p t s : Z) (n : nat) : length (chain p t s n) = n.
Proof.
  revert p t. induction n as [|n IH]; intros p t; [reflexivity|].
  simpl. rewrite IH. reflexivity.
Qed.

Lemma lookup_chain (p t s : Z) (n j : nat) (tl : TimeLabel) :
  chain p t s n !! j = Some tl ->
  finish tl = t + Z.of_nat j * s
  /\ start tl = match j with
                | O => p
                | S _ => t + (Z.of_nat j - 1) * s
                end.
Proof.
  revert p t j. induction n as [|n IH]; intros p t j H; [discriminate|].
  destruct j as [|j]; cbn [chain] in H.
  - injection H as <-. simpl. split; [lia | reflexivity].
  - apply IH in H as [Hf Hs]. rewrite Hf. split; [lia|].
    rewrite Hs. destruct j; lia.
Qed.

Section Walk.

Variables (i e : nat) (te : Z) (d : Q).
Hypothesis distinct : i <> e.
Hypothesis step_positive : 1 <= Qfloor d.
Hypothesis in_range : te + Qfloor d < maxTime.

(** After the first boundary: [n] more labels, then the walk leaves the
    range. *)
Lemma walk_chain (n : nat) (σ : dates) (t p : Z) (tls : list TimeLabel) :
  σ !! i = Some (Some t) -> σ !! e = Some (Some te) ->
  0 <= t ->
  t + Z.of_nat n * Qfloor d <= te + Qfloor d ->
  te < t + Z.of_nat n * Qfloor d ->
  walk (S n) σ i (Some e) (Fin d) (Some p) tls
  = Returned (tls ++ chain p t (Qfloor d) n).
Proof.
  revert σ t p tls. induction n as [|n IH]; intros σ t p tls Hi He Ht Hlo Hhi.
  - cbn [walk ref_number]. unfold date_number. rewrite Hi, He, le_of_Z.
    replace (t <=? te) with false by (symmetry; apply Z.leb_gt; lia).
    rewrite app_nil_r. reflexivity.
  - assert (Hle : t <= te) by nia.
    change (walk (S (S n)) σ i (Some e) (Fin d) (Some p) tls)
      with (if (date_number σ i <=? ref_number σ (Some e))%num
            then match σ !! i with
                 | Some (Some t) =>
                     walk (S n) (<[i := TimeClip (of_Z t + Fin d)]> σ) i (Some e)
                          (Fin d) (Some t) (tls ++ [label p t])
                 | _ => Returned tls
                 end
            else Returned tls).
    cbn [ref_number]. unfold date_number. rewrite Hi, He, le_of_Z.
    replace (t <=? te) with true by (symmetry; apply Z.leb_le; exact Hle).
    rewrite TimeClip_step by lia.
    rewrite (IH _ (t + Qfloor d)).
    + rewrite <- app_assoc. reflexivity.
    + apply list_lookup_insert_eq. apply (lookup_lt_Some _ _ _ Hi).
    + rewrite list_lookup_insert_ne by exact distinct. exact He.
    + lia.
    + lia.
    + lia.
Qed.

(** The whole walk from the earliest time [t0]: the number of labels is
    the range divided by the clipped step. *)
Lemma walk_from_start (σ : dates) (t0 : Z) :
  σ !! i = Some (Some t0) -> σ !! e = Some (Some te) ->
  0 <= t0 <= te ->
  let n := Z.to_nat ((te - t0) / Qfloor d) in
  walk (S (S n)) σ i (Some e) (Fin d) None []
  = Returned (chain t0 (t0 + Qfloor d) (Qfloor d) n).
Proof.
  intros Hi He Ht n.
  change (walk (S (S n)) σ i (Some e) (Fin d) None [])
    with (if (date_number σ i <=? ref_number σ (Some e))%num
          then match σ !! i with
               | Some (Some t) =>
                   walk (S n) (<[i := TimeClip (of_Z t + Fin d)]> σ) i (Some e)
                        (Fin d) (Some t) []
               | _ => Returned []
               end
          else Returned []).
  cbn [ref_number]. unfold date_number. rewrite Hi, He, le_of_Z.
  replace (t0 <=? te) with true by (symmetry; apply Z.leb_le; lia).
  rewrite TimeClip_step by lia.
  assert (Hn : Z.of_nat n = (te - t0) / Qfloor d).
  { unfold n. apply Z2Nat.id. apply Z.div_pos; lia. }
  pose proof (Z.mul_div_le (te - t0) (Qfloor d)) as Hdiv1.
  pose proof (Z.mul_succ_div_gt (te - t0) (Qfloor d)) as Hdiv2.
  rewrite (walk_chain n _ (t0 + Qfloor d)).
  - reflexivity.
  - apply list_lookup_insert_eq. apply (lookup_lt_Some _ _ _ Hi).
  - rewrite list_lookup_insert_ne by exact distinct. exact He.
  - lia.
  - rewrite Hn. nia.
  - rewrite Hn. nia.
Qed.

End Walk.

(** ** The time range *)

Lemma date_number_Some (ts : list Z) (k : nat) (x : Z) :
  ts !! k = Some x -> date_number (map Some ts) k = of_Z x.
Proof.
  intros H. unfold date_number.
  change (map Some ts) with (Some <$> ts). rewrite list_lookup_fmap, H.
  reflexivity.
Qed.

(** After the first [k] data points, [startTime] and [endTime] refer to
    dates that hold the least and the greatest time seen so far. *)
Lemma time_range_prefix (ts : list Z) (k : nat) :
  (k <= length ts)%nat ->
  match foldl (range_step (map Some ts)) (None, None) (seq 0 k) with
  | (Some s, Some e) =>
      (0 < k)%nat
      /\ exists lo hi : Z,
           ts !! s = Some lo /\ ts !! e = Some hi /\ lo <= hi
           /\ forall (j : nat) (x : Z), (j < k)%nat -> ts !! j = Some x -> lo <= x <= hi
  | (None, None) => k = 0%nat
  | _ => False
  end.
Proof.
  induction k as [|k IH]; intros Hk; [reflexivity|].
  rewrite seq_S, foldl_app. cbn [foldl Nat.add].
  specialize (IH ltac:(lia)).
  destruct (lookup_lt_is_Some_2 ts k ltac:(lia)) as [x Hx].
  destruct (foldl (range_step (map Some ts)) (None, None) (seq 0 k))
    as [[s|] [e|]]; try contradiction.
  - destruct IH as (Hpos & lo & hi & Hs & He & Hlh & Hall).
    unfold range_step. cbn [ref_number].
    rewrite (date_number_Some ts k x Hx), (date_number_Some ts e hi He),
            (date_number_Some ts s lo Hs), gt_of_Z, lt_of_Z.
    assert (Hnew : forall lo' hi', lo' <= lo -> hi <= hi' -> lo' <= x <= hi' ->
              forall j y, (j < S k)%nat -> ts !! j = Some y -> lo' <= y <= hi').
    { intros lo' hi' Hl Hh Hxb j y Hj Hy.
      destruct (decide (j = k)) as [->|Hne].
      - rewrite Hx in Hy. injection Hy as <-. exact Hxb.
      - specialize (Hall j y ltac:(lia) Hy). lia. }
    destruct (hi <? x) eqn:E1, (x <? lo) eqn:E2;
      try apply Z.ltb_lt in E1; try apply Z.ltb_lt in E2;
      try apply Z.ltb_ge in E1; try apply Z.ltb_ge in E2;
      try (split; [lia|]).
    + lia.
    + exists lo, x. split; [exact Hs|]. split; [exact Hx|]. split; [lia|].
      apply Hnew; lia.
    + exists x, hi. split; [exact Hx|]. split; [exact He|]. split; [lia|].
      apply Hnew; lia.
    + exists lo, hi. split; [exact Hs|]. split; [exact He|]. split; [lia|].
      apply Hnew; lia.
  - subst k. unfold range_step. cbn [ref_number].
    rewrite (date_number_Some ts 0 x Hx), gt_of_Z, lt_of_Z, Z.ltb_irrefl.
    split; [lia|]. exists x, x.
    split; [exact Hx|]. split; [exact Hx|]. split; [lia|].
    intros j y Hj Hy. assert (j = 0%nat) as -> by lia.
    rewrite Hx in Hy. injection Hy as <-. lia.
Qed.

Lemma time_range_spec (pts : list Datapoint) (lo hi : Z) :
  (forall p, p ∈ pts -> lo <= Timestamp p <= hi) ->
  (exists p, p ∈ pts /\ Timestamp p = lo) ->
  (exists p, p ∈ pts /\ Timestamp p = hi) ->
  let σ : dates := map (fun p => Some (Timestamp p)) pts in
  exists si ei : nat,
    time_range σ = (Some si, Some ei)
    /\ σ !! si = Some (Some lo) /\ σ !! ei = Some (Some hi).
Proof.
  intros Hall (plo & Hplo & Elo) (phi & Hphi & Ehi) σ.
  set (ts := map Timestamp pts).
  assert (Eσ : σ = map Some ts) by (unfold σ, ts; rewrite map_map; reflexivity).
  assert (Hin : forall j x, ts !! j = Some x -> lo <= x <= hi).
  { intros j x Hj. unfold ts in Hj. change (map Timestamp pts) with (Timestamp <$> pts) in Hj.
    rewrite list_lookup_fmap in Hj.
    destruct (pts !! j) as [p|] eqn:Hp; [|discriminate].
    injection Hj as <-. apply Hall. apply list_elem_of_lookup. eauto. }
  assert (Hmem : forall p, p ∈ pts -> exists j, ts !! j = Some (Timestamp p)).
  { intros p Hp. apply list_elem_of_lookup in Hp as [j Hj]. exists j.
    unfold ts. change (map Timestamp pts) with (Timestamp <$> pts).
    rewrite list_lookup_fmap, Hj. reflexivity. }
  pose proof (time_range_prefix ts (length ts) (le_n _)) as H.
  unfold time_range. rewrite Eσ, length_map.
  destruct (foldl (range_step (map Some ts)) (None, None) (seq 0 (length ts)))
    as [[si|] [ei|]]; try contradiction.
  - destruct H as (_ & lo' & hi' & Hs & He & _ & Hb).
    assert (lo' = lo /\ hi' = hi) as [-> ->].
    { destruct (Hmem plo Hplo) as [jl Hjl]. destruct (Hmem phi Hphi) as [jh Hjh].
      rewrite Elo in Hjl. rewrite Ehi in Hjh.
      pose proof (Hb jl lo (lookup_lt_Some _ _ _ Hjl) Hjl).
      pose proof (Hb jh hi (lookup_lt_Some _ _ _ Hjh) Hjh).
      pose proof (Hin si lo' Hs). pose proof (Hin ei hi' He). lia. }
    exists si, ei. split; [reflexivity|].
    change (map Some ts) with (Some <$> ts).
    rewrite !list_lookup_fmap, Hs, He. split; reflexivity.
  - exfalso. destruct (Hmem plo Hplo) as [jl Hjl].
    apply lookup_lt_Some in Hjl. lia.
Qed.

(** ** Runs that return *)

(** When the chart has [chartSamples = N >= 1] and its data points lie at
    times between 0 and half the largest [Date], span at least [N]
    milliseconds, and no title fails, [getURL] returns: the walk steps by
    the integer part [s] of the range divided by [N] and produces the range
    divided by [s] buckets, each contiguous with the next. *)
Lemma getURL_locals_chain (cfg : ConfigObject) (ms : list Metric) (N lo hi : Z)
    (ts : list value) :
  number_fields cfg !! "chartSamples" = Some N -> 1 <= N ->
  getTitles ms = Returned ts ->
  (forall p, p ∈ all_datapoints ms -> lo <= Timestamp p <= hi) ->
  (exists p, p ∈ all_datapoints ms /\ Timestamp p = lo) ->
  (exists p, p ∈ all_datapoints ms /\ Timestamp p = hi) ->
  0 <= lo -> hi < halfMaxTime -> N <= hi - lo ->
  let s := (hi - lo) / N in
  let n := Z.to_nat ((hi - lo) / s) in
  exists l : Locals,
    getURL_locals (S (S n)) cfg ms = Returned l
    /\ timeLabels l = chain lo (lo + s) s n
    /\ length (labels l) = n
    /\ Forall (fun dataset => length dataset = n) (datasets l).
Proof.
  intros HN HN1 Hts Hall Hlo Hhi H0 Hmax Hspan s n.
  destruct (time_range_spec (all_datapoints ms) lo hi Hall Hlo Hhi)
    as (si & ei & Er & Hsi & Hei). cbv zeta in Er, Hsi, Hei.
  set (σ := map (fun p => Some (Timestamp p)) (all_datapoints ms)) in *.
  assert (Hne : si <> ei).
  { intros E. rewrite E, Hei in Hsi. injection Hsi as E'. lia. }
  set (d := ((inject_Z hi + - inject_Z lo) / inject_Z N)%Q).
  assert (Hd : Qfloor d = s).
  { unfold d, s. rewrite Zdiv_Qdiv. apply Qfloor_comp.
    unfold Zminus. rewrite inject_Z_plus, inject_Z_opp. reflexivity. }
  assert (Hs1 : 1 <= s).
  { unfold s. apply Z.div_le_lower_bound; lia. }
  assert (Hs2 : s <= hi - lo).
  { unfold s. apply Z.div_le_upper_bound; [lia|]. nia. }
  assert (HNq : Qeq_bool (inject_Z N) 0 = false).
  { destruct (Qeq_bool (inject_Z N) 0) eqn:E; [|reflexivity].
    apply Qeq_bool_eq in E. change 0%Q with (inject_Z 0) in E.
    apply (proj1 (inject_Z_injective _ _)) in E. lia. }
  assert (Hwalk : walk (S (S n)) σ si (Some ei) (Fin d) None []
                  = Returned (chain lo (lo + s) s n)).
  { pose proof (walk_from_start si ei hi d Hne) as W.
    rewrite Hd in W. apply W; try assumption; unfold maxTime, halfMaxTime in *; lia. }
  unfold getURL_locals. fold σ. rewrite Er. cbn [ref_number].
  assert (Hdiff : ((of_Z hi - of_Z lo) / of_Z N)%num = Fin d).
  { unfold of_Z, Num.sub, Num.neg, Num.add, Num.div. rewrite HNq. reflexivity. }
  unfold date_number. rewrite Hsi, Hei. unfold read_number. rewrite HN, Hdiff.
  rewrite Hwalk. cbn [mbind outcome_bind].
  destruct (resample ms (chain lo (lo + s) s n)) as [absMax dsets] eqn:Eres.
  rewrite Hts. cbn [mbind outcome_bind].
  eexists. split; [reflexivity|]. cbn [timeLabels labels datasets].
  split; [reflexivity|]. split.
  - rewrite length_map. apply length_chain.
  - pose proof (resample_spec ms (chain lo (lo + s) s n)) as [_ Hsc].
    rewrite Eres in Hsc. simpl in Hsc. subst dsets.
    unfold bucket_scalars. apply Forall_forall. intros ds Hds.
    apply list_elem_of_In, in_map_iff in Hds as (m & <- & _).
    rewrite length_map. apply length_chain.
Qed.

(** In particular, when the range is a positive multiple of [N]
    milliseconds, there are exactly [N] buckets, labels and entries per
    metric. *)
Theorem getURL_exact_bucket_count (cfg : ConfigObject) (ms : list Metric)
    (N lo hi : Z) (ts : list value) :
  number_fields cfg !! "chartSamples" = Some N -> 1 <= N ->
  getTitles ms = Returned ts ->
  (forall p, p ∈ all_datapoints ms -> lo <= Timestamp p <= hi) ->
  (exists p, p ∈ all_datapoints ms /\ Timestamp p = lo) ->
  (exists p, p ∈ all_datapoints ms /\ Timestamp p = hi) ->
  0 <= lo -> hi < halfMaxTime -> lo < hi -> (hi - lo) mod N = 0 ->
  exists (fuel : nat) (l : Locals),
    getURL_locals fuel cfg ms = Returned l
    /\ length (labels l) = Z.to_nat N
    /\ Forall (fun dataset => length dataset = Z.to_nat N) (datasets l)
    /\ Forall (fun code => String.length code = (2 * Z.to_nat N)%nat)
              (datasetsAsStrings l).
Proof.
  intros HN HN1 Hts Hall Hlo Hhi H0 Hmax Hlt Hmod.
  assert (Hs : hi - lo = N * ((hi - lo) / N)).
  { rewrite (Z.div_mod (hi - lo) N) at 1 by lia. lia. }
  assert (Hs1 : 1 <= (hi - lo) / N) by nia.
  assert (Hspan : N <= hi - lo) by nia.
  destruct (getURL_locals_chain cfg ms N lo hi ts HN HN1 Hts Hall Hlo Hhi H0 Hmax Hspan)
    as (l & Hl & _ & Hlab & Hds).
  assert (Hn : (hi - lo) / ((hi - lo) / N) = N).
  { set (q := (hi - lo) / N) in *. rewrite Hs. apply Z.div_mul. lia. }
  rewrite Hn in Hl, Hlab, Hds.
  eexists _, l. split; [exact Hl|]. split; [exact Hlab|]. split; [exact Hds|].
  destruct (getURL_locals_scalars _ _ _ _ Hl) as (_ & _ & Hstr).
  rewrite Hstr. apply Forall_forall. intros code Hc.
  apply list_elem_of_In, in_map_iff in Hc as (ds & <- & Hin).
  rewrite extendedEncode_codes, length_codes, length_map.
  rewrite Forall_forall in Hds.
  rewrite (Hds ds (proj2 (list_elem_of_In _ _) Hin)). reflexivity.
Qed.

(** * Further properties of the code *)

(** ** Runs of [getURL]: when it returns, hangs or throws *)

(** [getURL] returns, for data between the epoch and half the largest date
    that spans at least [chartSamples = N >= 1] milliseconds: the loop over
    the boundaries ends.  The buckets are contiguous and start at the
    earliest time; with [s] the integer part of the range divided by [N],
    every bucket is [s] or [s + 1] milliseconds wide and ends by the latest
    time, and the last one ends less than [s + 1] milliseconds before it;
    so there are between [(N - 1) / 2] and [2 * N] of them.  (The width is
    stated with the millisecond of slack that the rounding of the sum
    [i.getTime() + diff] can add in the code; in this development, where
    the sum is exact, it is [s].) *)
Theorem getURL_returns (cfg : ConfigObject) (ms : list Metric) (N lo hi : Z)
    (ts : list value) :
  number_fields cfg !! "chartSamples" = Some N -> 1 <= N ->
  getTitles ms = Returned ts ->
  (forall p, p ∈ all_datapoints ms -> lo <= Timestamp p <= hi) ->
  (exists p, p ∈ all_datapoints ms /\ Timestamp p = lo) ->
  (exists p, p ∈ all_datapoints ms /\ Timestamp p = hi) ->
  0 <= lo -> hi < halfMaxTime -> N <= hi - lo ->
  let s := (hi - lo) / N in
  exists (fuel : nat) (l : Locals),
    getURL_locals fuel cfg ms = Returned l
    /\ timeLabels l <> []
    /\ Z.of_nat (length (timeLabels l)) <= 2 * N
    /\ N <= 2 * Z.of_nat (length (timeLabels l)) + 1
    /\ (forall tl, timeLabels l !! 0%nat = Some tl -> start tl = lo)
    /\ (forall (k : nat) (tl tl' : TimeLabel),
          timeLabels l !! k = Some tl -> timeLabels l !! S k = Some tl' ->
          start tl' = finish tl)
    /\ (forall tl, tl ∈ timeLabels l ->
          s <= finish tl - start tl <= s + 1 /\ finish tl <= hi)
    /\ (forall tl, last (timeLabels l) = Some tl -> hi - finish tl <= s)
    /\ length (labels l) = length (timeLabels l)
    /\ Forall (fun dataset => length dataset = length (timeLabels l)) (datasets l).
Proof.
  intros HN HN1 Hts Hall Hlo Hhi H0 Hmax Hspan s.
  destruct (getURL_locals_chain cfg ms N lo hi ts HN HN1 Hts Hall Hlo Hhi H0 Hmax Hspan)
    as (l & Hl & Htl & Hlab & Hds). fold s in Hl, Htl, Hlab, Hds.
  assert (Hs1 : 1 <= s) by (unfold s; apply Z.div_le_lower_bound; lia).
  assert (Hs2 : s <= hi - lo) by (unfold s; apply Z.div_le_upper_bound; [lia|nia]).
  assert (HsN : N * s <= hi - lo) by (unfold s; apply Z.mul_div_le; lia).
  assert (HsN' : hi - lo < N * s + N).
  { pose proof (Z.div_mod (hi - lo) N ltac:(lia)) as Hdm.
    pose proof (Z.mod_pos_bound (hi - lo) N ltac:(lia)) as Hmb. fold s in Hdm. lia. }
  set (n := Z.to_nat ((hi - lo) / s)) in *.
  assert (Hn : Z.of_nat n = (hi - lo) / s).
  { unfold n. apply Z2Nat.id. apply Z.div_pos; lia. }
  assert (Hns : Z.of_nat n * s <= hi - lo).
  { rewrite Hn, Z.mul_comm. apply Z.mul_div_le. lia. }
  assert (Hns' : hi - lo < Z.of_nat n * s + s).
  { pose proof (Z.div_mod (hi - lo) s ltac:(lia)) as Hdm.
    pose proof (Z.mod_pos_bound (hi - lo) s ltac:(lia)) as Hmb.
    rewrite <- Hn in Hdm. lia. }
  assert (Hlen : length (timeLabels l) = n) by (rewrite Htl; apply length_chain).
  assert (HnN : N <= Z.of_nat n).
  { rewrite Hn. apply Z.div_le_lower_bound; lia. }
  assert (Hn2 : Z.of_nat n <= 2 * N).
  { rewrite Hn. apply Z.div_le_upper_bound; [lia|]. nia. }
  exists (S (S n)), l. split; [exact Hl|]. rewrite Hlen.
  split; [|split; [exact Hn2|split; [lia|]]].
  { intros E. rewrite E in Hlen. simpl in Hlen. lia. }
  split; [|split; [|split; [|split; [|split]]]].
  - intros tl Htl0. rewrite Htl in Htl0. apply lookup_chain in Htl0 as [_ Hst].
    exact Hst.
  - intros k tl tl' Hk Hk'. rewrite Htl in Hk, Hk'.
    apply lookup_chain in Hk as [Hf _], Hk' as [_ Hst'].
    rewrite Hf, Hst'. lia.
  - intros tl Hin. rewrite Htl in Hin.
    apply list_elem_of_lookup in Hin as [j Hj].
    pose proof (lookup_lt_Some _ _ _ Hj) as Hjn. rewrite length_chain in Hjn.
    apply lookup_chain in Hj as [Hf Hst]. rewrite Hf, Hst.
    destruct j as [|j]; split; nia.
  - intros tl Hlast. rewrite last_lookup, Hlen in Hlast. rewrite Htl in Hlast.
    apply lookup_chain in Hlast as [Hf _]. rewrite Hf.
    assert (Z.of_nat (Nat.pred n) = Z.of_nat n - 1) as -> by lia. nia.
  - exact Hlab.
  - exact Hds.
Qed.

Lemma sample_metric_times (p : Datapoint) :
  p ∈ all_datapoints [sample_metric] -> 0 <= Timestamp p <= 3600000.
Proof.
  intros Hp. apply list_elem_of_In in Hp. simpl in Hp.
  destruct Hp as [<-|[<-|[<-|[]]]]; simpl; lia.
Qed.

Lemma sample_metric_first :
  exists p, p ∈ all_datapoints [sample_metric] /\ Timestamp p = 0.
Proof. eexists. split; [left|reflexivity]. Qed.

Lemma sample_metric_last :
  exists p, p ∈ all_datapoints [sample_metric] /\ Timestamp p = 3600000.
Proof. eexists. split; [right; right; left|reflexivity]. Qed.

Lemma getURL_returns_witness :
  exists (fuel : nat) (l : Locals),
    getURL_locals fuel (sample_config 2) [sample_metric] = Returned l
    /\ timeLabels l <> []
    /\ Z.of_nat (length (timeLabels l)) <= 2 * 2
    /\ 2 <= 2 * Z.of_nat (length (timeLabels l)) + 1
    /\ (forall tl, timeLabels l !! 0%nat = Some tl -> start tl = 0)
    /\ (forall (k : nat) (tl tl' : TimeLabel),
          timeLabels l !! k = Some tl -> timeLabels l !! S k = Some tl' ->
          start tl' = finish tl)
    /\ (forall tl, tl ∈ timeLabels l ->
          (3600000 - 0) / 2 <= finish tl - start tl <= (3600000 - 0) / 2 + 1
          /\ finish tl <= 3600000)
    /\ (forall tl, last (timeLabels l) = Some tl ->
          3600000 - finish tl <= (3600000 - 0) / 2)
    /\ length (labels l) = length (timeLabels l)
    /\ Forall (fun dataset => length dataset = length (timeLabels l)) (datasets l).
Proof.
  apply (getURL_returns (sample_config 2) [sample_metric] 2 0 3600000 [VStr ""]);
    try reflexivity; try lia.
  - apply sample_metric_times.
  - apply sample_metric_first.
  - apply sample_metric_last.
Defined.

Lemma getURL_exact_bucket_count_witness :
  exists (fuel : nat) (l : Locals),
    getURL_locals fuel (sample_config 2) [sample_metric] = Returned l
    /\ length (labels l) = 2%nat
    /\ Forall (fun dataset => length dataset = 2%nat) (datasets l)
    /\ Forall (fun code => String.length code = 4%nat) (datasetsAsStrings l).
Proof.
  apply (getURL_exact_bucket_count (sample_config 2) [sample_metric] 2 0 3600000
           [VStr ""]);
    try reflexivity; try lia.
  - apply sample_metric_times.
  - apply sample_metric_first.
  - apply sample_metric_last.
Defined.

(** When every data point of the chart carries the same time stamp (a
    single data point, for instance) and [chartSamples] is not zero, the
    step of the walk is zero and [getURL] never returns. *)
Theorem getURL_single_instant_diverges (fuel : nat) (cfg : ConfigObject)
    (ms : list Metric) (N t : Z) :
  number_fields cfg !! "chartSamples" = Some N -> N <> 0 ->
  (exists p, p ∈ all_datapoints ms) ->
  (forall p, p ∈ all_datapoints ms -> Timestamp p = t) ->
  - maxTime <= t <= maxTime ->
  getURL_locals fuel cfg ms = OutOfFuel.
Proof.
  intros HN HN0 (p0 & Hp0) Hsame Ht.
  destruct (time_range_spec (all_datapoints ms) t t) as (si & ei & Er & Hsi & Hei).
  - intros p Hp. rewrite (Hsame p Hp). lia.
  - exists p0. split; [exact Hp0 | apply Hsame, Hp0].
  - exists p0. split; [exact Hp0 | apply Hsame, Hp0].
  - cbv zeta in Er, Hsi, Hei. unfold getURL_locals.
    set (σ := map (fun p => Some (Timestamp p)) (all_datapoints ms)) in *.
    rewrite Er. cbn [ref_number]. unfold date_number. rewrite Hsi, Hei.
    unfold read_number. rewrite HN.
    rewrite (walk_stuck fuel σ si (Some ei) _ t None []); [reflexivity | exact Hsi | | ].
    + cbn [ref_number]. unfold date_number. rewrite Hsi, Hei, le_of_Z.
      apply Z.leb_refl.
    + unfold of_Z, Num.sub, Num.neg, Num.add, Num.div.
      assert (HNq : Qeq_bool (inject_Z N) 0 = false).
      { destruct (Qeq_bool (inject_Z N) 0) eqn:E; [|reflexivity].
        apply Qeq_bool_eq in E. change 0%Q with (inject_Z 0) in E.
        apply (proj1 (inject_Z_injective _ _)) in E. contradiction. }
      rewrite HNq. apply TimeClip_same; [unfold maxTime in Ht; lia|].
      field. intros E. change 0%Q with (inject_Z 0) in E.
      apply (proj1 (inject_Z_injective _ _)) in E. contradiction.
Qed.

Lemma getURL_single_instant_diverges_witness :
  getURL_locals 1000 (sample_config 24)
    [receive AwsCloudWatchChartMetric
       [point 1500000000000 None (Some 1%Q); point 1500000000000 None (Some 2%Q)]]
  = OutOfFuel.
Proof.
  apply (getURL_single_instant_diverges 1000 (sample_config 24) _ 24 1500000000000);
    try reflexivity; try discriminate.
  - eexists. left.
  - intros p Hp. apply list_elem_of_In in Hp. simpl in Hp.
    destruct Hp as [<-|[<-|[]]]; reflexivity.
  - unfold maxTime. lia.
Defined.

Lemma getURL_locals_no_data (fuel : nat) (cfg : ConfigObject) (ms : list Metric) :
  all_datapoints ms = [] ->
  getURL_locals fuel cfg ms = Threw (TypeError "i.getTime is not a function").
Proof.
  intros H. unfold getURL_locals. rewrite H. reflexivity.
Qed.

(** With no data point at all, in any metric, [getURL] throws the
    [TypeError] of calling [getTime] on [false], whatever the configuration
    and however much fuel it is given. *)
Theorem getURL_no_data_throws (fuel : nat) (σ : store) (this : Chart) :
  all_datapoints (metrics this) = [] ->
  getURL fuel σ this = Threw (TypeError "i.getTime is not a function").
Proof.
  intros H. unfold getURL. rewrite (getURL_locals_no_data _ _ _ H). reflexivity.
Qed.

Lemma getURL_no_data_throws_witness :
  getURL 10 (sample_store 24)
    {| metrics := [AwsCloudWatchChartMetric; AwsCloudWatchChartMetric];
       config := 1%positive |}
  = Threw (TypeError "i.getTime is not a function").
Proof. apply getURL_no_data_throws. reflexivity. Defined.

(** ** Which data points the buckets count *)

Lemma counted_nil (x : Datapoint) : ~ counted [] x.
Proof. intros (tl & Hin & _). inversion Hin. Qed.

Lemma counted_cons (tl : TimeLabel) (tls : list TimeLabel) (x : Datapoint) :
  counted (tl :: tls) x <-> in_label tl x = true \/ counted tls x.
Proof.
  unfold counted. split.
  - intros (tl' & Hin & Hx). apply elem_of_cons in Hin as [-> | Hin];
      [left; exact Hx | right; eauto].
  - intros [Hx | (tl' & Hin & Hx)]; [exists tl; split; [left | exact Hx]|].
    exists tl'. split; [right; exact Hin | exact Hx].
Qed.

Lemma counted_chain (p t s : Z) (n : nat) (x : Datapoint) :
  p <= t -> 0 <= s ->
  counted (chain p t s n) x
  <-> (0 < n)%nat /\ p < Timestamp x <= t + (Z.of_nat n - 1) * s.
Proof.
  revert p t. induction n as [|n IH]; intros p t Hpt Hs.
  - simpl. split; [intros H; destruct (counted_nil x H) | intros [H _]; lia].
  - cbn [chain]. rewrite counted_cons, (IH t (t + s)) by lia.
    rewrite in_label_iff. cbn [start finish label]. split.
    + intros [H | [Hn H]]; (split; [lia|]); nia.
    + intros [_ H]. destruct (Z.le_gt_cases (Timestamp x) t) as [Hle|Hgt];
        [left; lia | right].
      destruct n as [|n]; [simpl in H; lia|]. split; [lia|]. nia.
Qed.


(** When the run returns as above, a data point is counted in one bucket
    at most, and only if its time lies after the earliest time: the
    earliest data point of the chart is counted in no bucket.  With [s] the
    integer part of the range divided by [N], every point after the
    earliest time and not within [s] milliseconds of the latest is counted;
    a later one may be left out, as the latest point is in the run of
    the witness.  When [N] divides the range, every point after the
    earliest time is counted. *)
Theorem getURL_counted_points (cfg : ConfigObject) (ms : list Metric) (N lo hi : Z)
    (ts : list value) :
  number_fields cfg !! "chartSamples" = Some N -> 1 <= N ->
  getTitles ms = Returned ts ->
  (forall p, p ∈ all_datapoints ms -> lo <= Timestamp p <= hi) ->
  (exists p, p ∈ all_datapoints ms /\ Timestamp p = lo) ->
  (exists p, p ∈ all_datapoints ms /\ Timestamp p = hi) ->
  0 <= lo -> hi < halfMaxTime -> N <= hi - lo ->
  let s := (hi - lo) / N in
  exists (fuel : nat) (l : Locals),
    getURL_locals fuel cfg ms = Returned l
    /\ (forall p, counted (timeLabels l) p -> lo < Timestamp p <= hi)
    /\ (forall p, lo < Timestamp p <= hi - s -> counted (timeLabels l) p)
    /\ (forall (j k : nat) (tl tl' : TimeLabel) (p : Datapoint),
          timeLabels l !! j = Some tl -> timeLabels l !! k = Some tl' ->
          in_label tl p = true -> in_label tl' p = true -> j = k)
    /\ (forall p, Timestamp p = lo -> ~ counted (timeLabels l) p)
    /\ ((hi - lo) mod N = 0 ->
        forall p, lo < Timestamp p <= hi -> counted (timeLabels l) p).
Proof.
  intros HN HN1 Hts Hall Hlo Hhi H0 Hmax Hspan s.
  destruct (getURL_locals_chain cfg ms N lo hi ts HN HN1 Hts Hall Hlo Hhi H0 Hmax Hspan)
    as (l & Hl & Htl & _). fold s in Hl, Htl.
  assert (Hs1 : 1 <= s) by (unfold s; apply Z.div_le_lower_bound; lia).
  assert (Hs2 : s <= hi - lo) by (unfold s; apply Z.div_le_upper_bound; [lia|nia]).
  set (n := Z.to_nat ((hi - lo) / s)) in *.
  assert (Hn : Z.of_nat n = (hi - lo) / s).
  { unfold n. apply Z2Nat.id. apply Z.div_pos; lia. }
  assert (Hn1 : 1 <= (hi - lo) / s) by (apply Z.div_le_lower_bound; lia).
  pose proof (Z.div_mod (hi - lo) s ltac:(lia)) as Hdm.
  pose proof (Z.mod_pos_bound (hi - lo) s ltac:(lia)) as Hmb.
  assert (Hcount : forall p, counted (timeLabels l) p
                             <-> lo < Timestamp p <= lo + (hi - lo) / s * s).
  { intros p. rewrite Htl, counted_chain by lia. rewrite Hn. split.
    - intros [_ H]. nia.
    - intros H. split; [lia | nia]. }
  exists (S (S n)), l. split; [exact Hl|].
  split; [|split; [|split; [|split]]].
  - intros p Hc. apply Hcount in Hc. nia.
  - intros p Hp. apply Hcount. nia.
  - intros j k tl tl' p Hj Hk Hin Hin'. rewrite Htl in Hj, Hk.
    apply lookup_chain in Hj as [Hf Hs], Hk as [Hf' Hs'].
    apply in_label_iff in Hin, Hin'.
    rewrite Hf, Hs in Hin. rewrite Hf', Hs' in Hin'.
    destruct (Nat.lt_trichotomy j k) as [Hlt | [Heq | Hgt]]; [exfalso|exact Heq|exfalso].
    + destruct k as [|k]; [lia|]. destruct j; nia.
    + destruct j as [|j]; [lia|]. destruct k; nia.
  - intros p Hp Hc. apply Hcount in Hc. lia.
  - intros Hmod p Hp. apply Hcount.
    assert (hi - lo = N * s) as E.
    { unfold s. pose proof (Z.div_mod (hi - lo) N ltac:(lia)). lia. }
    assert ((hi - lo) / s = N) as ->.
    { rewrite E at 1. apply Z.div_mul. lia. }
    lia.
Qed.

Lemma getURL_counted_points_witness :
  let ms := [receive AwsCloudWatchChartMetric
               [point 0 None (Some 1%Q); point 100 None (Some 2%Q)]] in
  exists (fuel : nat) (l : Locals),
    getURL_locals fuel (sample_config 7) ms = Returned l
    /\ (forall p, counted (timeLabels l) p -> 0 < Timestamp p <= 100)
    /\ (forall p, 0 < Timestamp p <= 100 - (100 - 0) / 7 -> counted (timeLabels l) p)
    /\ (forall (j k : nat) (tl tl' : TimeLabel) (p : Datapoint),
          timeLabels l !! j = Some tl -> timeLabels l !! k = Some tl' ->
          in_label tl p = true -> in_label tl' p = true -> j = k)
    /\ (forall p, Timestamp p = 0 -> ~ counted (timeLabels l) p)
    /\ ((100 - 0) mod 7 = 0 ->
        forall p, 0 < Timestamp p <= 100 -> counted (timeLabels l) p).
Proof.
  intros ms.
  apply (getURL_counted_points (sample_config 7) ms 7 0 100 [VStr ""]);
    try reflexivity; try lia.
  - intros p Hp. apply list_elem_of_In in Hp. simpl in Hp.
    destruct Hp as [<-|[<-|[]]]; simpl; lia.
  - eexists. split; [left|reflexivity].
  - eexists. split; [right; left|reflexivity].
Defined.

(** ** The encoder: markers, decoding, concatenation *)

Lemma position_alphabet (k : Z) : 0 <= k < 64 -> position (alphabet k) = Some k.
Proof.
  intros Hk.
  assert (exists n : nat, k = Z.of_nat n /\ (n < 64)%nat) as (n & -> & Hn).
  { exists (Z.to_nat k). lia. }
  do 64 (destruct n as [|n]; [reflexivity|]). lia.
Qed.

Lemma decode_digit_pair (z : Z) : 0 <= z <= 4095 -> decode_pair (digit_pair z) = Some z.
Proof.
  intros Hz. unfold decode_pair, digit_pair.
  rewrite !position_alphabet.
  - f_equal. pose proof (Z.div_mod z 64). lia.
  - pose proof (Z.mod_pos_bound z 64). lia.
  - split; [apply Z.div_pos; lia | apply Z.div_lt_upper_bound; lia].
Qed.

Lemma encodeValue_finite (M v : Q) :
  (0 < M)%Q ->
  encodeValue (Fin M) (Fin v)
  = let z := Qfloor (4096 * v / M) in
    if 4095 <? z then ".." else if z <? 0 then "__" else digit_pair z.
Proof.
  intros HM. pose proof (encodeValue_of_scaled (Fin M) (Fin v)) as H.
  rewrite (scaledVal_finite v M HM) in H. destruct H as (z & Ez & ->).
  apply (f_equal Qfloor) in Ez. rewrite !Qfloor_Z in Ez. subst z. reflexivity.
Qed.

Lemma floor_ge (x : Q) (k : Z) : k <= Qfloor x <-> (inject_Z k <= x)%Q.
Proof.
  split.
  - intros H. apply Qle_trans with (inject_Z (Qfloor x)); [|apply Qfloor_le].
    rewrite <- Zle_Qle. exact H.
  - intros H. rewrite <- (Qfloor_Z k). apply Qfloor_resp_le, H.
Qed.

Lemma scaled_ge (M v : Q) (k : Z) :
  (0 < M)%Q ->
  k <= Qfloor (4096 * v / M) <-> (inject_Z k * M <= 4096 * v)%Q.
Proof.
  intros HM. rewrite floor_ge. split; intros H.
  - apply (Qmult_le_compat_r _ _ M) in H; [|apply Qlt_le_weak, HM].
    assert (E : (4096 * v / M * M == 4096 * v)%Q).
    { field. intros E. rewrite E in HM. exact (Qlt_irrefl _ HM). }
    rewrite E in H. exact H.
  - apply Qle_shift_div_l; assumption.
Qed.

(** The markers, by the scaled integer [z] that [extendedEncode] computes
    for a value: the underflow marker ["__"] is written exactly when [z] is
    negative, and [".."] exactly when [z] is at least 4095: [".."] is both
    the overflow marker and the digit pair of 4095, the largest scaled
    integer in range, so the two cannot be told apart in the output.  When
    the scaled value is not finite, [+Infinity] gives [".."], [-Infinity]
    gives ["__"] and NaN gives ["AA"], the pair of 0. *)
Theorem encodeValue_markers (maxVal v : number) :
  (forall z : Z, scaledVal v maxVal = of_Z z ->
     (encodeValue maxVal v = "__" <-> z < 0)
     /\ (encodeValue maxVal v = ".." <-> 4095 <= z))
  /\ (scaledVal v maxVal = PInf -> encodeValue maxVal v = "..")
  /\ (scaledVal v maxVal = NInf -> encodeValue maxVal v = "__")
  /\ (scaledVal v maxVal = NaN -> encodeValue maxVal v = "AA").
Proof.
  pose proof (encodeValue_of_scaled maxVal v) as H.
  split; [|split; [|split]]; intros; try (rewrite H0 in H; exact H).
  rewrite H0 in H. unfold of_Z in H. destruct H as (z' & Ez & ->).
  apply (f_equal Qnum) in Ez. simpl in Ez. subst z'.
  destruct (4095 <? z) eqn:E1; [apply Z.ltb_lt in E1 | apply Z.ltb_ge in E1].
  - split; split; try discriminate; try lia. reflexivity.
  - destruct (z <? 0) eqn:E2; [apply Z.ltb_lt in E2 | apply Z.ltb_ge in E2].
    + split; split; try discriminate; try lia. reflexivity.
    + pose proof (decode_digit_pair z ltac:(lia)) as Hd. split; split.
      * intros E. rewrite E in Hd. discriminate.
      * lia.
      * intros E. rewrite E in Hd. injection Hd as Hd. lia.
      * intros Hz. assert (z = 4095) as -> by lia. reflexivity.
Qed.



Lemma codes_app (maxVal : number) (l1 l2 : list number) :
  codes maxVal (l1 ++ l2) = codes maxVal l1 +:+ codes maxVal l2.
Proof.
  induction l1 as [|v l1 IH]; [reflexivity|].
  simpl. rewrite IH. symmetry. apply append_assoc.
Qed.

(** Encoding a concatenation is concatenating the encodings: a value is
    encoded without regard to its neighbours. *)
Theorem extendedEncode_app (l1 l2 : list number) (maxVal : number) :
  extendedEncode (l1 ++ l2) maxVal
  = extendedEncode l1 maxVal +:+ extendedEncode l2 maxVal.
Proof. rewrite !extendedEncode_codes. apply codes_app. Qed.

(** ** What every returning run of [getURL] keeps *)

Lemma getTitles_length (ms : list Metric) (ts : list value) :
  getTitles ms = Returned ts -> length ts = length ms.
Proof.
  revert ts. induction ms as [|m ms IH]; intros ts; simpl.
  - intros [= <-]. reflexivity.
  - destruct (getTitle m) as [t| |]; simpl; try discriminate.
    destruct (getTitles ms) as [ts'| |]; simpl; try discriminate.
    intros [= <-]. simpl. rewrite (IH ts' eq_refl). reflexivity.
Qed.

Lemma getTitles_lookup (ms : list Metric) (ts : list value) (k : nat) (m : Metric) :
  getTitles ms = Returned ts -> ms !! k = Some m ->
  exists t : value, ts !! k = Some t /\ getTitle m = Returned t.
Proof.
  revert ts k. induction ms as [|m0 ms IH]; intros ts k; simpl; [discriminate|].
  destruct (getTitle m0) as [t0| |] eqn:E0; simpl; try discriminate.
  destruct (getTitles ms) as [ts'| |]; simpl; try discriminate.
  intros [= <-] Hk. destruct k as [|k].
  - injection Hk as <-. exists t0. split; [reflexivity | exact E0].
  - apply (IH ts' k eq_refl Hk).
Qed.

(** The sequences a URL is assembled from are aligned with the metrics, in
    their order: at the position of each metric stand the bucket scalars of
    that metric, one per bucket label, their encoding against the ceiling,
    two characters per label, the title [getTitle] gives for it, its colour
    and its line style; and no sequence is longer than the metrics. *)
Theorem getURL_aligned (fuel : nat) (cfg : ConfigObject) (ms : list Metric) (l : Locals) :
  getURL_locals fuel cfg ms = Returned l ->
  (forall (k : nat) (m : Metric),
     ms !! k = Some m ->
     exists (dataset : list Q) (t : value),
       datasets l !! k = Some dataset
       /\ dataset = map (toPush m) (timeLabels l)
       /\ length dataset = length (labels l)
       /\ datasetsAsStrings l !! k
          = Some (extendedEncode (map Fin dataset) (of_Z (topEdge l)))
       /\ String.length (extendedEncode (map Fin dataset) (of_Z (topEdge l)))
          = (2 * length (labels l))%nat
       /\ titles l !! k = Some t /\ getTitle m = Returned t
       /\ colors l !! k = Some (color m)
       /\ styles l !! k = Some (style m))
  /\ length (datasets l) = length ms
  /\ length (datasetsAsStrings l) = length ms
  /\ length (titles l) = length ms
  /\ length (colors l) = length ms
  /\ length (styles l) = length ms.
Proof.
  intros H. pose proof (getURL_locals_scalars fuel cfg ms l H) as (Hd & _ & Hs).
  apply getURL_locals_Returned in H.
  destruct H as (Hlab & _ & _ & _ & _ & Ht & Hc & Hst).
  split.
  - intros k m Hk.
    destruct (getTitles_lookup ms (titles l) k m Ht Hk) as (t & Htk & Hgt).
    exists (map (toPush m) (timeLabels l)), t.
    assert (datasets l !! k = Some (map (toPush m) (timeLabels l))) as Hdk.
    { rewrite Hd. unfold bucket_scalars. rewrite list_lookup_fmap, Hk. reflexivity. }
    split; [exact Hdk|]. split; [reflexivity|].
    split; [rewrite Hlab, !length_map; reflexivity|].
    split; [rewrite Hs, list_lookup_fmap, Hdk; reflexivity|].
    split; [rewrite extendedEncode_codes, length_codes, Hlab, !length_map; reflexivity|].
    split; [exact Htk|]. split; [exact Hgt|].
    split; [rewrite Hc | rewrite Hst]; rewrite list_lookup_fmap, Hk; reflexivity.
  - split; [rewrite Hd; unfold bucket_scalars; apply length_map|].
    split; [rewrite Hs, length_map, Hd; unfold bucket_scalars; apply length_map|].
    split; [apply getTitles_length, Ht|].
    split; [rewrite Hc | rewrite Hst]; apply length_map.
Qed.

Lemma getURL_aligned_witness :
  exists l : Locals,
    getURL_locals 4 (sample_config 2) [sample_metric] = Returned l
    /\ (forall (k : nat) (m : Metric),
          [sample_metric] !! k = Some m ->
          exists (dataset : list Q) (t : value),
            datasets l !! k = Some dataset
            /\ dataset = map (toPush m) (timeLabels l)
            /\ length dataset = length (labels l)
            /\ datasetsAsStrings l !! k
               = Some (extendedEncode (map Fin dataset) (of_Z (topEdge l)))
            /\ String.length (extendedEncode (map Fin dataset) (of_Z (topEdge l)))
               = (2 * length (labels l))%nat
            /\ titles l !! k = Some t /\ getTitle m = Returned t
            /\ colors l !! k = Some (color m)
            /\ styles l !! k = Some (style m))
    /\ length (datasets l) = length [sample_metric]
    /\ length (datasetsAsStrings l) = length [sample_metric]
    /\ length (titles l) = length [sample_metric]
    /\ length (colors l) = length [sample_metric]
    /\ length (styles l) = length [sample_metric].
Proof.
  eexists. split; [vm_compute; reflexivity|].
  apply (getURL_aligned 4 (sample_config 2) [sample_metric]). vm_compute. reflexivity.
Defined.

(** The ceiling is never negative and no bucket scalar exceeds it.  When it
    is positive every scalar is strictly below it, so no value of a run
    takes the overflow branch of the encoder: a scalar that is not negative
    is written as the digit pair of a scaled integer between 0 and 4095, and
    a negative one as ["__"]. *)
Theorem getURL_no_overflow (fuel : nat) (cfg : ConfigObject) (ms : list Metric) (l : Locals) :
  getURL_locals fuel cfg ms = Returned l ->
  0 <= topEdge l
  /\ (forall dataset v, dataset ∈ datasets l -> v ∈ dataset ->
        (v <= inject_Z (topEdge l))%Q)
  /\ (0 < topEdge l ->
      forall dataset v, dataset ∈ datasets l -> v ∈ dataset ->
        ((0 <= v)%Q ->
           exists z : Z, 0 <= z <= 4095
             /\ encodeValue (of_Z (topEdge l)) (Fin v) = digit_pair z)
        /\ ((v < 0)%Q -> encodeValue (of_Z (topEdge l)) (Fin v) = "__")).
Proof.
  intros H. pose proof (getURL_locals_scalars fuel cfg ms l H) as (Hd & Hc & _).
  set (A := largest_with 0 (concat (bucket_scalars ms (timeLabels l)))) in *.
  assert (HA0 : (0 <= A)%Q) by apply largest_with_ge.
  assert (HvA : forall dataset v, dataset ∈ datasets l -> v ∈ dataset -> (v <= A)%Q).
  { intros ds v Hds Hv. apply largest_with_upper. rewrite <- Hd.
    apply list_elem_of_In, in_concat. exists ds.
    split; apply list_elem_of_In; assumption. }
  pose proof (Qle_ceiling (A * 1.2)) as Hceil. rewrite <- Hc in Hceil.
  change 1.2%Q with (12 # 10)%Q in Hceil.
  assert (Htop0 : 0 <= topEdge l).
  { rewrite Hc. rewrite <- (Qceiling_Z 0). apply Qceiling_resp_le.
    change (inject_Z 0) with 0%Q. change 1.2%Q with (12 # 10)%Q. lra. }
  split; [exact Htop0|]. split.
  - intros ds v Hds Hv. specialize (HvA ds v Hds Hv). lra.
  - intros Htop ds v Hds Hv. specialize (HvA ds v Hds Hv).
    assert (HtopQ : (0 < inject_Z (topEdge l))%Q).
    { change 0%Q with (inject_Z 0). rewrite <- Zlt_Qlt. exact Htop. }
    assert (Hlt : (v < inject_Z (topEdge l))%Q).
    { destruct (Qlt_le_dec 0 A) as [HA|HA]; [lra|].
      exfalso. assert (EA : (A == 0)%Q) by lra.
      assert (Ez : topEdge l = 0).
      { rewrite Hc. rewrite <- (Qceiling_Z 0). apply Qceiling_comp.
        rewrite EA. reflexivity. }
      lia. }
    unfold of_Z. rewrite (encodeValue_finite _ v HtopQ). cbv zeta.
    pose proof (scaled_ge (inject_Z (topEdge l)) v 0 HtopQ) as H0.
    pose proof (scaled_ge (inject_Z (topEdge l)) v 4096 HtopQ) as H2.
    change (inject_Z 0) with 0%Q in H0. change (inject_Z 4096) with 4096%Q in H2.
    set (z := Qfloor (4096 * v / inject_Z (topEdge l))) in *.
    assert (Hz1 : z <= 4095).
    { apply Z.lt_succ_r, Z.nle_gt. intros Hz. apply H2 in Hz. lra. }
    replace (4095 <? z) with false by (symmetry; apply Z.ltb_ge; lia).
    split.
    + intros Hv0. assert (Hz0 : 0 <= z) by (apply H0; lra).
      replace (z <? 0) with false by (symmetry; apply Z.ltb_ge; lia).
      exists z. split; [lia | reflexivity].
    + intros Hv0. assert (Hz0 : z < 0).
      { apply Z.nle_gt. intros Hz. apply H0 in Hz. lra. }
      replace (z <? 0) with true by (symmetry; apply Z.ltb_lt; lia).
      reflexivity.
Qed.

Lemma getURL_no_overflow_witness :
  exists l : Locals,
    getURL_locals 4 (sample_config 2) [sample_metric] = Returned l
    /\ 0 <= topEdge l
    /\ (forall dataset v, dataset ∈ datasets l -> v ∈ dataset ->
          (v <= inject_Z (topEdge l))%Q)
    /\ (0 < topEdge l ->
        forall dataset v, dataset ∈ datasets l -> v ∈ dataset ->
          ((0 <= v)%Q ->
             exists z : Z, 0 <= z <= 4095
               /\ encodeValue (of_Z (topEdge l)) (Fin v) = digit_pair z)
          /\ ((v < 0)%Q -> encodeValue (of_Z (topEdge l)) (Fin v) = "__")).
Proof.
  eexists. split; [vm_compute; reflexivity|].
  apply (getURL_no_overflow 4 (sample_config 2) [sample_metric]). vm_compute. reflexivity.
Defined.

(** ** The constructor: messages, metrics, order *)

Lemma assign_param_message (m : Metric) (k : string) (v : value) :
  (is_recognized k = true /\ exists m', assign_param m k v = Returned m')
  \/ (is_recognized k = false
      /\ assign_param m k v = Threw (Error ("Unknown parameter: " +:+ k))).
Proof.
  unfold is_recognized.
  destruct (assign_param_outcome m k v) as [[Hk Hr] | [Hk [e He]]].
  - left. split; [apply bool_decide_eq_true_2, Hk | exact Hr].
  - right. split; [apply bool_decide_eq_false_2, Hk|].
    revert He. unfold assign_param.
    repeat match goal with
           | |- context [String.eqb (toLowerCase k) ?w] =>
               destruct (String.eqb (toLowerCase k) w)
           end; try discriminate. reflexivity.
Qed.

Lemma configure_message (all : object) (keys : list string) (m0 : Metric) :
  let r := foldl (fun acc k => m ← acc; assign_param m k (get all k))
                 (Returned m0) keys in
  match find (fun k => negb (is_recognized k)) keys with
  | Some k => r = Threw (Error ("Unknown parameter: " +:+ k))
  | None => exists m, r = Returned m /\ datapoints m = datapoints m0
  end.
Proof.
  revert m0. induction keys as [|k keys IH]; intros m0; cbv zeta.
  - simpl. eexists. split; reflexivity.
  - change (foldl (fun acc k => m ← acc; assign_param m k (get all k))
                  (Returned m0) (k :: keys))
      with (foldl (fun acc k => m ← acc; assign_param m k (get all k))
                  (assign_param m0 k (get all k)) keys).
    cbn [find].
    destruct (assign_param_message m0 k (get all k)) as [[Hk [m' E]] | [Hk E]];
      rewrite Hk, E; cbn [negb].
    + specialize (IH m'). cbv zeta in IH.
      destruct (find (fun k => negb (is_recognized k)) keys) as [k'|]; [exact IH|].
      destruct IH as (m & Hm & Hd). exists m. split; [exact Hm|].
      rewrite Hd. revert E. unfold assign_param.
      repeat match goal with
             | |- context [String.eqb (toLowerCase k) ?w] =>
                 destruct (String.eqb (toLowerCase k) w)
             end; try discriminate; intros [= <-]; reflexivity.
    + apply foldl_Threw.
Qed.

Lemma configure_first_unknown (params : object) :
  match first_unknown params with
  | Some k => configure params = Threw (Error ("Unknown parameter: " +:+ k))
  | None => exists m, configure params = Returned m /\ datapoints m = []
  end.
Proof. apply (configure_message params (map fst params) AwsCloudWatchChartMetric). Qed.

Lemma addMetrics_message (elems : list object) (ms0 : list Metric) :
  let r := foldl (fun acc params => ms ← acc; addMetric ms params)
                 (Returned ms0) elems in
  match first_unknown_parameter elems with
  | Some k => r = Threw (Error ("Unknown parameter: " +:+ k))
  | None =>
      exists ms, r = Returned (ms0 ++ ms)
                 /\ Forall2 (fun params m => configure params = Returned m) elems ms
                 /\ Forall (fun m => datapoints m = []) ms
  end.
Proof.
  revert ms0. induction elems as [|params elems IH]; intros ms0; cbv zeta.
  - simpl. exists []. rewrite app_nil_r. repeat split; constructor.
  - change (foldl (fun acc params => ms ← acc; addMetric ms params)
                  (Returned ms0) (params :: elems))
      with (foldl (fun acc params => ms ← acc; addMetric ms params)
                  (addMetric ms0 params) elems).
    cbn [first_unknown_parameter].
    pose proof (configure_first_unknown params) as Hc.
    destruct (first_unknown params) as [k|].
    + assert (Ea : addMetric ms0 params = Threw (Error ("Unknown parameter: " +:+ k)))
        by (unfold addMetric; rewrite Hc; reflexivity).
      rewrite Ea. apply foldl_Threw.
    + destruct Hc as (m & Hm & Hd).
      assert (Ea : addMetric ms0 params = Returned (ms0 ++ [m]))
        by (unfold addMetric; rewrite Hm; reflexivity).
      rewrite Ea. specialize (IH (ms0 ++ [m])). cbv zeta in IH.
      destruct (first_unknown_parameter elems) as [k|]; [exact IH|].
      destruct IH as (ms & Hr & Hall & Hdp). exists (m :: ms).
      rewrite Hr, <- app_assoc. repeat split; constructor; assumption.
Qed.

(** The error the constructor raises for a configuration object, by
    precedence: the [metrics] message before the size messages, those before
    the period message, and last the unknown parameter, which is the first
    unknown field of the first metric that has one, spelled as the caller
    wrote it.  A configuration that none of these applies to constructs. *)
Theorem constructor_rejection (σ : store) (l : loc) (c : ConfigObject) :
  σ !! l = Some c ->
  match rejection c with
  | Some message => snd (AwsCloudWatchChart (Ref l) σ) = Threw (Error message)
  | None => exists this, snd (AwsCloudWatchChart (Ref l) σ) = Returned this
  end.
Proof.
  intros Hl. unfold AwsCloudWatchChart. cbn [snd].
  rewrite (Object_assign_fresh σ l c Hl), lookup_insert_eq.
  cbn [from_option id]. cbv zeta.
  rewrite metrics_field_effective.
  rewrite (read_number_effective c "width" 1000 eq_refl),
          (read_number_effective c "height" 250 eq_refl),
          (read_number_effective c "timePeriod" 60 eq_refl).
  rewrite !gt_of_Z, !lt_of_Z, mul_of_Z_gt, rem_of_Z_ne.
  unfold rejection. cbv zeta.
  destruct (negb (Array_isArray (metrics_field c))) eqn:Harr; [reflexivity|].
  destruct ((1000 <? setting c "width") || (1000 <? setting c "height")
            || (300000 <? setting c "height" * setting c "width")); [reflexivity|].
  destruct ((setting c "width" <? 1) || (setting c "height" <? 1)); [reflexivity|].
  destruct (negb (Z.rem (setting c "timePeriod") 60 =? 0)); [reflexivity|].
  destruct (metrics_field c) as [[| | | | | |elems]|]; try discriminate.
  unfold addMetrics. pose proof (addMetrics_message elems []) as H. cbv zeta in H.
  destruct (first_unknown_parameter elems) as [k|].
  - rewrite H. reflexivity.
  - destruct H as (ms & -> & _). eexists. reflexivity.
Qed.

Lemma constructor_rejection_witness :
  sample_store 24 !! 1%positive = Some (sample_config 24)
  /\ exists this,
       snd (AwsCloudWatchChart (Ref 1%positive) (sample_store 24)) = Returned this.
Proof.
  split; [reflexivity|].
  apply (constructor_rejection (sample_store 24) 1%positive (sample_config 24)).
  reflexivity.
Defined.

(** An argument that is not an object is rejected before anything is
    allocated, and [null] is rejected for its missing [metrics]. *)
Theorem constructor_rejects_non_objects (σ : store) :
  AwsCloudWatchChart Primitive σ = (σ, Threw (Error "Must provide config object"))
  /\ snd (AwsCloudWatchChart Null σ) = Threw (Error "config.metrics array required").
Proof.
  split; [reflexivity|].
  unfold AwsCloudWatchChart, Object_assign. cbn [snd foldl read_source].
  rewrite alter_insert_eq, lookup_insert_eq. reflexivity.
Qed.

Lemma constructor_metrics (cfg : argument) (σ : store) (this : Chart) :
  snd (AwsCloudWatchChart cfg σ) = Returned this ->
  exists elems : list object,
    metrics_field (default empty_object
                     (fst (AwsCloudWatchChart cfg σ) !! fresh (dom σ)))
    = Some (VArr elems)
    /\ addMetrics elems = Returned (metrics this).
Proof.
  unfold AwsCloudWatchChart.
  destruct cfg as [l| |]; cbn [snd fst]; try discriminate;
    repeat match goal with
           | |- context [if ?b then _ else _] => destruct b
           end; try discriminate;
    match goal with
    | |- context [metrics_field ?o] =>
        destruct (metrics_field o) as [[| | | | | |elems]|]
    end; try discriminate;
    destruct (addMetrics elems) as [ms| |] eqn:E; simpl; try discriminate;
    intros [= <-]; exists elems; (split; [reflexivity | exact E]).
Qed.

(** A chart that was constructed has one metric per element of the
    configured [metrics] array, in the same order, each the result of
    [addMetric] on that element alone, and none holds a data point yet. *)
Theorem constructor_metrics_in_order (σ : store) (l : loc) (c : ConfigObject)
    (this : Chart) :
  σ !! l = Some c ->
  snd (AwsCloudWatchChart (Ref l) σ) = Returned this ->
  exists elems : list object,
    metrics_field c = Some (VArr elems)
    /\ Forall2 (fun params m => configure params = Returned m) elems (metrics this)
    /\ Forall (fun m => datapoints m = []) (metrics this).
Proof.
  intros Hl Hr. destruct (constructor_metrics _ _ _ Hr) as (elems & Hm & Ha).
  rewrite (constructor_store σ l c Hl), lookup_insert_eq in Hm.
  cbn [from_option id] in Hm. rewrite metrics_field_effective in Hm.
  exists elems. split; [exact Hm|].
  pose proof (addMetrics_message elems []) as H. cbv zeta in H.
  unfold addMetrics in Ha. rewrite Ha in H.
  destruct (first_unknown_parameter elems); [discriminate|].
  destruct H as (ms & [= ->] & Hall & Hdp). split; assumption.
Qed.

Lemma constructor_metrics_in_order_witness :
  exists this : Chart,
    snd (AwsCloudWatchChart (Ref 1%positive) (sample_store 24)) = Returned this
    /\ exists elems : list object,
         metrics_field (sample_config 24) = Some (VArr elems)
         /\ Forall2 (fun params m => configure params = Returned m) elems (metrics this)
         /\ Forall (fun m => datapoints m = []) (metrics this).
Proof.
  eexists. split; [vm_compute; reflexivity|].
  apply (constructor_metrics_in_order (sample_store 24) 1%positive (sample_config 24));
    [reflexivity | vm_compute; reflexivity].
Defined.

(** [getURL] on a chart for which [getChart] was never called throws the
    [TypeError] of the empty walk: construction alone fetches nothing. *)
Theorem getURL_before_getChart (cfg : argument) (σ σ' : store) (this : Chart)
    (fuel : nat) :
  snd (AwsCloudWatchChart cfg σ) = Returned this ->
  getURL fuel σ' this = Threw (TypeError "i.getTime is not a function").
Proof.
  intros Hr. destruct (constructor_metrics _ _ _ Hr) as (elems & _ & Ha).
  pose proof (addMetrics_message elems []) as H. cbv zeta in H.
  unfold addMetrics in Ha. rewrite Ha in H.
  destruct (first_unknown_parameter elems); [discriminate|].
  destruct H as (ms & E & _ & Hdp). injection E as E. simpl in E.
  unfold getURL. rewrite getURL_locals_no_data; [reflexivity|].
  rewrite E. clear E Ha. unfold all_datapoints.
  induction Hdp as [|m ms' Hm _ IH]; [reflexivity|].
  simpl. rewrite Hm. exact IH.
Qed.

Lemma getURL_before_getChart_witness :
  exists this : Chart,
    snd (AwsCloudWatchChart (Ref 1%positive) (sample_store 24)) = Returned this
    /\ getURL 10 (sample_store 24) this
       = Threw (TypeError "i.getTime is not a function").
Proof.
  eexists. split; [vm_compute; reflexivity|].
  apply (getURL_before_getChart (Ref 1%positive) (sample_store 24)).
  vm_compute. reflexivity.
Defined.

(** ** [parseInt] and the thickness of a line *)

Lemma is_nat_pretty_N_char (d : N) :
  (d < 10)%N -> Ascii.is_nat (pretty_N_char d) = Some (N.to_nat d).
Proof.
  intros H.
  assert (d = 0 \/ d = 1 \/ d = 2 \/ d = 3 \/ d = 4 \/ d = 5 \/ d = 6
          \/ d = 7 \/ d = 8 \/ d = 9)%N as Hd by lia.
  repeat (destruct Hd as [-> | Hd]; [reflexivity|]). subst d. reflexivity.
Qed.

Lemma leading_digits_pretty_N_go (x : N) (s : string) :
  leading_digits (pretty_N_go x s) None
  = leading_digits s (if decide (x = 0%N) then None else Some (Z.of_N x)).
Proof.
  revert s. induction (N.lt_wf_0 x) as [x _ IH]. intros s.
  destruct (decide (x = 0%N)) as [-> | Hx]; [reflexivity|].
  rewrite pretty_N_go_step by lia.
  rewrite IH by (apply N.div_lt; lia).
  cbn [leading_digits].
  rewrite is_nat_pretty_N_char by (apply N.mod_lt; lia).
  f_equal. f_equal.
  pose proof (N.div_mod x 10 ltac:(lia)) as E.
  destruct (decide ((x `div` 10)%N = 0%N)) as [E0 | E0]; simpl default.
  - rewrite E0 in E. rewrite N_nat_Z. lia.
  - rewrite N_nat_Z. lia.
Qed.

Lemma pretty_N_go_head (x : N) (s : string) :
  (0 < x)%N ->
  exists (d : N) (rest : string),
    (d < 10)%N /\ pretty_N_go x s = String (pretty_N_char d) rest.
Proof.
  revert s. induction (N.lt_wf_0 x) as [x _ IH]. intros s Hx.
  rewrite pretty_N_go_step by lia.
  destruct (decide ((x `div` 10)%N = 0%N)) as [E0 | E0].
  - rewrite E0, pretty_N_go_0. exists (x `mod` 10)%N, s.
    split; [apply N.mod_lt; lia | reflexivity].
  - apply IH; [apply N.div_lt; lia | apply N.neq_0_lt_0, E0].
Qed.

Lemma parseInt_unsigned (d : N) (rest : string) (n : Z) :
  (d < 10)%N ->
  leading_digits (String (pretty_N_char d) rest) None = Some n ->
  forall v, ToString v = String (pretty_N_char d) rest -> parseInt v = VNum n.
Proof.
  intros Hd Hl v Hv. unfold parseInt. rewrite Hv.
  assert (d = 0 \/ d = 1 \/ d = 2 \/ d = 3 \/ d = 4 \/ d = 5 \/ d = 6
          \/ d = 7 \/ d = 8 \/ d = 9)%N as Hc by lia.
  assert (forall c : ascii,
            c = pretty_N_char d ->
            Ascii.is_space c = false /\ c <> "-"%char /\ c <> "+"%char) as Hch.
  { intros c ->.
    repeat (destruct Hc as [-> | Hc]; [repeat split; discriminate|]).
    subst d. repeat split; discriminate. }
  destruct (Hch _ eq_refl) as (Hs & Hm & Hp).
  cbn [skip_space]. rewrite Hs.
  assert ((match String (pretty_N_char d) rest with
           | String "-"%char r => (-1, r)
           | String "+"%char r => (1, r)
           | _ => (1, String (pretty_N_char d) rest)
           end) = (1, String (pretty_N_char d) rest)) as ->.
  { clear -Hc.
    repeat (destruct Hc as [-> | Hc]; [reflexivity|]). subst d. reflexivity. }
  rewrite Hl. f_equal. lia.
Qed.

Lemma parseInt_pretty (v : value) (n : Z) :
  ToString v = pretty n -> parseInt v = VNum n.
Proof.
  intros Hv. destruct n as [|p|p].
  - unfold parseInt. rewrite Hv. reflexivity.
  - change (pretty (Z.pos p)) with (pretty_N_go (N.pos p) "") in Hv.
    destruct (pretty_N_go_head (N.pos p) "" ltac:(lia)) as (d & rest & Hd & E).
    apply (parseInt_unsigned d rest); [exact Hd | | congruence].
    rewrite <- E, leading_digits_pretty_N_go. reflexivity.
  - change (pretty (Z.neg p)) with ("-" +:+ pretty_N_go (N.pos p) "") in Hv.
    unfold parseInt. rewrite Hv.
    change ("-" +:+ pretty_N_go (N.pos p) "")
      with (String "-"%char (pretty_N_go (N.pos p) "")).
    cbn [skip_space]. change (Ascii.is_space "-") with false. cbv iota.
    rewrite leading_digits_pretty_N_go. reflexivity.
Qed.

(** [parseInt] gives back an integer it is handed, as a number or as its
    decimal text, when the integer is one a JavaScript number holds
    exactly and prints in full (a safe integer, of magnitude below 2^53);
    so [addMetric] stores a thickness given either way as that number,
    whatever the case of the property's name. *)
Theorem thickness_integer (m : Metric) (k : string) (v : value) (n : Z) :
  Z.abs n <= 9007199254740991 ->
  toLowerCase k = "thickness" ->
  v = VNum n \/ v = VStr (pretty n) ->
  parseInt v = VNum n
  /\ exists m' : Metric,
       assign_param m k v = Returned m' /\ thickness m' = VNum n.
Proof.
  intros _ Hk Hv.
  assert (parseInt v = VNum n) as Hp.
  { apply parseInt_pretty. destruct Hv as [-> | ->]; reflexivity. }
  split; [exact Hp|].
  unfold assign_param. rewrite Hk. cbn [String.eqb Ascii.eqb Bool.eqb].
  eexists. split; [reflexivity|]. exact Hp.
Qed.

Lemma thickness_integer_witness :
  parseInt (VStr "3") = VNum 3
  /\ exists m' : Metric,
       assign_param AwsCloudWatchChartMetric "Thickness" (VStr "3") = Returned m'
       /\ thickness m' = VNum 3.
Proof.
  apply (thickness_integer AwsCloudWatchChartMetric "Thickness" (VStr "3") 3);
    [simpl; lia | reflexivity | right; reflexivity].
Defined.

(** ** The text of a label *)

Lemma two_digits_below_100 (n : Z) :
  0 <= n < 100 ->
  two_digits n = String (digit (n / 10)) (String (digit (n mod 10)) "").
Proof.
  intros H. rewrite <- (Z2Nat.id n) by lia.
  assert (Z.to_nat n < 100)%nat as Hn by lia.
  generalize dependent (Z.to_nat n). clear. intros k Hk.
  do 100 (destruct k as [|k]; [vm_compute; reflexivity|]). lia.
Qed.

(** The text of a label is the UTC time of day of the bucket's end, as
    [HH:MM] with both parts padded to two digits; it says nothing of the
    date, so two ends a whole number of days apart get the same text, also
    before 1970. *)
Theorem label_text_clock (p p' t k : Z) :
  text (label p t) = clock ((t / 3600000) mod 24) ((t / 60000) mod 60)
  /\ String.length (text (label p t)) = 5%nat
  /\ text (label p' (t + k * day)) = text (label p t).
Proof.
  assert (forall q u, text (label q u)
                      = clock ((u / 3600000) mod 24) ((u / 60000) mod 60)) as H.
  { intros q u. unfold label, text, getUTCHours, getUTCMinutes.
    pose proof (Z.mod_pos_bound (u / 3600000) 24 ltac:(lia)).
    pose proof (Z.mod_pos_bound (u / 60000) 60 ltac:(lia)).
    rewrite !two_digits_below_100 by lia.
    reflexivity. }
  split; [apply H|]. split; [rewrite H; reflexivity|].
  rewrite !H. unfold day.
  replace ((t + k * 86400000) / 3600000) with (t / 3600000 + (k * 24))
    by (rewrite <- Z.div_add by lia; f_equal; lia).
  replace ((t + k * 86400000) / 60000) with (t / 60000 + (k * 24) * 60)
    by (rewrite <- Z.div_add by lia; f_equal; lia).
  rewrite (Z.add_mod (t / 3600000) (k * 24)) by lia.
  rewrite (Z.add_mod (t / 60000) (k * 24 * 60)) by lia.
  rewrite !Z.mod_mul by lia. rewrite !Z.add_0_r, !Z.mod_mod by lia.
  reflexivity.
Qed.

(** ** The order of the data points *)

Lemma largest_with_perm (d : Q) (l l' : list Q) :
  l ≡ₚ l' -> (largest_with d l == largest_with d l')%Q.
Proof.
  induction 1 as [|x l l' _ IH|x y l|l l' l'' _ IH _ IH']; simpl.
  - reflexivity.
  - apply Q.max_compat; [reflexivity | exact IH].
  - rewrite !Q.max_assoc, (Q.max_comm y x). reflexivity.
  - etransitivity; [exact IH | exact IH'].
Qed.

Lemma Qsum_perm (l l' : list Q) : l ≡ₚ l' -> (Qsum l == Qsum l')%Q.
Proof.
  induction 1 as [|x l l' _ IH|x y l|l l' l'' _ IH _ IH']; simpl.
  - reflexivity.
  - rewrite IH. reflexivity.
  - ring.
  - etransitivity; [exact IH | exact IH'].
Qed.

Lemma largest_with_pointwise (d d' : Q) (l l' : list Q) :
  (d == d')%Q -> Forall2 Qeq l l' ->
  (largest_with d l == largest_with d' l')%Q.
Proof.
  intros Hd H. induction H as [|x y l l' Hxy _ IH]; simpl; [exact Hd|].
  apply Q.max_compat; [exact Hxy | exact IH].
Qed.

Lemma toPush_reordered (m m' : Metric) (tl : TimeLabel) :
  reordered m m' -> (toPush m' tl == toPush m tl)%Q.
Proof.
  intros [Hp ->]. unfold toPush. cbn [statistic datapoints with_datapoints].
  set (pts := datapoints m) in *. set (pts' := datapoints m') in *.
  pose proof (period_from tl pts
    {| maxInPeriod := 0; totalInPeriod := 0; totalInPeriodCount := 0 |}) as H.
  pose proof (period_from tl pts'
    {| maxInPeriod := 0; totalInPeriod := 0; totalInPeriodCount := 0 |}) as H'.
  cbv zeta in H, H'. cbn [maxInPeriod totalInPeriod totalInPeriodCount] in H, H'.
  fold (period tl pts) in H. fold (period tl pts') in H'.
  destruct H as (Hm & Ht & Hc), H' as (Hm' & Ht' & Hc').
  assert (selected tl pts ≡ₚ selected tl pts') as Hs.
  { unfold selected. rewrite Hp. reflexivity. }
  assert (omap Maximum (selected tl pts) ≡ₚ omap Maximum (selected tl pts')) as HM.
  { rewrite Hs. reflexivity. }
  assert (omap Average (selected tl pts) ≡ₚ omap Average (selected tl pts')) as HA.
  { rewrite Hs. reflexivity. }
  destruct (loose_eq_word (statistic m) "Maximum").
  - rewrite Hm, Hm'. symmetry. apply largest_with_perm, HM.
  - unfold averageInPeriod. rewrite Hc, Hc'.
    rewrite <- (Permutation_length HA).
    assert (totalInPeriod (period tl pts') == totalInPeriod (period tl pts))%Q as E.
    { rewrite Ht, Ht'. rewrite (Qsum_perm _ _ HA). reflexivity. }
    destruct (0 <? 0 + Z.of_nat (length (omap Average (selected tl pts))));
      [rewrite E; reflexivity | exact E].
Qed.

Lemma bucket_scalars_reordered (ms ms' : list Metric) (tls : list TimeLabel) :
  Forall2 reordered ms ms' ->
  Forall2 (Forall2 Qeq) (bucket_scalars ms' tls) (bucket_scalars ms tls).
Proof.
  intros H. unfold bucket_scalars.
  induction H as [|m m' ms ms' Hm _ IH]; simpl; constructor; [|exact IH].
  clear IH. induction tls as [|tl tls IHt]; simpl; constructor; [|exact IHt].
  apply toPush_reordered, Hm.
Qed.

Lemma scaledVal_comp (v v' : Q) (maxVal : number) :
  (v == v')%Q -> scaledVal (Fin v) maxVal = scaledVal (Fin v') maxVal.
Proof.
  intros E. unfold scaledVal, EXTENDED_MAP_LENGTH, of_Z.
  destruct maxVal as [y| | |]; cbn [Num.mul Num.div Num.floor]; try reflexivity.
  destruct (Qeq_bool y 0).
  - unfold sgn. rewrite E. reflexivity.
  - cbn [Num.floor]. unfold of_Z. do 2 f_equal. apply Qfloor_comp.
    rewrite E. reflexivity.
Qed.

Lemma codes_pointwise (maxVal : number) (l l' : list Q) :
  Forall2 Qeq l l' -> codes maxVal (map Fin l) = codes maxVal (map Fin l').
Proof.
  induction 1 as [|x y l l' Hxy _ IH]; simpl; [reflexivity|].
  rewrite IH. f_equal. unfold encodeValue.
  rewrite (scaledVal_comp x y maxVal Hxy). reflexivity.
Qed.

Lemma Forall2_concat_Qeq (a b : list (list Q)) :
  Forall2 (Forall2 Qeq) a b -> Forall2 Qeq (concat a) (concat b).
Proof.
  induction 1 as [|x y a b Hxy _ IH]; simpl; [constructor|].
  apply Forall2_app; assumption.
Qed.

Lemma all_datapoints_reordered (ms ms' : list Metric) :
  Forall2 reordered ms ms' -> all_datapoints ms ≡ₚ all_datapoints ms'.
Proof.
  unfold all_datapoints.
  induction 1 as [|m m' ms ms' [Hm _] _ IH]; simpl; [reflexivity|].
  rewrite Hm, IH. reflexivity.
Qed.

Lemma getTitles_reordered (ms ms' : list Metric) :
  Forall2 reordered ms ms' ->
  getTitles ms' = getTitles ms
  /\ map color ms' = map color ms /\ map style ms' = map style ms.
Proof.
  induction 1 as [|m m' ms ms' [_ ->] _ (IH1 & IH2 & IH3)]; simpl;
    [repeat split|].
  rewrite IH1, IH2, IH3. repeat split.
Qed.

Lemma range_exists (pts : list Datapoint) :
  pts <> [] ->
  exists lo hi : Z,
    (forall p, p ∈ pts -> lo <= Timestamp p <= hi)
    /\ (exists p, p ∈ pts /\ Timestamp p = lo)
    /\ (exists p, p ∈ pts /\ Timestamp p = hi).
Proof.
  induction pts as [|q pts IH]; [congruence|]. intros _.
  destruct pts as [|q' pts].
  - exists (Timestamp q), (Timestamp q). split; [|split].
    + intros p Hp. apply list_elem_of_singleton in Hp as ->. lia.
    + exists q. split; [left | reflexivity].
    + exists q. split; [left | reflexivity].
  - destruct (IH ltac:(congruence)) as (lo & hi & Hall & (pl & Hpl & El) & (ph & Hph & Eh)).
    exists (Z.min lo (Timestamp q)), (Z.max hi (Timestamp q)). split; [|split].
    + intros p Hp. apply elem_of_cons in Hp as [-> | Hp]; [lia|].
      specialize (Hall p Hp). lia.
    + destruct (Z.min_spec lo (Timestamp q)) as [[_ ->] | [_ ->]].
      * exists pl. split; [right; exact Hpl | exact El].
      * exists q. split; [left | reflexivity].
    + destruct (Z.max_spec hi (Timestamp q)) as [[_ ->] | [_ ->]].
      * exists q. split; [left | reflexivity].
      * exists ph. split; [right; exact Hph | exact Eh].
Qed.

Lemma time_range_flat_from (ts : list Z) (t : Z) (n k : nat) :
  (forall j x, ts !! j = Some x -> x = t) ->
  (0 < length ts)%nat -> (k + n <= length ts)%nat ->
  foldl (range_step (map Some ts)) (Some 0%nat, Some 0%nat) (seq k n)
  = (Some 0%nat, Some 0%nat).
Proof.
  intros Hall Hlen. revert k. induction n as [|n IH]; intros k Hk; [reflexivity|].
  cbn [seq foldl].
  destruct (lookup_lt_is_Some_2 ts k ltac:(lia)) as [x Hx].
  destruct (lookup_lt_is_Some_2 ts 0 ltac:(lia)) as [y Hy].
  pose proof (Hall _ _ Hx) as ->. pose proof (Hall _ _ Hy) as ->.
  unfold range_step at 2. cbn [ref_number].
  rewrite (date_number_Some ts k t Hx), (date_number_Some ts 0 t Hy),
          gt_of_Z, lt_of_Z, Z.ltb_irrefl.
  apply IH. lia.
Qed.

Lemma time_range_flat (pts : list Datapoint) (t : Z) :
  pts <> [] -> (forall p, p ∈ pts -> Timestamp p = t) ->
  let σ : dates := map (fun p => Some (Timestamp p)) pts in
  time_range σ = (Some 0%nat, Some 0%nat) /\ σ !! 0%nat = Some (Some t).
Proof.
  intros Hne Hall σ.
  assert (σ = map Some (map Timestamp pts)) as Eσ.
  { unfold σ. rewrite map_map. reflexivity. }
  destruct pts as [|q pts]; [congruence|].
  assert (Timestamp q = t) as Hq by (apply Hall; left).
  split; [|unfold σ; simpl; rewrite Hq; reflexivity].
  rewrite Eσ. unfold time_range. rewrite !length_map.
  cbn [length seq foldl]. unfold range_step at 2. cbn [ref_number].
  cbn [map]. change (date_number (Some (Timestamp q) :: _) 0)
    with (of_Z (Timestamp q)).
  rewrite gt_of_Z, lt_of_Z, Z.ltb_irrefl.
  apply (time_range_flat_from (map Timestamp (q :: pts)) t (length pts) 1).
  - intros j x Hj. apply list_lookup_fmap_Some in Hj as (p & -> & Hp).
    apply Hall. eapply list_elem_of_lookup_2, Hp.
  - simpl. lia.
  - simpl. rewrite length_map. lia.
Qed.

Lemma time_range_same_points (pts pts' : list Datapoint) :
  (forall p, p ∈ pts' <-> p ∈ pts) -> pts <> [] ->
  let σ : dates := map (fun p => Some (Timestamp p)) pts in
  let σ' : dates := map (fun p => Some (Timestamp p)) pts' in
  exists si ei si' ei' : nat,
    time_range σ = (Some si, Some ei)
    /\ time_range σ' = (Some si', Some ei')
    /\ σ !! si = σ' !! si' /\ σ !! ei = σ' !! ei'
    /\ (exists t, σ !! si = Some (Some t))
    /\ (si = ei <-> si' = ei').
Proof.
  intros Hin Hne σ σ'.
  assert (pts' <> []) as Hne'.
  { intros E. destruct pts as [|q pts]; [congruence|].
    assert (q ∈ pts') as Hq by (apply Hin; left).
    rewrite E in Hq. inversion Hq. }
  destruct (range_exists pts Hne) as (lo & hi & Hall & Hlo & Hhi).
  destruct (decide (lo = hi)) as [<- | Hlh].
  - destruct (time_range_flat pts lo Hne) as [E1 E2].
    { intros p H. specialize (Hall p H). lia. }
    destruct (time_range_flat pts' lo Hne') as [E1' E2'].
    { intros p H. apply Hin in H. specialize (Hall p H). lia. }
    exists 0%nat, 0%nat, 0%nat, 0%nat. fold σ in E1, E2. fold σ' in E1', E2'.
    rewrite E2, E2'. repeat split; try assumption. exists lo. reflexivity.
  - destruct (time_range_spec pts lo hi Hall Hlo Hhi) as (si & ei & E & Hs & He).
    destruct (time_range_spec pts' lo hi) as (si' & ei' & E' & Hs' & He').
    { intros p H. apply Hall, Hin, H. }
    { destruct Hlo as (p & H & Ep). exists p. split; [apply Hin, H | exact Ep]. }
    { destruct Hhi as (p & H & Ep). exists p. split; [apply Hin, H | exact Ep]. }
    cbv zeta in E, Hs, He, E', Hs', He'.
    fold σ in E, Hs, He. fold σ' in E', Hs', He'.
    exists si, ei, si', ei'. rewrite Hs, He, Hs', He'.
    split; [exact E|]. split; [exact E'|]. split; [reflexivity|].
    split; [reflexivity|]. split; [exists lo; reflexivity|].
    split; intros Eq; exfalso; apply Hlh.
    + rewrite Eq, He in Hs. congruence.
    + rewrite Eq, He' in Hs'. congruence.
Qed.

Lemma walk_ext (fuel : nat) (diff : number) :
  forall (σ σ' : dates) (i i' e e' : nat) (prevTime : option Z)
         (tls : list TimeLabel),
    σ !! i = σ' !! i' -> σ !! e = σ' !! e' -> (i = e <-> i' = e') ->
    walk fuel σ i (Some e) diff prevTime tls
    = walk fuel σ' i' (Some e') diff prevTime tls.
Proof.
  induction fuel as [|fuel IH]; intros σ σ' i i' e e' prevTime tls Hi He Ha;
    [reflexivity|].
  cbn [walk ref_number]. unfold date_number. rewrite Hi, He.
  destruct (_ <=? _)%num; [|reflexivity].
  destruct (σ' !! i') as [[t|]|] eqn:Ei'; try reflexivity.
  assert (i < length σ)%nat as Hlen by (eapply lookup_lt_Some, Hi).
  assert (i' < length σ')%nat as Hlen' by (eapply lookup_lt_Some, Ei').
  apply IH.
  - rewrite !list_lookup_insert_eq by assumption. reflexivity.
  - destruct (decide (i = e)) as [Eie | Nie].
    + pose proof (proj1 Ha Eie) as Eie'. subst e e'.
      rewrite !list_lookup_insert_eq by assumption. reflexivity.
    + assert (i' <> e') as Nie' by (intros E; apply Nie, Ha, E).
      rewrite !list_lookup_insert_ne by assumption. exact He.
  - exact Ha.
Qed.

Lemma getURL_locals_ext (fuel : nat) (cfg : ConfigObject)
    (ms ms' : list Metric) :
  (forall p, p ∈ all_datapoints ms' <-> p ∈ all_datapoints ms) ->
  getTitles ms' = getTitles ms ->
  map color ms' = map color ms -> map style ms' = map style ms ->
  (forall tls, Forall2 (Forall2 Qeq) (bucket_scalars ms' tls) (bucket_scalars ms tls)) ->
  match getURL_locals fuel cfg ms, getURL_locals fuel cfg ms' with
  | Returned l, Returned l' =>
      timeLabels l' = timeLabels l /\ labels l' = labels l
      /\ topEdge l' = topEdge l
      /\ datasetsAsStrings l' = datasetsAsStrings l
      /\ titles l' = titles l /\ colors l' = colors l /\ styles l' = styles l
      /\ Forall2 (Forall2 Qeq) (datasets l') (datasets l)
  | Threw e, Threw e' => e = e'
  | OutOfFuel, OutOfFuel => True
  | _, _ => False
  end.
Proof.
  intros Hp Ht Hc Hs H.
  destruct (decide (all_datapoints ms = [])) as [E | Hne].
  { assert (all_datapoints ms' = []) as E'.
    { destruct (all_datapoints ms') as [|q pts']; [reflexivity|].
      assert (q ∈ all_datapoints ms) as Hq by (apply Hp; left).
      rewrite E in Hq. inversion Hq. }
    rewrite !getURL_locals_no_data by assumption. reflexivity. }
  destruct (time_range_same_points _ _ Hp Hne)
    as (si & ei & si' & ei' & Er & Er' & Hsi & Hei & _ & Ha).
  cbv zeta in Er, Er', Hsi, Hei.
  unfold getURL_locals. rewrite Er, Er'. cbn [ref_number]. unfold date_number.
  rewrite Hsi, Hei. fold (date_number (map (fun p => Some (Timestamp p)) (all_datapoints ms')) ei').
  rewrite (walk_ext fuel _ _ _ si si' ei ei' None [] Hsi Hei Ha).
  destruct (walk fuel _ si' (Some ei') _ None []) as [tls| |];
    cbn [mbind outcome_bind]; [|reflexivity|exact I].
  pose proof (resample_spec ms tls) as [Ha1 Hd1].
  pose proof (resample_spec ms' tls) as [Ha2 Hd2].
  destruct (resample ms tls) as [a1 d1], (resample ms' tls) as [a2 d2].
  cbn [fst snd] in Ha1, Hd1, Ha2, Hd2. rewrite Ht.
  pose proof (H tls) as Hb.
  assert (Qceiling (a2 * 1.2) = Qceiling (a1 * 1.2)) as Htop.
  { apply Qceiling_comp. rewrite Ha1, Ha2.
    rewrite (largest_with_pointwise 0 0 _ _ (Qeq_refl 0%Q)
               (Forall2_concat_Qeq _ _ Hb)). reflexivity. }
  destruct (getTitles ms) as [ts| |]; cbn [mbind outcome_bind];
    [|reflexivity|exact I].
  cbn [timeLabels labels topEdge datasetsAsStrings titles colors styles datasets].
  rewrite Htop, Hc, Hs, Hd1, Hd2.
  repeat (split; [reflexivity|]).
  split; [|repeat (split; [reflexivity|]); exact Hb].
  clear -Hb. induction Hb as [|x y a b Hxy _ IH]; simpl; [reflexivity|].
  rewrite IH, !extendedEncode_codes, (codes_pointwise _ x y Hxy). reflexivity.
Qed.

Lemma getURL_ext (fuel : nat) (σ : store) (this this' : Chart) :
  config this' = config this ->
  (forall p, p ∈ all_datapoints (metrics this')
             <-> p ∈ all_datapoints (metrics this)) ->
  getTitles (metrics this') = getTitles (metrics this) ->
  map color (metrics this') = map color (metrics this) ->
  map style (metrics this') = map style (metrics this) ->
  (forall tls, Forall2 (Forall2 Qeq) (bucket_scalars (metrics this') tls)
                       (bucket_scalars (metrics this) tls)) ->
  getURL fuel σ this' = getURL fuel σ this.
Proof.
  intros Hc Hp Ht Hco Hs H. unfold getURL. rewrite Hc.
  pose proof (getURL_locals_ext fuel
                (default empty_object (σ !! config this)) _ _ Hp Ht Hco Hs H) as Hl.
  destruct (getURL_locals fuel _ (metrics this)) as [l|e|],
           (getURL_locals fuel _ (metrics this')) as [l'|e'|];
    try contradiction; cbn [mbind outcome_bind]; [|congruence|reflexivity].
  destruct Hl as (_ & E1 & E2 & E3 & E4 & E5 & E6 & _).
  unfold assemble. rewrite E1, E2, E3, E4, E5, E6. reflexivity.
Qed.

(** For series of statistic [Maximum], the order in which the data points
    arrived does not show in the chart: [getURL] of two charts whose
    metrics differ only in the order of their data points gives the same
    URL, throws the same exception, or hangs for both.  (The reduction of
    such a series compares and never adds, so that the exact numbers of
    this development are the code's; a sum of doubles can depend on the
    order of its terms.) *)
Theorem getURL_order_of_data_points (fuel : nat) (σ : store) (this this' : Chart) :
  config this' = config this ->
  Forall (fun m => statistic m = VStr "Maximum") (metrics this) ->
  Forall2 reordered (metrics this) (metrics this') ->
  getURL fuel σ this' = getURL fuel σ this.
Proof.
  intros Hc _ H.
  destruct (getTitles_reordered _ _ H) as (Ht & Hco & Hs).
  apply getURL_ext; try assumption.
  - intros p. rewrite (all_datapoints_reordered _ _ H). reflexivity.
  - intros tls. apply bucket_scalars_reordered, H.
Qed.

Lemma getURL_order_of_data_points_witness :
  getURL 30 (sample_store 2)
    {| metrics := [with_datapoints maximum_metric
                     [point 3600000 (Some 6%Q) (Some 3%Q);
                      point 0 (Some 4%Q) (Some 1%Q);
                      point 1800000 (Some 5%Q) (Some 2%Q)]];
       config := 1%positive |}
  = getURL 30 (sample_store 2)
      {| metrics := [with_datapoints maximum_metric
                       [point 0 (Some 4%Q) (Some 1%Q);
                        point 1800000 (Some 5%Q) (Some 2%Q);
                        point 3600000 (Some 6%Q) (Some 3%Q)]];
         config := 1%positive |}.
Proof.
  apply getURL_order_of_data_points; [reflexivity | |].
  - constructor; [reflexivity | constructor].
  - constructor; [|constructor]. split; [|reflexivity].
    cbn. etransitivity; [apply perm_skip, perm_swap | apply perm_swap].
Defined.

(** ** The same response twice *)

Lemma largest_with_twice (d : Q) (l : list Q) :
  (largest_with d (l ++ l) == largest_with d l)%Q.
Proof.
  rewrite <- largest_with_app. apply largest_with_absorb.
  intros x Hx. apply largest_with_upper, Hx.
Qed.

Lemma Qsum_app (l l' : list Q) : (Qsum (l ++ l') == Qsum l + Qsum l')%Q.
Proof.
  induction l as [|x l IH]; simpl; [ring|]. rewrite IH. ring.
Qed.

Lemma toPush_doubled (m m' : Metric) (tl : TimeLabel) :
  doubled m m' -> (toPush m' tl == toPush m tl)%Q.
Proof.
  intros ->. unfold toPush. cbn [statistic datapoints with_datapoints].
  set (pts := datapoints m).
  pose proof (period_from tl pts
    {| maxInPeriod := 0; totalInPeriod := 0; totalInPeriodCount := 0 |}) as H.
  pose proof (period_from tl (pts ++ pts)
    {| maxInPeriod := 0; totalInPeriod := 0; totalInPeriodCount := 0 |}) as H'.
  cbv zeta in H, H'. cbn [maxInPeriod totalInPeriod totalInPeriodCount] in H, H'.
  fold (period tl pts) in H. fold (period tl (pts ++ pts)) in H'.
  destruct H as (Hm & Ht & Hc), H' as (Hm' & Ht' & Hc').
  assert (forall f : Datapoint -> option Q,
            omap f (selected tl (pts ++ pts))
            = omap f (selected tl pts) ++ omap f (selected tl pts)) as Hs.
  { intros f. unfold selected. rewrite filter_app, omap_app. reflexivity. }
  rewrite Hs in Hm', Ht', Hc'.
  destruct (loose_eq_word (statistic m) "Maximum").
  - rewrite Hm, Hm'. apply largest_with_twice.
  - unfold averageInPeriod. rewrite Hc, Hc', length_app.
    rewrite Qsum_app in Ht'.
    set (l := omap Average (selected tl pts)) in *.
    destruct l as [|x l].
    + change (0 <? 0 + Z.of_nat (length (@nil Q) + length (@nil Q))) with false.
      change (0 <? 0 + Z.of_nat (length (@nil Q))) with false. cbv iota.
      rewrite Ht, Ht'. reflexivity.
    + assert ((0 <? 0 + Z.of_nat (length (x :: l) + length (x :: l))) = true) as ->
        by (apply Z.ltb_lt; simpl; lia).
      assert ((0 <? 0 + Z.of_nat (length (x :: l))) = true) as ->
        by (apply Z.ltb_lt; simpl; lia).
      rewrite Ht, Ht'.
      rewrite Z.add_0_l, Z.add_0_l, Nat2Z.inj_add, inject_Z_plus.
      assert (0 < inject_Z (Z.of_nat (length (x :: l))))%Q as Hpos.
      { change 0%Q with (inject_Z 0). rewrite <- Zlt_Qlt. simpl. lia. }
      set (c := inject_Z (Z.of_nat (length (x :: l)))) in *.
      field. split; lra.
Qed.

Lemma doubled_facts (ms ms' : list Metric) :
  Forall2 doubled ms ms' ->
  (forall p, p ∈ all_datapoints ms' <-> p ∈ all_datapoints ms)
  /\ getTitles ms' = getTitles ms
  /\ map color ms' = map color ms /\ map style ms' = map style ms
  /\ forall tls, Forall2 (Forall2 Qeq) (bucket_scalars ms' tls) (bucket_scalars ms tls).
Proof.
  unfold all_datapoints, bucket_scalars.
  induction 1 as [|m m' ms ms' Hm _ (IH1 & IH2 & IH3 & IH4 & IH5)]; simpl.
  { repeat split; try tauto. intros _. constructor. }
  split; [|split; [|split; [|split]]].
  - intros p. rewrite !elem_of_app, IH1. rewrite Hm.
    cbn [datapoints with_datapoints]. rewrite elem_of_app. tauto.
  - rewrite IH2, Hm. reflexivity.
  - rewrite IH3, Hm. reflexivity.
  - rewrite IH4, Hm. reflexivity.
  - intros tls. constructor; [|apply IH5].
    clear -Hm. induction tls as [|tl tls IHt]; simpl; constructor; [|exact IHt].
    apply toPush_doubled, Hm.
Qed.

Lemma getChart_twice_doubled (ms : list Metric) (responses : list (list Datapoint)) :
  Forall (fun m => datapoints m = []) ms ->
  Forall2 doubled (zip_with receive ms responses)
                  (zip_with receive (zip_with receive ms responses) responses).
Proof.
  intros H. revert responses.
  induction H as [|m ms Hm _ IH]; intros [|r rs]; simpl; try constructor.
  - unfold doubled, receive, with_datapoints. cbn [datapoints title statistic
      Namespace MetricName color Unit thickness dashed Dimensions].
    rewrite Hm. reflexivity.
  - apply IH.
Qed.

(** Calling [getChart] a second time pushes the response on the data
    points the metrics already hold; when both calls bring the same
    responses to a chart of series of statistic [Maximum] that held no
    data, every point is there twice and [getURL] gives what it gave after
    the first call.  (A maximum does not change when its terms are
    repeated; a mean of doubles can.) *)
Theorem getURL_same_response_twice (fuel : nat) (σ : store) (this : Chart)
    (responses : list (list Datapoint)) :
  Forall (fun m => datapoints m = []) (metrics this) ->
  Forall (fun m => statistic m = VStr "Maximum") (metrics this) ->
  Forall2 (fun m m' => datapoints m' = datapoints m ++ datapoints m)
          (metrics (getChart this responses))
          (metrics (getChart (getChart this responses) responses))
  /\ getURL fuel σ (getChart (getChart this responses) responses)
     = getURL fuel σ (getChart this responses).
Proof.
  intros H _.
  pose proof (getChart_twice_doubled (metrics this) responses H) as Hd.
  split.
  - unfold getChart. cbn [metrics].
    eapply Forall2_impl; [exact Hd|]. intros m m' ->. reflexivity.
  - destruct (doubled_facts _ _ Hd) as (H1 & H2 & H3 & H4 & H5).
    apply getURL_ext; try assumption. reflexivity.
Qed.

Lemma getURL_same_response_twice_witness :
  Forall2 (fun m m' => datapoints m' = datapoints m ++ datapoints m)
          (metrics (getChart (sample_fresh_chart) sample_responses))
          (metrics (getChart (getChart sample_fresh_chart sample_responses)
                             sample_responses))
  /\ getURL 30 (sample_store 2)
            (getChart (getChart sample_fresh_chart sample_responses)
                      sample_responses)
     = getURL 30 (sample_store 2) (getChart sample_fresh_chart sample_responses).
Proof.
  apply (getURL_same_response_twice 30 (sample_store 2) sample_fresh_chart).
  - constructor; [reflexivity | constructor].
  - constructor; [reflexivity | constructor].
Defined.

(** ** The fields [addMetric] fills *)

Lemma recognized_cases (f : string) :
  f ∈ recognized ->
  f = "title" \/ f = "statistic" \/ f = "namespace" \/ f = "metricname"
  \/ f = "color" \/ f = "unit" \/ f = "thickness" \/ f = "dashed"
  \/ f = "dimensions".
Proof.
  intros H. apply list_elem_of_In in H. simpl in H.
  repeat (destruct H as [<- | H]; [tauto|]). contradiction.
Qed.

Lemma assign_param_stored (m m' : Metric) (k : string) (v : value) (f : string) :
  f ∈ recognized ->
  assign_param m k v = Returned m' ->
  stored f m'
  = if String.eqb (toLowerCase k) f then conversion f v else stored f m.
Proof.
  intros Hf H. apply recognized_cases in Hf. revert H. unfold assign_param.
  repeat match goal with
         | |- context [String.eqb (toLowerCase k) ?w] =>
             destruct (String.eqb_spec (toLowerCase k) w) as [->|]
         end;
    try discriminate; intros [= <-];
    destruct Hf as [->|[->|[->|[->|[->|[->|[->|[->| ->]]]]]]]];
    try reflexivity;
    try (rewrite (proj2 (String.eqb_neq _ _)) by assumption; reflexivity);
    try (cbn; destruct (truthy v); reflexivity).
Qed.

Lemma configure_stored (all : object) (f : string) (keys : list string) :
  f ∈ recognized ->
  NoDup (map toLowerCase keys) ->
  forall m0 m : Metric,
    foldl (fun acc k => m ← acc; assign_param m k (get all k)) (Returned m0) keys
    = Returned m ->
    (forall k, k ∈ keys -> toLowerCase k = f ->
               stored f m = conversion f (get all k))
    /\ ((forall k, k ∈ keys -> toLowerCase k <> f) -> stored f m = stored f m0).
Proof.
  intros Hf. induction keys as [|k keys IH]; intros Hnd m0 m Hr.
  - injection Hr as <-. split; [intros k Hk; inversion Hk | reflexivity].
  - cbn [map] in Hnd. apply NoDup_cons in Hnd as [Hk Hnd].
    cbn [foldl mbind outcome_bind] in Hr.
    destruct (assign_param m0 k (get all k)) as [m1|e|] eqn:E.
    + destruct (IH Hnd m1 m Hr) as [IH1 IH2].
      pose proof (assign_param_stored _ _ _ _ f Hf E) as Hs.
      split.
      * intros k' Hk' Ef. apply elem_of_cons in Hk' as [-> | Hk'].
        -- rewrite IH2.
           ++ rewrite Hs, (proj2 (String.eqb_eq _ _) Ef). reflexivity.
           ++ intros k2 Hk2 E2. apply Hk. rewrite Ef, <- E2.
              apply list_elem_of_fmap_2, Hk2.
        -- apply IH1; assumption.
      * intros Hno. rewrite IH2.
        -- rewrite Hs, (proj2 (String.eqb_neq _ _)); [reflexivity|].
           apply Hno. left.
        -- intros k2 Hk2. apply Hno. right. exact Hk2.
    + rewrite foldl_Threw in Hr. discriminate.
    + exfalso. clear -E. revert E. unfold assign_param.
      repeat match goal with
             | |- context [String.eqb (toLowerCase k) ?w] =>
                 destruct (String.eqb (toLowerCase k) w)
             end; discriminate.
Qed.

(** What [addMetric] leaves in the metric, parameter by parameter, when no
    two property names of [params] are equal up to case: the parameter of
    lower-case name [f] is stored after its conversion (a string for the
    title, the namespace and the metric name, [parseInt] for the
    thickness, a boolean for [dashed]), and a parameter that is not given
    keeps the value the metric's constructor set. *)
Theorem addMetric_fields (params : object) (m : Metric) (f : string) :
  configure params = Returned m ->
  NoDup (map toLowerCase (map fst params)) ->
  f ∈ recognized ->
  (forall k, k ∈ map fst params -> toLowerCase k = f ->
             stored f m = conversion f (get params k))
  /\ ((forall k, k ∈ map fst params -> toLowerCase k <> f) ->
      stored f m = stored f AwsCloudWatchChartMetric).
Proof.
  intros Hr Hnd Hf.
  exact (configure_stored params f (map fst params) Hf Hnd
           AwsCloudWatchChartMetric m Hr).
Qed.

Lemma addMetric_fields_witness :
  exists m : Metric,
    configure [("MetricName", VStr "CPUUtilization"); ("Thickness", VStr "2")]
    = Returned m
    /\ stored "thickness" m = VNum 2
    /\ stored "color" m = VStr "FF0000".
Proof.
  eexists. split; [vm_compute; reflexivity|].
  assert (NoDup (map toLowerCase
                   (map fst [("MetricName", VStr "CPUUtilization");
                             ("Thickness", VStr "2")]))) as Hnd.
  { cbn. apply NoDup_cons. split.
    - intros H. apply list_elem_of_In in H. simpl in H.
      destruct H as [H | []]. discriminate.
    - apply NoDup_singleton. }
  split.
  - apply (proj1 (addMetric_fields
                    [("MetricName", VStr "CPUUtilization"); ("Thickness", VStr "2")]
                    _ "thickness" eq_refl Hnd
                    ltac:(apply list_elem_of_In; simpl; tauto))
                 "Thickness"); [|reflexivity].
    apply list_elem_of_In. simpl. tauto.
  - apply (proj2 (addMetric_fields
                    [("MetricName", VStr "CPUUtilization"); ("Thickness", VStr "2")]
                    _ "color" eq_refl Hnd
                    ltac:(apply list_elem_of_In; simpl; tauto))).
    intros k Hk. apply list_elem_of_In in Hk. simpl in Hk.
    destruct Hk as [<- | [<- | []]]; discriminate.
Defined.

(** ** A chart of zero samples *)

(** The constructor does not look at [chartSamples].  When it is 0 the
    step of the walk is infinite or NaN, the first [setTime] leaves an
    invalid date and the loop ends at once: [getURL] returns a chart with
    no label, a ceiling of 0 and an empty string of data for every
    metric. *)
Theorem getURL_zero_samples (cfg : ConfigObject) (ms : list Metric)
    (ts : list value) :
  number_fields cfg !! "chartSamples" = Some 0 ->
  all_datapoints ms <> [] ->
  getTitles ms = Returned ts ->
  exists l : Locals,
    getURL_locals 2 cfg ms = Returned l
    /\ labels l = []
    /\ topEdge l = 0
    /\ datasetsAsStrings l = map (fun _ => "") ms.
Proof.
  intros HN Hne Hts.
  destruct (range_exists _ Hne) as (lo & hi & Hall & Hlo & Hhi).
  assert (lo <= hi) as Hle.
  { destruct Hlo as (p & Hp & <-). specialize (Hall p Hp). lia. }
  destruct (time_range_spec (all_datapoints ms) lo hi Hall Hlo Hhi)
    as (si & ei & Er & Hsi & Hei). cbv zeta in Er, Hsi, Hei.
  unfold getURL_locals.
  set (σ := map (fun p => Some (Timestamp p)) (all_datapoints ms)) in *.
  rewrite Er. cbn [ref_number]. unfold read_number. rewrite HN.
  set (diff := ((date_number σ ei - date_number σ si) / of_Z 0)%num).
  assert (TimeClip (of_Z lo + diff) = None) as Hclip.
  { unfold diff, date_number. rewrite Hsi, Hei.
    unfold of_Z, Num.sub, Num.neg, Num.add, Num.div.
    change (Qeq_bool (inject_Z 0) 0) with true. cbv iota.
    destruct (sgn (inject_Z hi + - inject_Z lo)); reflexivity. }
  assert (walk 2 σ si (Some ei) diff None [] = Returned []) as Hwalk.
  { cbn [walk ref_number]. unfold date_number at 1 2. rewrite Hsi, Hei, le_of_Z.
    rewrite (proj2 (Z.leb_le lo hi) Hle), Hclip.
    unfold date_number.
    rewrite list_lookup_insert_eq by (eapply lookup_lt_Some, Hsi).
    reflexivity. }
  rewrite Hwalk. cbn [mbind outcome_bind].
  pose proof (resample_spec ms []) as [Ha Hd].
  destruct (resample ms []) as [absMax dsets]. cbn [fst snd] in Ha, Hd.
  rewrite Hts. cbn [mbind outcome_bind].
  eexists. split; [reflexivity|].
  cbn [labels topEdge datasetsAsStrings]. split; [reflexivity|].
  assert (concat (bucket_scalars ms []) = []) as Hc.
  { unfold bucket_scalars. clear. induction ms as [|m ms IH]; [reflexivity | exact IH]. }
  rewrite Hc in Ha. cbn in Ha.
  assert (Qceiling (absMax * 1.2) = 0) as ->.
  { rewrite (Qceiling_comp _ 0%Q); [reflexivity|]. rewrite Ha. reflexivity. }
  split; [reflexivity|].
  subst dsets. unfold bucket_scalars. rewrite map_map. reflexivity.
Qed.

Lemma getURL_zero_samples_witness :
  exists l : Locals,
    getURL_locals 2 (sample_config 0) [sample_metric] = Returned l
    /\ labels l = []
    /\ topEdge l = 0
    /\ datasetsAsStrings l = map (fun _ => "") [sample_metric].
Proof.
  apply (getURL_zero_samples (sample_config 0) [sample_metric] [VStr ""]);
    [reflexivity | discriminate | reflexivity].
Defined.
